(** * The walt.id end-to-end issuance script, as a shallow embedding

    The embedded program is the end-to-end test script of the repository
    (functions [parseCredentialOfferUrl], [exchangePreAuthorizedCode],
    [createProofOfPossession], [requestCredential],
    [fetchCredentialOfferWithRetry], [resolveOfferIfUri] and [main]) together
    with [PassportMDocIssuer.parseCredentialOffer] of [mdoc-issuer.js].

    JavaScript data is embedded as the inductive type [value]; the built-in
    functions the script calls ([String.prototype.split], [URLSearchParams],
    [decodeURIComponent], [JSON.parse], ...) are embedded as executable
    functions; calls that leave the process (axios, jose, the clock, the
    console) are threaded through a small state-and-exception monad whose
    state is the chronological trace of such calls. *)

From Stdlib Require Import String Ascii List NArith ZArith Lia Bool Arith.
Import ListNotations.
Local Open Scope string_scope.
Local Open Scope list_scope.
Local Open Scope nat_scope.
Set Warnings "-register-all".

(** ** JavaScript values

    Strings are Rocq strings holding the UTF-8 bytes of the JavaScript
    string.  Numbers are the integer-valued ones ([VNum n] is the number
    [n]; an integer that no double holds stands for the double nearest to
    it, the value its numeral has); objects are their own
    enumerable string-keyed properties in property order, the order of
    [Object.entries]. *)

Inductive value : Type :=
| VUndefined
| VNull
| VBool (b : bool)
| VNum (n : Z)
| VStr (s : string)
| VArr (items : list value)
| VObj (props : list (string * value)).

(** What a JavaScript evaluation can end in: a value, a thrown exception, or
    a construct this embedding does not cover (a JSON numeral that is not an
    integer, an escaped unpaired surrogate). *)

Inductive exn : Type :=
| Error (message : string)
| TypeError (message : string)
| URIError
| SyntaxError
| AxiosError (response : option (Z * value))
| JoseError.

Inductive result (A : Type) : Type :=
| Ok (a : A)
| Throw (e : exn)
| Unsupported.

Arguments Ok {A} a.
Arguments Throw {A} e.
Arguments Unsupported {A}.

Definition rbind {A B : Type} (r : result A) (k : A -> result B) : result B :=
  match r with
  | Ok a => k a
  | Throw e => Throw e
  | Unsupported => Unsupported
  end.

Declare Scope js_scope.
Delimit Scope js_scope with js.
Notation "x <- r ;; k" := (rbind r (fun x => k))
  (at level 61, r at next level, right associativity) : js_scope.

(** ToBoolean: [undefined], [null], [false], [0] and the empty string are
    falsy, every other value is truthy. *)
Definition truthy (v : value) : bool :=
  match v with
  | VUndefined | VNull => false
  | VBool b => b
  | VNum n => negb (n =? 0)%Z
  | VStr s => negb (String.eqb s EmptyString)
  | VArr _ | VObj _ => true
  end.

(** [a || b] and [a && b] on already evaluated operands. *)
Definition js_or (a b : value) : value := if truthy a then a else b.
Definition js_and (a b : value) : value := if truthy a then b else a.

Definition nullish (v : value) : bool :=
  match v with
  | VUndefined | VNull => true
  | _ => false
  end.

Fixpoint lookup (name : string) (props : list (string * value)) : option value :=
  match props with
  | [] => None
  | (k, v) :: rest => if String.eqb k name then Some v else lookup name rest
  end.

(** Property read [v.name] for the data property names the script uses
    ([format], [types], [grants], [c_nonce], ...): none of them is defined on
    a built-in prototype, so the read sees own properties only.  Reading a
    property of [undefined] or [null] throws. *)
Definition get_prop (v : value) (name : string) : result value :=
  match v with
  | VUndefined | VNull => Throw (TypeError "Cannot read properties of undefined or null")
  | VObj props =>
      match lookup name props with
      | Some x => Ok x
      | None => Ok VUndefined
      end
  | _ => Ok VUndefined
  end.

(** Optional chaining [v?.name]. *)
Definition opt_get (v : value) (name : string) : result value :=
  if nullish v then Ok VUndefined else get_prop v name.

(** Strict equality with a string literal, [v === 'lit']. *)
Definition eq_lit (v : value) (lit : string) : bool :=
  match v with
  | VStr s => String.eqb s lit
  | _ => false
  end.

(** ** UTF-16 views of a string

    [substring], [length] and indexing count UTF-16 code units.  A code
    point outside the basic plane (four UTF-8 bytes) is two units; when an
    operation separates the two, each half is rendered as U+FFFD, which is
    how it leaves the process on any UTF-8 channel. *)

Definition is_continuation (c : ascii) : bool :=
  let n := nat_of_ascii c in (128 <=? n) && (n <? 192).

Fixpoint utf8_chars_aux (s : string) : string * list string :=
  match s with
  | EmptyString => (EmptyString, [])
  | String c rest =>
      let (pending, chars) := utf8_chars_aux rest in
      if is_continuation c then (String c pending, chars)
      else (EmptyString, String c pending :: chars)
  end.

Definition utf8_chars (s : string) : list string :=
  let (pending, chars) := utf8_chars_aux s in
  match pending with
  | EmptyString => chars
  | _ => pending :: chars
  end.

Definition replacement_char : string :=
  String (ascii_of_nat 239) (String (ascii_of_nat 191) (String (ascii_of_nat 189) EmptyString)).

Definition units_of_char (c : string) : list string :=
  if 4 <=? String.length c then [replacement_char; replacement_char] else [c].

Definition code_units (s : string) : list string :=
  flat_map units_of_char (utf8_chars s).

(** Re-joins units, putting back a character whose two halves are adjacent
    again. *)
Fixpoint join_units (chars : list string) (from : nat) (count : nat) : string :=
  match chars with
  | [] => EmptyString
  | c :: rest =>
      let w := List.length (units_of_char c) in
      match count with
      | 0 => EmptyString
      | _ =>
          if w <=? from then join_units rest (from - w) count
          else if (from =? 0) && (w <=? count) then c ++ join_units rest 0 (count - w)
          else if from =? 0 then replacement_char
          else replacement_char ++ join_units rest 0 (count - 1)
      end
  end.

(** [s.substring(from, to)] for [0 <= from <= to]. *)
Definition js_substring (s : string) (from to : nat) : string :=
  join_units (utf8_chars s) from (to - from).

(** [v.substring(from, to)]: only strings have the method. *)
Definition substring_method (v : value) (from to : nat) : result string :=
  match v with
  | VStr s => Ok (js_substring s from to)
  | VUndefined | VNull => Throw (TypeError "Cannot read properties of undefined or null")
  | _ => Throw (TypeError "substring is not a function")
  end.

(** Decimal rendering of a natural number, most significant digit first;
    a number has no more decimal digits than binary ones. *)
Definition digit_char (d : N) : ascii := ascii_of_N (48 + d).

Fixpoint decimal_aux (fuel : nat) (n : N) (acc : string) : string :=
  match fuel with
  | 0 => acc
  | S f =>
      let acc' := String (digit_char (n mod 10)) acc in
      if (n / 10 =? 0)%N then acc' else decimal_aux f (n / 10)%N acc'
  end.

Definition decimal (n : N) : string :=
  decimal_aux (S (N.to_nat (N.log2 n))) n EmptyString.

Fixpoint index_entries (i : nat) (items : list value) : list (string * value) :=
  match items with
  | [] => []
  | x :: rest => (decimal (N.of_nat i), x) :: index_entries (S i) rest
  end.

(** [Object.entries(v)] for a value that is neither [undefined] nor [null]. *)
Definition object_entries (v : value) : list (string * value) :=
  match v with
  | VObj props => props
  | VArr items => index_entries 0 items
  | VStr s => index_entries 0 (map VStr (code_units s))
  | _ => []
  end.

(** [v[0]], as in [picked.types[0]]. *)
Definition get_first (v : value) : result value :=
  match v with
  | VUndefined | VNull => Throw (TypeError "Cannot read properties of undefined or null")
  | VArr items => Ok (nth 0 items VUndefined)
  | VStr s => Ok (match code_units s with c :: _ => VStr c | [] => VUndefined end)
  | VObj props => get_prop v "0"
  | _ => Ok VUndefined
  end.

(** ** Configuration selection ([main], the block that follows discovery) *)

Local Open Scope js_scope.

(** The [for (const [id, conf] of entries)] loop: the first entry whose
    [format] is ['jwt_vc_json'] or ['jwt_vc'], if the loop finds one. *)
Fixpoint pick_loop (entries : list (string * value)) : result (option (string * value)) :=
  match entries with
  | [] => Ok None
  | (id, conf) :: rest =>
      f <- get_prop conf "format" ;;
      if eq_lit f "jwt_vc_json" || eq_lit f "jwt_vc"
      then Ok (Some (id, conf))
      else pick_loop rest
  end.

Definition first_entry (entries : list (string * value)) : result (string * value) :=
  match entries with
  | e :: _ => Ok e
  | [] => Throw (TypeError "undefined is not iterable")
  end.

(** From [Object.entries(configs)] to [(pickedId, picked)].  The fallback
    test is [if (!pickedId)], a truthiness test on the identifier. *)
Definition pick_config (entries : list (string * value)) : result (string * value) :=
  if List.length entries =? 0
  then Throw (Error "No credential configurations discovered")
  else
    found <- pick_loop entries ;;
    match found with
    | Some (pickedId, picked) =>
        if negb (truthy (VStr pickedId)) then first_entry entries
        else Ok (pickedId, picked)
    | None => first_entry entries
    end.

(** [const configs = issuerMeta.credential_configurations_supported || {}]
    followed by [Object.entries(configs)]. *)
Definition config_entries (issuerMeta : value) : result (list (string * value)) :=
  c <- get_prop issuerMeta "credential_configurations_supported" ;;
  Ok (object_entries (js_or c (VObj []))).

(** [(picked.types && picked.types[0]) || 'VerifiableId'] *)
Definition credential_type (picked : value) : result value :=
  t <- get_prop picked "types" ;;
  first <- (if truthy t then (t' <- get_prop picked "types" ;; get_first t') else Ok t) ;;
  Ok (js_or first (VStr "VerifiableId")).

(** ** Strings: splitting, percent-decoding, UTF-8 *)

(** [s.split(sep)] for a one-character separator: never empty. *)
Fixpoint split_on (sep : ascii) (s : string) : list string :=
  match s with
  | EmptyString => [EmptyString]
  | String c rest =>
      if Ascii.eqb c sep then EmptyString :: split_on sep rest
      else
        match split_on sep rest with
        | seg :: segs => String c seg :: segs
        | [] => [String c EmptyString]
        end
  end.

(** [offerUrl.split('?')[1] || ''] *)
Definition query_of (offerUrl : string) : string :=
  match split_on "?" offerUrl with
  | _ :: q :: _ => q
  | _ => EmptyString
  end.

Definition hex_val (c : ascii) : option nat :=
  let n := nat_of_ascii c in
  if (48 <=? n) && (n <=? 57) then Some (n - 48)
  else if (65 <=? n) && (n <=? 70) then Some (n - 55)
  else if (97 <=? n) && (n <=? 102) then Some (n - 87)
  else None.

(** For the first byte of a multi-byte UTF-8 sequence: how many bytes
    follow, and the range the next one must lie in.  [None] for a byte that
    starts no well-formed sequence. *)
Definition lead_state (b : nat) : option (nat * nat * nat) :=
  if (194 <=? b) && (b <=? 223) then Some (1, 128, 191)
  else if b =? 224 then Some (2, 160, 191)
  else if b =? 237 then Some (2, 128, 159)
  else if (225 <=? b) && (b <=? 239) then Some (2, 128, 191)
  else if b =? 240 then Some (3, 144, 191)
  else if b =? 244 then Some (3, 128, 143)
  else if (241 <=? b) && (b <=? 243) then Some (3, 128, 191)
  else None.

(** The form-urlencoded percent-decoding of [URLSearchParams]: a [%] that
    two hexadecimal digits do not follow stays as it is. *)
Fixpoint percent_decode (s : string) : string :=
  match s with
  | EmptyString => EmptyString
  | String c rest =>
      if Ascii.eqb c "%" then
        match rest with
        | String h1 (String h2 rest') =>
            match hex_val h1, hex_val h2 with
            | Some a, Some b => String (ascii_of_nat (16 * a + b)) (percent_decode rest')
            | _, _ => String c (percent_decode rest)
            end
        | _ => String c (percent_decode rest)
        end
      else String c (percent_decode rest)
  end.

(** UTF-8 decoding with replacement: ill-formed input becomes U+FFFD.
    [pending] are the bytes of the sequence under way, [remaining] how many
    it still needs, [lower]..[upper] the range of the next one. *)
Fixpoint utf8_decode (s : string) (pending : string) (remaining lower upper : nat) : string :=
  match s with
  | EmptyString => if remaining =? 0 then EmptyString else replacement_char
  | String c rest =>
      let b := nat_of_ascii c in
      let fresh :=
        if b <? 128 then String c (utf8_decode rest EmptyString 0 128 191)
        else
          match lead_state b with
          | Some (n, lo, hi) => utf8_decode rest (String c EmptyString) n lo hi
          | None => (replacement_char ++ utf8_decode rest EmptyString 0 128 191)%string
          end in
      if remaining =? 0 then fresh
      else if (lower <=? b) && (b <=? upper) then
        if remaining =? 1
        then (pending ++ String c (utf8_decode rest EmptyString 0 128 191))%string
        else utf8_decode rest (pending ++ String c EmptyString)%string (remaining - 1) 128 191
      else (replacement_char ++ fresh)%string
  end.

Fixpoint plus_to_space (s : string) : string :=
  match s with
  | EmptyString => EmptyString
  | String c rest => String (if Ascii.eqb c "+" then " "%char else c) (plus_to_space rest)
  end.

Definition form_decode (s : string) : string :=
  utf8_decode (percent_decode (plus_to_space s)) EmptyString 0 128 191.

(** Splits at the first [=]; the value is empty when there is none. *)
Fixpoint split_pair (s : string) : string * string :=
  match s with
  | EmptyString => (EmptyString, EmptyString)
  | String c rest =>
      if Ascii.eqb c "=" then (EmptyString, rest)
      else let (n, v) := split_pair rest in (String c n, v)
  end.

Fixpoint parse_pairs (sequences : list string) : list (string * string) :=
  match sequences with
  | [] => []
  | seq :: rest =>
      if String.eqb seq EmptyString then parse_pairs rest
      else
        let (n, v) := split_pair seq in
        (form_decode n, form_decode v) :: parse_pairs rest
  end.

(** [new URLSearchParams(query)] for a string: a leading [?] is dropped, the
    rest is split at [&]. *)
Definition URLSearchParams (query : string) : list (string * string) :=
  let q := match query with
           | String c rest => if Ascii.eqb c "?" then rest else query
           | EmptyString => query
           end in
  parse_pairs (split_on "&" q).

(** [params.get(name)]: the first value under the name, [null] (here
    [None]) when there is none. *)
Fixpoint params_get (params : list (string * string)) (name : string) : option string :=
  match params with
  | [] => None
  | (n, v) :: rest => if String.eqb n name then Some v else params_get rest name
  end.

(** Truthiness of what [params.get] returns. *)
Definition present (p : option string) : bool :=
  match p with
  | Some s => negb (String.eqb s EmptyString)
  | None => false
  end.

(** [decodeURIComponent]: every [%] must start an escape, and the escapes of
    bytes above 127 must spell a well-formed UTF-8 sequence; otherwise
    [URIError]. *)
Fixpoint decode_uri (s : string) (remaining lower upper : nat) : result string :=
  match s with
  | EmptyString => if remaining =? 0 then Ok EmptyString else Throw URIError
  | String c rest =>
      if Ascii.eqb c "%" then
        match rest with
        | String h1 (String h2 rest') =>
            match hex_val h1, hex_val h2 with
            | Some a, Some b =>
                let byte := 16 * a + b in
                if remaining =? 0 then
                  if byte <? 128 then
                    (r <- decode_uri rest' 0 128 191 ;; Ok (String (ascii_of_nat byte) r))
                  else
                    match lead_state byte with
                    | Some (n, lo, hi) =>
                        (r <- decode_uri rest' n lo hi ;; Ok (String (ascii_of_nat byte) r))
                    | None => Throw URIError
                    end
                else if (lower <=? byte) && (byte <=? upper) then
                  (r <- decode_uri rest' (remaining - 1) 128 191 ;;
                   Ok (String (ascii_of_nat byte) r))
                else Throw URIError
            | _, _ => Throw URIError
            end
        | _ => Throw URIError
        end
      else if remaining =? 0 then
        (r <- decode_uri rest 0 128 191 ;; Ok (String c r))
      else Throw URIError
  end.

Definition decodeURIComponent (s : string) : result string := decode_uri s 0 128 191.

(** ** JSON *)

Definition dquote : ascii := ascii_of_nat 34.
Definition backslash : ascii := ascii_of_nat 92.
Definition newline : ascii := ascii_of_nat 10.

(** UTF-8 bytes of a code point. *)
Definition utf8_encode (cp : N) : string :=
  let byte n := ascii_of_N n in
  (if cp <? 128 then String (byte cp) EmptyString
   else if cp <? 2048 then
     String (byte (192 + cp / 64)) (String (byte (128 + cp mod 64)) EmptyString)
   else if cp <? 65536 then
     String (byte (224 + cp / 4096))
       (String (byte (128 + (cp / 64) mod 64)) (String (byte (128 + cp mod 64)) EmptyString))
   else
     String (byte (240 + cp / 262144))
       (String (byte (128 + (cp / 4096) mod 64))
          (String (byte (128 + (cp / 64) mod 64)) (String (byte (128 + cp mod 64)) EmptyString))))%N.

Definition is_digit (c : ascii) : bool :=
  let n := nat_of_ascii c in (48 <=? n) && (n <=? 57).

(** An array index is a canonical numeric string below [2^32 - 1]; such
    keys come first, in ascending order, in the property order of an
    object. *)
Fixpoint digits_N (s : string) (acc : N) : option N :=
  match s with
  | EmptyString => Some acc
  | String c rest =>
      if is_digit c then digits_N rest (10 * acc + N.of_nat (nat_of_ascii c - 48))%N
      else None
  end.

Definition array_index (k : string) : option N :=
  match k with
  | EmptyString => None
  | String c rest =>
      if Ascii.eqb c "0" then
        match rest with
        | EmptyString => Some 0%N
        | _ => None
        end
      else
        match digits_N k 0%N with
        | Some n => if (n <? 4294967295)%N then Some n else None
        | None => None
        end
  end.

Fixpoint has_prop (k : string) (props : list (string * value)) : bool :=
  match props with
  | [] => false
  | (k', _) :: rest => String.eqb k' k || has_prop k rest
  end.

Fixpoint replace_prop (k : string) (v : value) (props : list (string * value))
  : list (string * value) :=
  match props with
  | [] => []
  | (k', v') :: rest =>
      if String.eqb k' k then (k, v) :: rest else (k', v') :: replace_prop k v rest
  end.

Fixpoint insert_index (i : N) (k : string) (v : value) (props : list (string * value))
  : list (string * value) :=
  match props with
  | [] => [(k, v)]
  | (k', v') :: rest =>
      match array_index k' with
      | Some j => if (j <? i)%N then (k', v') :: insert_index i k v rest else (k, v) :: props
      | None => (k, v) :: props
      end
  end.

(** [CreateDataProperty]: an existing key keeps its place, a new array
    index goes among the indices, any other new key goes last. *)
Definition define_prop (props : list (string * value)) (k : string) (v : value)
  : list (string * value) :=
  if has_prop k props then replace_prop k v props
  else
    match array_index k with
    | Some i => insert_index i k v props
    | None => props ++ [(k, v)]
    end.

Module JSON.

Definition is_ws (c : ascii) : bool :=
  let n := nat_of_ascii c in (n =? 32) || (n =? 9) || (n =? 10) || (n =? 13).

Fixpoint skip_ws (s : string) : string :=
  match s with
  | EmptyString => EmptyString
  | String c rest => if is_ws c then skip_ws rest else s
  end.

Definition hex4 (a b c d : ascii) : option N :=
  match hex_val a, hex_val b, hex_val c, hex_val d with
  | Some x3, Some x2, Some x1, Some x0 =>
      Some (4096 * N.of_nat x3 + 256 * N.of_nat x2 + 16 * N.of_nat x1 + N.of_nat x0)%N
  | _, _, _, _ => None
  end.

Definition simple_escape (e : ascii) : option ascii :=
  if Ascii.eqb e dquote then Some dquote
  else if Ascii.eqb e backslash then Some backslash
  else if Ascii.eqb e "/" then Some "/"%char
  else if Ascii.eqb e "b" then Some (ascii_of_nat 8)
  else if Ascii.eqb e "f" then Some (ascii_of_nat 12)
  else if Ascii.eqb e "n" then Some (ascii_of_nat 10)
  else if Ascii.eqb e "r" then Some (ascii_of_nat 13)
  else if Ascii.eqb e "t" then Some (ascii_of_nat 9)
  else None.

Definition is_high_surrogate (u : N) : bool := ((55296 <=? u) && (u <=? 56319))%N.
Definition is_low_surrogate (u : N) : bool := ((56320 <=? u) && (u <=? 57343))%N.

Definition prepend (t : string) (r : string * string) : string * string :=
  ((t ++ fst r)%string, snd r).

(** A string literal, from just after its opening quote: the decoded
    contents and what follows the closing quote. *)
Fixpoint parse_string (s : string) : result (string * string) :=
  match s with
  | EmptyString => Throw SyntaxError
  | String c rest =>
      if Ascii.eqb c dquote then Ok (EmptyString, rest)
      else if Ascii.eqb c backslash then
        match rest with
        | EmptyString => Throw SyntaxError
        | String e rest1 =>
            match simple_escape e with
            | Some ch => (r <- parse_string rest1 ;; Ok (prepend (String ch EmptyString) r))
            | None =>
                if Ascii.eqb e "u" then
                  match rest1 with
                  | String h1 (String h2 (String h3 (String h4 rest2))) =>
                      match hex4 h1 h2 h3 h4 with
                      | None => Throw SyntaxError
                      | Some u =>
                          if is_high_surrogate u then
                            match rest2 with
                            | String b (String e' (String l1 (String l2 (String l3 (String l4 rest3))))) =>
                                if Ascii.eqb b backslash && Ascii.eqb e' "u" then
                                  match hex4 l1 l2 l3 l4 with
                                  | Some lo =>
                                      if is_low_surrogate lo then
                                        (r <- parse_string rest3 ;;
                                         Ok (prepend
                                               (utf8_encode (65536 + (u - 55296) * 1024 + (lo - 56320))%N)
                                               r))
                                      else Unsupported
                                  | None => Unsupported
                                  end
                                else Unsupported
                            | _ => Unsupported
                            end
                          else if is_low_surrogate u then Unsupported
                          else (r <- parse_string rest2 ;; Ok (prepend (utf8_encode u) r))
                      end
                  | _ => Throw SyntaxError
                  end
                else Throw SyntaxError
            end
        end
      else if nat_of_ascii c <? 32 then Throw SyntaxError
      else (r <- parse_string rest ;; Ok (prepend (String c EmptyString) r))
  end.

Fixpoint digits_Z (s : string) (acc : Z) : Z * string :=
  match s with
  | EmptyString => (acc, s)
  | String c rest =>
      if is_digit c then digits_Z rest (10 * acc + Z.of_nat (nat_of_ascii c - 48))%Z
      else (acc, s)
  end.

(** The largest integer all of whose neighbours are doubles. *)
Definition max_safe : Z := 9007199254740992.

Definition finish_number (negative : bool) (n : Z) (rest : string) : result (value * string) :=
  let fractional :=
    match rest with
    | String c _ => Ascii.eqb c "." || Ascii.eqb c "e" || Ascii.eqb c "E"
    | EmptyString => false
    end in
  if fractional then Unsupported
  else if (max_safe <? n)%Z then Unsupported
  else Ok (VNum (if negative then (- n)%Z else n), rest).

Definition parse_number (s : string) : result (value * string) :=
  let (negative, s1) :=
    match s with
    | String c r => if Ascii.eqb c "-" then (true, r) else (false, s)
    | EmptyString => (false, s)
    end in
  match s1 with
  | EmptyString => Throw SyntaxError
  | String c r =>
      if Ascii.eqb c "0" then finish_number negative 0%Z r
      else if is_digit c then
        let (n, r') := digits_Z s1 0%Z in finish_number negative n r'
      else Throw SyntaxError
  end.

Fixpoint strip_prefix (lit s : string) : option string :=
  match lit with
  | EmptyString => Some s
  | String c lit' =>
      match s with
      | String d s' => if Ascii.eqb c d then strip_prefix lit' s' else None
      | EmptyString => None
      end
  end.

Definition parse_literal (lit : string) (v : value) (s : string) : result (value * string) :=
  match strip_prefix lit s with
  | Some rest => Ok (v, rest)
  | None => Throw SyntaxError
  end.

(** A value, the members of an object after its first [{] and the
    elements of an array after its first [[]; [fuel] bounds the number of
    nested calls, and the length of the text is always enough. *)
Fixpoint parse_value (fuel : nat) (s : string) : result (value * string) :=
  match fuel with
  | 0 => Unsupported
  | S f =>
      match s with
      | EmptyString => Throw SyntaxError
      | String c rest =>
          if Ascii.eqb c "{" then
            match skip_ws rest with
            | EmptyString => Throw SyntaxError
            | String d rest' =>
                if Ascii.eqb d "}" then Ok (VObj [], rest')
                else parse_members f (String d rest') []
            end
          else if Ascii.eqb c "[" then
            match skip_ws rest with
            | EmptyString => Throw SyntaxError
            | String d rest' =>
                if Ascii.eqb d "]" then Ok (VArr [], rest')
                else parse_elements f (String d rest') []
            end
          else if Ascii.eqb c dquote then
            (r <- parse_string rest ;; Ok (VStr (fst r), snd r))
          else if Ascii.eqb c "t" then parse_literal "true" (VBool true) s
          else if Ascii.eqb c "f" then parse_literal "false" (VBool false) s
          else if Ascii.eqb c "n" then parse_literal "null" VNull s
          else parse_number s
      end
  end
with parse_members (fuel : nat) (s : string) (acc : list (string * value))
  : result (value * string) :=
  match fuel with
  | 0 => Unsupported
  | S f =>
      match s with
      | EmptyString => Throw SyntaxError
      | String c rest =>
          if Ascii.eqb c dquote then
            kr <- parse_string rest ;;
            match skip_ws (snd kr) with
            | EmptyString => Throw SyntaxError
            | String colon rest1 =>
                if Ascii.eqb colon ":" then
                  vr <- parse_value f (skip_ws rest1) ;;
                  let acc' := define_prop acc (fst kr) (fst vr) in
                  match skip_ws (snd vr) with
                  | EmptyString => Throw SyntaxError
                  | String d rest2 =>
                      if Ascii.eqb d "," then parse_members f (skip_ws rest2) acc'
                      else if Ascii.eqb d "}" then Ok (VObj acc', rest2)
                      else Throw SyntaxError
                  end
                else Throw SyntaxError
            end
          else Throw SyntaxError
      end
  end
with parse_elements (fuel : nat) (s : string) (acc : list value)
  : result (value * string) :=
  match fuel with
  | 0 => Unsupported
  | S f =>
      vr <- parse_value f s ;;
      let acc' := acc ++ [fst vr] in
      match skip_ws (snd vr) with
      | EmptyString => Throw SyntaxError
      | String d rest =>
          if Ascii.eqb d "," then parse_elements f (skip_ws rest) acc'
          else if Ascii.eqb d "]" then Ok (VArr acc', rest)
          else Throw SyntaxError
      end
  end.

(** [JSON.parse(text)] *)
Definition parse (text : string) : result value :=
  vr <- parse_value (S (String.length text)) (skip_ws text) ;;
  match skip_ws (snd vr) with
  | EmptyString => Ok (fst vr)
  | _ => Throw SyntaxError
  end.

Definition hex_lower (d : nat) : ascii :=
  if d <? 10 then ascii_of_nat (48 + d) else ascii_of_nat (87 + d).

Definition escape_char (c : ascii) : string :=
  let n := nat_of_ascii c in
  let esc e := String backslash (String e EmptyString) in
  if n =? 8 then esc "b"%char
  else if n =? 9 then esc "t"%char
  else if n =? 10 then esc "n"%char
  else if n =? 12 then esc "f"%char
  else if n =? 13 then esc "r"%char
  else if n =? 34 then esc dquote
  else if n =? 92 then esc backslash
  else if n <? 32 then
    String backslash
      (String "u" (String "0" (String "0"
         (String (hex_lower (n / 16)) (String (hex_lower (n mod 16)) EmptyString)))))
  else String c EmptyString.

Fixpoint escape (s : string) : string :=
  match s with
  | EmptyString => EmptyString
  | String c rest => (escape_char c ++ escape rest)%string
  end.

(** [QuoteJSONString] *)
Definition quote (s : string) : string :=
  String dquote (escape s ++ String dquote EmptyString)%string.

Definition decimal_Z (n : Z) : string :=
  if (n <? 0)%Z then String "-" (decimal (Z.abs_N n)) else decimal (Z.abs_N n).

(** [Number::toString], the text of a Number in [String(x)], in a
    template literal and in [JSON.stringify].  A Number is a double, and
    the text has the fewest digits that still read back as that double, of
    the candidates with that many digits the one nearest to it: every digit
    of an integer up to 2^53, digits followed by zeros up to 10^21, and
    exponent notation from there on.  [VNum n] is the Number [n]; an
    integer beyond 2^53 that no double holds is taken for the Number nearest
    to it, the even significand when two are as near, which is the value the
    numeral of that integer has. *)

(** The Number nearest to [x], for [0 < x]; [None] is [Infinity]. *)
Definition nearest_number (x : Z) : option Z :=
  let b := Z.log2 x in
  if (b <? 53)%Z then Some x
  else
    let e := (b - 52)%Z in
    let q := (x / 2 ^ e)%Z in
    let r := (x mod 2 ^ e)%Z in
    let half := (2 ^ (e - 1))%Z in
    let q' := if (half <? r)%Z || ((r =? half)%Z && Z.odd q) then (q + 1)%Z else q in
    let y := (q' * 2 ^ e)%Z in
    if (2 ^ 1024 <=? y)%Z then None else Some y.

(** Whether the integer [c] reads back as the Number [y], for [2^53 <= y]:
    [c] lies between the midpoints to the Numbers next to [y], the
    midpoints included when the significand of [y] is even. *)
Definition rounds_to (y c : Z) : bool :=
  let e := (Z.log2 y - 52)%Z in
  let m := (y / 2 ^ e)%Z in
  let below := if (m =? 2 ^ 52)%Z then (2 ^ (e - 1))%Z else (2 ^ e)%Z in
  let above := (2 ^ e)%Z in
  if Z.even m
  then ((2 * y - below <=? 2 * c) && (2 * c <=? 2 * y + above))%Z
  else ((2 * y - below <? 2 * c) && (2 * c <? 2 * y + above))%Z.

Definition digit_count (x : Z) : Z := Z.of_nat (String.length (decimal_Z x)).

(** The integer of fewest significant digits that reads back as [y], from
    [k] digits on; [p] is the number of digits of [y]. *)
Fixpoint shortest (fuel : nat) (y p k : Z) : Z :=
  match fuel with
  | O => y
  | S fuel' =>
      let unit := (10 ^ (p - k))%Z in
      let c1 := (y / unit * unit)%Z in
      let c2 := (c1 + unit)%Z in
      match rounds_to y c1, rounds_to y c2 with
      | true, true =>
          if (y - c1 <? c2 - y)%Z then c1
          else if (c2 - y <? y - c1)%Z then c2
          else if Z.even (c1 / unit) then c1 else c2
      | true, false => c1
      | false, true => c2
      | false, false => shortest fuel' y p (k + 1)%Z
      end
  end.

Fixpoint significant (digits : string) : string :=
  match digits with
  | EmptyString => EmptyString
  | String c rest =>
      match significant rest with
      | EmptyString => if Ascii.eqb c "0" then EmptyString else String c EmptyString
      | rest' => String c rest'
      end
  end.

(** [1.2345e+21]: the significant digits, a point after the first when
    more follow, and the exponent. *)
Definition exponent_notation (c : Z) : string :=
  match significant (decimal_Z c) with
  | EmptyString => "0"
  | String first rest =>
      (String first (match rest with
                     | EmptyString => EmptyString
                     | _ => String "." rest
                     end)
       ++ "e+" ++ decimal_Z (digit_count c - 1))%string
  end.

(** [String(x)] for a Number [0 < x]. *)
Definition positive_text (x : Z) : string :=
  match nearest_number x with
  | None => "Infinity"
  | Some y =>
      if (y <? 2 ^ 53)%Z then decimal_Z y
      else
        let c := shortest 17 y (digit_count y) 1 in
        if (digit_count c <=? 21)%Z then decimal_Z c else exponent_notation c
  end.

Definition number_text (n : Z) : string :=
  if (n =? 0)%Z then "0"
  else if (n <? 0)%Z then String "-" (positive_text (- n))
  else positive_text n.

Fixpoint join (sep : string) (parts : list string) : string :=
  match parts with
  | [] => EmptyString
  | [p] => p
  | p :: rest => (p ++ sep ++ join sep rest)%string
  end.

(** Brackets around the serialized parts, on one line when [gap] is empty
    and one part per line, indented, otherwise. *)
Definition wrap (gap indent opening closing : string) (parts : list string) : string :=
  match parts with
  | [] => (opening ++ closing)%string
  | _ =>
      if String.eqb gap EmptyString then (opening ++ join "," parts ++ closing)%string
      else
        let inner := (indent ++ gap)%string in
        let nl := String newline EmptyString in
        (opening ++ nl ++ inner ++ join ("," ++ nl ++ inner) parts ++ nl ++ indent ++ closing)%string
  end.

(** Whether the Number is finite: a numeral from 2^1024 - 2^970 on has the
    value [Infinity]. *)
Definition finite (n : Z) : bool :=
  match nearest_number (Z.abs n) with
  | Some _ => true
  | None => false
  end.

(** [SerializeJSONProperty]: [None] is [undefined], which an array turns
    into [null] and an object leaves out; a Number that is not finite is
    written [null]. *)
Fixpoint serialize (gap indent : string) (v : value) : option string :=
  match v with
  | VUndefined => None
  | VNull => Some "null"
  | VBool true => Some "true"
  | VBool false => Some "false"
  | VNum n => Some (if finite n then number_text n else "null")
  | VStr s => Some (quote s)
  | VArr items =>
      let inner := (indent ++ gap)%string in
      let part x := match serialize gap inner x with Some t => t | None => "null" end in
      Some (wrap gap indent "[" "]" (map part items))
  | VObj props =>
      let inner := (indent ++ gap)%string in
      let colon := if String.eqb gap EmptyString then ":" else ": " in
      let part (kx : string * value) :=
        match serialize gap inner (snd kx) with
        | Some t => [(quote (fst kx) ++ colon ++ t)%string]
        | None => []
        end in
      Some (wrap gap indent "{" "}" (flat_map part props))
  end.

(** [JSON.stringify(v)] and [JSON.stringify(v, null, 2)] *)
Definition stringify (v : value) : option string := serialize EmptyString EmptyString v.
Definition stringify_pretty (v : value) : option string := serialize "  " EmptyString v.

End JSON.

(** ** [encodeURIComponent] *)

Definition unreserved (c : ascii) : bool :=
  let n := nat_of_ascii c in
  ((48 <=? n) && (n <=? 57)) || ((65 <=? n) && (n <=? 90)) || ((97 <=? n) && (n <=? 122))
  || (n =? 45) || (n =? 95) || (n =? 46) || (n =? 33) || (n =? 126)
  || (n =? 42) || (n =? 39) || (n =? 40) || (n =? 41).

Definition hex_upper (d : nat) : ascii :=
  if d <? 10 then ascii_of_nat (48 + d) else ascii_of_nat (55 + d).

Fixpoint encodeURIComponent (s : string) : string :=
  match s with
  | EmptyString => EmptyString
  | String c rest =>
      if unreserved c then String c (encodeURIComponent rest)
      else
        let n := nat_of_ascii c in
        String "%" (String (hex_upper (n / 16)) (String (hex_upper (n mod 16))
          (encodeURIComponent rest)))
  end.

(** [String(v)], as in a template literal. *)
Fixpoint to_string (v : value) : string :=
  match v with
  | VUndefined => "undefined"
  | VNull => "null"
  | VBool true => "true"
  | VBool false => "false"
  | VNum n => JSON.number_text n
  | VStr s => s
  | VArr items =>
      JSON.join "," (map (fun x => if nullish x then EmptyString else to_string x) items)
  | VObj _ => "[object Object]"
  end.

(** [Object.keys(v)] *)
Definition object_keys (v : value) : result value :=
  if nullish v then Throw (TypeError "Cannot convert undefined or null to object")
  else Ok (VArr (map (fun kv => VStr (fst kv)) (object_entries v))).

(** ** The offer parser ([parseCredentialOfferUrl]) *)

(** [offerUrl.split('?')[1] || ''] on a value: only strings have [split]. *)
Definition query_of_value (offerUrl : value) : result string :=
  match offerUrl with
  | VStr s => Ok (query_of s)
  | VUndefined | VNull => Throw (TypeError "Cannot read properties of undefined or null")
  | _ => Throw (TypeError "split is not a function")
  end.

Definition parseCredentialOfferUrl (offerUrl : value) : result value :=
  query <- query_of_value offerUrl ;;
  let params := URLSearchParams query in
  let raw := params_get params "credential_offer" in
  if negb (present raw) then Throw (Error "credential_offer not found")
  else
    match raw with
    | Some raw' =>
        decoded <- decodeURIComponent raw' ;;
        JSON.parse decoded
    | None => Throw (Error "credential_offer not found")
    end.

(** ** Code extraction ([main], after the offer is resolved) *)

Definition PRE_AUTHORIZED_GRANT : string := "urn:ietf:params:oauth:grant-type:pre-authorized_code".

(** [[
    let code = offer?.grants?.authorization_code?.issuer_state;
    if (!code) {
      const grant = offer?.grants && (offer.grants[urn] || offer.grants['pre-authorized_code']);
      code = grant && (grant.pre_authorized_code || grant['pre-authorized_code']);
    }
    ]] *)
Definition extract_code (offer : value) : result value :=
  grants <- opt_get offer "grants" ;;
  ac <- opt_get grants "authorization_code" ;;
  code <- opt_get ac "issuer_state" ;;
  if negb (truthy code) then
    grants0 <- opt_get offer "grants" ;;
    grant <- (if truthy grants0 then
                grants1 <- get_prop offer "grants" ;;
                current <- get_prop grants1 PRE_AUTHORIZED_GRANT ;;
                if truthy current then Ok current
                else (grants2 <- get_prop offer "grants" ;; get_prop grants2 "pre-authorized_code")
              else Ok grants0) ;;
    if truthy grant then
      underscore <- get_prop grant "pre_authorized_code" ;;
      if truthy underscore then Ok underscore else get_prop grant "pre-authorized_code"
    else Ok grant
  else Ok code.

(** [credentialResp.credential || credentialResp.jwt || credentialResp.vc] *)
Definition extract_credential (credentialResp : value) : result value :=
  credential <- get_prop credentialResp "credential" ;;
  if truthy credential then Ok credential
  else
    jwt <- get_prop credentialResp "jwt" ;;
    if truthy jwt then Ok jwt else get_prop credentialResp "vc".

Local Close Scope js_scope.

(** ** The world outside the process

    Every call that leaves the process is an [event]; a run threads the
    chronological list of the events so far.  What the outside answers is
    given by an [environment], whose every answer may depend on all that
    happened before. *)

Record keypair : Type := { publicKey : nat; privateKey : nat }.

Inductive body : Type :=
| JsonBody (v : value)
| FormBody (fields : list (string * value)).

Inductive http_request : Type :=
| GET (url : string)
| POST (url : string) (b : body) (headers : list (string * string)).

(** An axios promise resolves with [data] or rejects; a rejection carries
    [e.response = {status, data}] when the server answered. *)
Inductive http_reply : Type :=
| Resolved (data : value)
| Rejected (response : option (Z * value)).

Inductive level : Type := Log | Warn | Err.

Inductive arg : Type :=
| AVal (v : value)
| AErr (e : exn).

Inductive event : Type :=
| Console (l : level) (args : list arg)
| Http (req : http_request) (reply : http_reply)
| Timeout (ms : Z)
| KeyPairGenerated (alg : string) (reply : option keypair)
| JwkExported (key : nat) (reply : option (list (string * value)))
| Uuid (reply : string)
| Clock (ms : Z)
| JwtSigned (claims header : value) (key : nat) (reply : option string).

Record environment : Type := {
  server : list event -> http_request -> http_reply;
  keygen : list event -> string -> option keypair;
  jwk_of : list event -> nat -> option (list (string * value));
  fresh_uuid : list event -> string;
  now : list event -> Z;
  iso_string : Z -> string;
  signer : list event -> value -> value -> nat -> option string
}.

Definition M (A : Type) : Type := environment -> list event -> result A * list event.

Definition ret {A : Type} (a : A) : M A := fun _ tr => (Ok a, tr).

Definition bind {A B : Type} (m : M A) (k : A -> M B) : M B :=
  fun env tr =>
    match m env tr with
    | (Ok a, tr') => k a env tr'
    | (Throw e, tr') => (Throw e, tr')
    | (Unsupported, tr') => (Unsupported, tr')
    end.

Definition lift {A : Type} (r : result A) : M A := fun _ tr => (r, tr).

Definition throw {A : Type} (e : exn) : M A := lift (Throw e).

Definition try_catch {A : Type} (m : M A) (handler : exn -> M A) : M A :=
  fun env tr =>
    match m env tr with
    | (Throw e, tr') => handler e env tr'
    | other => other
    end.

Declare Scope io_scope.
Delimit Scope io_scope with io.
Notation "x <- m ;; k" := (bind m (fun x => k))
  (at level 61, m at next level, right associativity) : io_scope.
Notation "m ;; k" := (bind m (fun _ => k))
  (at level 61, right associativity) : io_scope.
Local Open Scope io_scope.

Definition emit (ev : event) : M unit := fun _ tr => (Ok tt, tr ++ [ev]).

Definition str (s : string) : arg := AVal (VStr s).

Definition console_log (args : list arg) : M unit := emit (Console Log args).
Definition console_warn (args : list arg) : M unit := emit (Console Warn args).
Definition console_error (args : list arg) : M unit := emit (Console Err args).

Definition request (req : http_request) : M value :=
  fun env tr =>
    let reply := server env tr req in
    (match reply with
     | Resolved data => Ok data
     | Rejected response => Throw (AxiosError response)
     end, tr ++ [Http req reply]).

(** [const { data } = await axios.get(url)] and the same for [post]. *)
Definition axios_get (url : string) : M value := request (GET url).
Definition axios_post (url : string) (b : body) (headers : list (string * string)) : M value :=
  request (POST url b headers).

(** [await new Promise(r => setTimeout(r, ms))] *)
Definition sleep (ms : Z) : M unit := emit (Timeout ms).

Definition generateKeyPair (alg : string) : M keypair :=
  fun env tr =>
    let reply := keygen env tr alg in
    (match reply with Some kp => Ok kp | None => Throw JoseError end,
     tr ++ [KeyPairGenerated alg reply]).

Definition exportJWK (key : nat) : M (list (string * value)) :=
  fun env tr =>
    let reply := jwk_of env tr key in
    (match reply with Some jwk => Ok jwk | None => Throw JoseError end,
     tr ++ [JwkExported key reply]).

(** [crypto.randomUUID()] and [uuidv4()] *)
Definition random_uuid : M string :=
  fun env tr => let u := fresh_uuid env tr in (Ok u, tr ++ [Uuid u]).

(** [Date.now()], also the reading [new Date()] takes. *)
Definition date_now : M Z :=
  fun env tr => let t := now env tr in (Ok t, tr ++ [Clock t]).

Definition to_iso (ms : Z) : M string := fun env tr => (Ok (iso_string env ms), tr).

(** [.sign(key)]: the claims and the header as they are when the JWT is
    signed. *)
Definition sign_compact (claims header : value) (key : nat) : M string :=
  fun env tr =>
    let reply := signer env tr claims header key in
    (match reply with Some jwt => Ok jwt | None => Throw JoseError end,
     tr ++ [JwtSigned claims header key reply]).

(** [.setIssuedAt()] without an argument: jose reads the clock itself,
    [new Date()], and sets [iat] to that reading in whole seconds; an [iat]
    the claims already had keeps its place and loses its value. *)
Definition setIssuedAt (claims : list (string * value)) : M (list (string * value)) :=
  fun env tr =>
    let t := now env tr in
    (Ok (define_prop claims "iat" (VNum (t / 1000))), tr ++ [Clock t]).

(** [new SignJWT(claims).setProtectedHeader(header).setIssuedAt().sign(key)];
    the constructor refuses claims that are not an object. *)
Definition sign_jwt (claims header : value) (key : nat) : M string :=
  match claims with
  | VObj members =>
      bind (setIssuedAt members) (fun issued => sign_compact (VObj issued) header key)
  | _ => throw (TypeError "JWT Claims Set MUST be an object")
  end.

(** ** The script *)

Definition ISSUER_BASE : string := "http://localhost:7002".
Definition VERIFIER_BASE : string := "http://localhost:7003".
Definition STANDARD_VERSION : string := "draft13".

Definition json_headers : list (string * string) := [("Content-Type", "application/json")].

Definition discoverIssuerConfigs : M value :=
  console_log [str "  -> Fetching issuer metadata..."] ;;
  let url := (ISSUER_BASE ++ "/" ++ STANDARD_VERSION ++ "/.well-known/openid-credential-issuer")%string in
  axios_get url.

Definition generateEd25519Jwk : M (list (string * value) * nat) :=
  kp <- generateKeyPair "Ed25519" ;;
  jwk <- exportJWK (privateKey kp) ;;
  kid <- random_uuid ;;
  ret (define_prop jwk "kid" (VStr kid), privateKey kp).

Definition buildCredentialData (credentialType : value) : value :=
  VObj [("@context", VArr [VStr "https://www.w3.org/2018/credentials/v1"]);
        ("type", VArr [VStr "VerifiableCredential"; credentialType]);
        ("issuer", VObj [("name", VStr "Test Issuer")]);
        ("credentialSubject",
         VObj [("id", VStr "did:example:holder123");
               ("givenName", VStr "Alice");
               ("familyName", VStr "Doe")])].

Definition ISSUE_URL : string := (ISSUER_BASE ++ "/openid4vc/jwt/issue")%string.

Definition startIssuance (issuerKeyJwk : list (string * value))
    (credentialConfigurationId : string) (credentialType : value) : M value :=
  console_log [str "  -> Posting issuance request..."] ;;
  id <- random_uuid ;;
  t1 <- date_now ;;
  issuanceDate <- to_iso t1 ;;
  t2 <- date_now ;;
  expirationDate <- to_iso (t2 + 365 * 24 * 3600 * 1000)%Z ;;
  let issuanceRequest :=
    VObj [("credentialConfigurationId", VStr credentialConfigurationId);
          ("issuerKey", VObj [("type", VStr "jwk"); ("jwk", VObj issuerKeyJwk)]);
          ("authenticationMethod", VStr "PRE_AUTHORIZED");
          ("credentialData", buildCredentialData credentialType);
          ("mapping",
           VObj [("id", VStr id);
                 ("issuer", VObj [("id", VStr "did:key:issuer-did-placeholder")]);
                 ("credentialSubject", VObj [("id", VStr "did:key:holder-did-placeholder")]);
                 ("issuanceDate", VStr issuanceDate);
                 ("expirationDate", VStr expirationDate)]);
          ("standardVersion", VStr "DRAFT13")] in
  axios_post ISSUE_URL (JsonBody issuanceRequest) json_headers.

Definition TOKEN_URL : string := (ISSUER_BASE ++ "/" ++ STANDARD_VERSION ++ "/token")%string.

(** The body is [new URLSearchParams({...}).toString()], recorded by the
    fields it is built from. *)
Definition exchangePreAuthorizedCode (code : value) : M value :=
  console_log [str "  -> Exchanging pre-authorized code..."] ;;
  let form := FormBody [("grant_type", VStr PRE_AUTHORIZED_GRANT);
                        ("pre-authorized_code", code)] in
  axios_post TOKEN_URL form [("Content-Type", "application/x-www-form-urlencoded")].

Definition proof_claims (audience : string) (iat : Z) (nonce : value) : value :=
  VObj [("aud", VStr audience); ("iat", VNum iat); ("nonce", nonce)].

Definition proof_header (jwk : list (string * value)) : value :=
  VObj [("alg", VStr "EdDSA"); ("typ", VStr "openid4vci-proof+jwt"); ("jwk", VObj jwk)].

(** [createProofOfPossession]: the claims are written with the reading
    [Date.now()] gives, the key is exported for the header, and
    [.setIssuedAt()] then replaces [iat] by a reading of its own before the
    signing. *)
Definition createProofOfPossession (holderKey : keypair) (audience : string) (nonce : value)
  : M string :=
  console_log [str "  -> Creating proof of possession JWT..."] ;;
  t <- date_now ;;
  jwk <- exportJWK (publicKey holderKey) ;;
  sign_jwt (proof_claims audience (t / 1000)%Z nonce) (proof_header jwk) (privateKey holderKey).

Definition CREDENTIAL_URL : string :=
  (ISSUER_BASE ++ "/" ++ STANDARD_VERSION ++ "/credential")%string.

Definition base_payload (credentialConfigurationId : string) : list (string * value) :=
  [("credential_configuration_id", VStr credentialConfigurationId);
   ("format", VStr "jwt_vc_json")].

Definition pretty (v : value) : arg :=
  match JSON.stringify_pretty v with
  | Some text => str text
  | None => AVal VUndefined
  end.

Definition requestCredential (accessToken : value) (credentialConfigurationId : string)
    (tokenResponse : value) (holderKey : keypair) : M value :=
  console_log [str "  -> Requesting credential..."] ;;
  let payload := base_payload credentialConfigurationId in
  c_nonce <- lift (get_prop tokenResponse "c_nonce") ;;
  payload' <-
    (if truthy c_nonce then
       console_log [str "  -> Adding proof of possession (c_nonce present)"] ;;
       console_log [str "  -> c_nonce value:"; AVal c_nonce] ;;
       proof <- createProofOfPossession holderKey
                  (ISSUER_BASE ++ "/" ++ STANDARD_VERSION)%string c_nonce ;;
       console_log [str "  -> Generated proof JWT (first 100 chars):";
                    str (js_substring proof 0 100)] ;;
       ret (define_prop payload "proof"
              (VObj [("proof_type", VStr "jwt"); ("jwt", VStr proof)]))
     else ret payload) ;;
  console_log [str "  -> Final payload:"; pretty (VObj payload')] ;;
  axios_post CREDENTIAL_URL (JsonBody (VObj payload'))
    [("Authorization", ("Bearer " ++ to_string accessToken)%string);
     ("Content-Type", "application/json")].

Definition VERIFY_URL : string := (VERIFIER_BASE ++ "/openid4vc/verify")%string.

Definition startVerification (credentialType : value) : M value :=
  console_log [str "  -> Starting verification session..."] ;;
  let body :=
    VObj [("request_credentials",
           VArr [VObj [("format", VStr "jwt_vc_json"); ("type", credentialType)]])] in
  axios_post VERIFY_URL (JsonBody body) json_headers.

(** The loop of [fetchCredentialOfferWithRetry] from iteration [i] on;
    [todo] counts the iterations left, [attempts - i]. *)
Fixpoint fetch_loop (offerUri : string) (attempts : nat) (delayMs : Z) (i todo : nat)
  : M value :=
  match todo with
  | 0 => ret VUndefined
  | S todo' =>
      try_catch (axios_get offerUri)
        (fun e =>
           if i =? attempts - 1 then throw e
           else sleep delayMs ;; fetch_loop offerUri attempts delayMs (S i) todo')
  end.

Definition fetchCredentialOfferWithRetry (offerUri : string) (attempts : nat) (delayMs : Z)
  : M value :=
  fetch_loop offerUri attempts delayMs 0 attempts.

(** The defaults [attempts=5, delayMs=500]. *)
Definition DEFAULT_ATTEMPTS : nat := 5.
Definition DEFAULT_DELAY_MS : Z := 500.

Definition resolveOfferIfUri (offerUrl : value) : M value :=
  query <- lift (query_of_value offerUrl) ;;
  let params := URLSearchParams query in
  if present (params_get params "credential_offer") then lift (parseCredentialOfferUrl offerUrl)
  else
    match params_get params "credential_offer_uri" with
    | Some offerUri =>
        if String.eqb offerUri EmptyString
        then throw (Error "No credential_offer or credential_offer_uri")
        else fetchCredentialOfferWithRetry offerUri DEFAULT_ATTEMPTS DEFAULT_DELAY_MS
    | None => throw (Error "No credential_offer or credential_offer_uri")
    end.

(** [PassportMDocIssuer.parseCredentialOffer] of [mdoc-issuer.js]: the same
    inline branch, a single retrieval otherwise. *)
Definition fetch_offer_uri (params : list (string * string)) : M value :=
  match params_get params "credential_offer_uri" with
  | Some offerUri =>
      if negb (String.eqb offerUri EmptyString) then axios_get offerUri
      else throw (Error "No credential offer found in URL")
  | None => throw (Error "No credential offer found in URL")
  end.

Definition parseCredentialOffer (offerUrl : value) : M value :=
  query <- lift (query_of_value offerUrl) ;;
  let params := URLSearchParams query in
  match params_get params "credential_offer" with
  | Some raw =>
      if negb (String.eqb raw EmptyString)
      then lift (rbind (decodeURIComponent raw) JSON.parse)
      else fetch_offer_uri params
  | None => fetch_offer_uri params
  end.

(** [main], the [try] block in three parts: up to the resolved offer, from
    the offer to the credential response, and from there to the end. *)
Definition main_prepare : M (string * value * keypair * value) :=
  console_log [str "=== Starting walt.id End-to-End Test ==="] ;;
  console_log [str "Discovering issuer configurations..."] ;;
  issuerMeta <- discoverIssuerConfigs ;;
  console_log [str "Successfully discovered issuer configurations"] ;;
  entries <- lift (config_entries issuerMeta) ;;
  pick <- lift (pick_config entries) ;;
  let pickedId := fst pick in
  let picked := snd pick in
  credentialType <- lift (credential_type picked) ;;
  console_log [str "Using credentialConfigurationId:"; str pickedId;
               str "type:"; AVal credentialType] ;;
  console_log [str "Generating issuer key (Ed25519)..."] ;;
  issuer <- generateEd25519Jwk ;;
  let issuerKey := fst issuer in
  console_log [str "Generating holder key (Ed25519)..."] ;;
  holderKey <- generateKeyPair "Ed25519" ;;
  console_log [str "Starting issuance..."] ;;
  issuanceUrl <- startIssuance issuerKey pickedId credentialType ;;
  console_log [str "Issuance URL:"; AVal issuanceUrl] ;;
  console_log [str "Parsing credential offer..."] ;;
  offer <- resolveOfferIfUri issuanceUrl ;;
  console_log [str "Credential offer parsed successfully"] ;;
  ret (pickedId, credentialType, holderKey, offer).

Definition CODE_NOT_FOUND : exn :=
  Error "Pre-authorized or authorization code not found in offer".

Definition main_redeem (pickedId : string) (holderKey : keypair) (offer : value) : M value :=
  code <- lift (extract_code offer) ;;
  if negb (truthy code) then throw CODE_NOT_FOUND
  else
    console_log [str "Got pre-authorized code"] ;;
    console_log [str "Exchanging code for access token..."] ;;
    tokenResp <- exchangePreAuthorizedCode code ;;
    accessToken <- lift (get_prop tokenResp "access_token") ;;
    c_nonce <- lift (get_prop tokenResp "c_nonce") ;;
    console_log [str "Access token acquired, c_nonce:";
                 str (if truthy c_nonce then "present" else "not present")] ;;
    console_log [str "Requesting credential IMMEDIATELY..."] ;;
    requestCredential accessToken pickedId tokenResp holderKey.

Definition main_finish (credentialType : value) (credentialResp : value) : M unit :=
  keys <- lift (object_keys credentialResp) ;;
  console_log [str "Credential response keys:"; AVal keys] ;;
  credentialJwt <- lift (extract_credential credentialResp) ;;
  (if negb (truthy credentialJwt) then
     console_warn [str "Could not find credential JWT in response:"; AVal credentialResp]
   else
     prefix <- lift (substring_method credentialJwt 0 60) ;;
     console_log [str "✓ CREDENTIAL RECEIVED! (truncated):"; str (prefix ++ "...")]) ;;
  console_log [str "Starting verification session..."] ;;
  verifySession <- startVerification credentialType ;;
  console_log [str "Verification session response:"; AVal verifySession] ;;
  console_log [str (String newline "=== SUCCESS ===")] ;;
  console_log [str "✓ Credential issued successfully"] ;;
  console_log [str "✓ Verification session started"] ;;
  console_log [str "NOTE: Full VP submission flow not implemented (depends on session details)."] ;;
  console_log [str "Extend script to build VP and submit to verifier token endpoint as next step."].

Definition main_try : M unit :=
  prepared <- main_prepare ;;
  let '(pickedId, credentialType, holderKey, offer) := prepared in
  credentialResp <- main_redeem pickedId holderKey offer ;;
  main_finish credentialType credentialResp.

(** [e.response], when it is truthy. *)
Definition response_of (e : exn) : option (Z * value) :=
  match e with
  | AxiosError response => response
  | _ => None
  end.

Definition main_catch (e : exn) : M Z :=
  console_log [str (String newline "=== ERROR ===")] ;;
  match response_of e with
  | Some (status, data) =>
      console_error [str "HTTP Error:"; AVal (VNum status); AVal data]
  | None => console_error [AErr e]
  end ;;
  ret 1%Z.

(** The whole process: the result is its exit code, [1] from
    [process.exit(1)] and [0] when [main] runs to its end. *)
Definition main : M Z :=
  try_catch (main_try ;; ret 0%Z) main_catch.


(** * The mDoc issuer ([mdoc-issuer.js]) and the passport reader

    [PassportMDocIssuer] builds issuance requests from passport data in the
    shape [PassportDataReader.formatForMDoc] gives it: a [data] object with
    one member per mDoc namespace. *)

Local Close Scope io_scope.
Local Open Scope js_scope.

Definition ISO_NAMESPACE : string := "org.iso.18013.5.1".
Definition WEBAUTH_NAMESPACE : string := "com.yourcompany.webauth".
Definition MDL_DOCTYPE : string := "org.iso.18013.5.1.mDL".

(** [passportData.data[namespace]] *)
Definition namespace_of (passportData : value) (namespace : string) : result value :=
  data <- get_prop passportData "data" ;;
  get_prop data namespace.

(** [passportData.data[namespace].name] *)
Definition namespace_field (passportData : value) (namespace name : string) : result value :=
  members <- namespace_of passportData namespace ;;
  get_prop members name.

(** Object spread, [{...source}], onto the properties defined so far
    ([CopyDataProperties]): the own enumerable properties of the source in
    their order; none for [undefined], [null], a number or a boolean. *)
Definition spread (target : list (string * value)) (source : value) : list (string * value) :=
  fold_left (fun acc kv => define_prop acc (fst kv) (snd kv)) (object_entries source) target.

(** The two namespaces of an issuance request, as [issueMDoc] and
    [buildMDocMapping] write them:
    [[
    { 'org.iso.18013.5.1': passportData.data['org.iso.18013.5.1'],
      'com.yourcompany.webauth': {
        ...passportData.data['com.yourcompany.webauth'],
        web_id: webId } }
    ]] *)
Definition mdoc_namespaces (passportData webId : value) : result value :=
  iso <- namespace_of passportData ISO_NAMESPACE ;;
  webauth <- namespace_of passportData WEBAUTH_NAMESPACE ;;
  Ok (VObj [(ISO_NAMESPACE, iso);
            (WEBAUTH_NAMESPACE, VObj (define_prop (spread [] webauth) "web_id" webId))]).

(** [sex === 1] *)
Definition is_one (v : value) : bool :=
  match v with
  | VNum n => (n =? 1)%Z
  | _ => false
  end.

Local Close Scope js_scope.
Local Open Scope io_scope.

(** [webId || `did:web:citizen-${uuidv4()}`] *)
Definition subject_id (webId : value) : M value :=
  if truthy webId then ret webId
  else
    u <- random_uuid ;;
    ret (VStr ("did:web:citizen-" ++ u)).

Definition buildPassportMDocData (passportData webId : value) : M value :=
  id <- subject_id webId ;;
  familyName <- lift (namespace_field passportData ISO_NAMESPACE "family_name") ;;
  givenName <- lift (namespace_field passportData ISO_NAMESPACE "given_name") ;;
  birthDate <- lift (namespace_field passportData ISO_NAMESPACE "birth_date") ;;
  sex <- lift (namespace_field passportData ISO_NAMESPACE "sex") ;;
  nationality <- lift (namespace_field passportData ISO_NAMESPACE "nationality") ;;
  passportNumber <- lift (namespace_field passportData ISO_NAMESPACE "document_number") ;;
  issuingCountry <- lift (namespace_field passportData ISO_NAMESPACE "issuing_country") ;;
  expiryDate <- lift (namespace_field passportData ISO_NAMESPACE "expiry_date") ;;
  verificationLevel <-
    lift (namespace_field passportData WEBAUTH_NAMESPACE "passport_verification_level") ;;
  verificationTimestamp <-
    lift (namespace_field passportData WEBAUTH_NAMESPACE "verification_timestamp") ;;
  portrait <- lift (namespace_field passportData ISO_NAMESPACE "portrait") ;;
  ret (VObj
         [("@context", VArr [VStr "https://www.w3.org/2018/credentials/v1";
                             VStr "https://w3id.org/citizenship/v1"]);
          ("type", VArr [VStr "VerifiableCredential"; VStr "PassportCredential"]);
          ("issuer", VObj [("name", VStr "Digital Passport Authority");
                           ("id", VStr "did:web:passport-issuer.example.com")]);
          ("credentialSubject",
           VObj [("id", id);
                 ("familyName", familyName);
                 ("givenName", givenName);
                 ("birthDate", birthDate);
                 ("gender", VStr (if is_one sex then "M" else "F"));
                 ("nationality", nationality);
                 ("passportNumber", passportNumber);
                 ("issuingCountry", issuingCountry);
                 ("expiryDate", expiryDate);
                 ("nfcVerified", VBool true);
                 ("verificationLevel", verificationLevel);
                 ("verificationTimestamp", verificationTimestamp);
                 ("webId", webId);
                 ("authenticationMethod", VStr "passport_nfc");
                 ("biometricLevel",
                  VStr (if truthy portrait then "photo_verified" else "document_only"))])]).

Definition buildMDocMapping (passportData webId : value) : M value :=
  id <- random_uuid ;;
  subject <- subject_id webId ;;
  t <- date_now ;;
  issuanceDate <- to_iso t ;;
  expirationDate <- lift (namespace_field passportData ISO_NAMESPACE "expiry_date") ;;
  namespaces <- lift (mdoc_namespaces passportData webId) ;;
  ret (VObj
         [("id", VStr id);
          ("issuer", VObj [("id", VStr "did:web:passport-issuer.example.com");
                           ("name", VStr "Digital Passport Authority")]);
          ("credentialSubject", VObj [("id", subject)]);
          ("issuanceDate", VStr issuanceDate);
          ("expirationDate", expirationDate);
          ("doctype", VStr MDL_DOCTYPE);
          ("namespaces", namespaces)]).

(** [discoverIssuerConfig]; [issuerBaseUrl] is the field of the issuer
    object, which the callers overwrite. *)
Definition discoverIssuerConfig (issuerBaseUrl : value) : M value :=
  axios_get (to_string issuerBaseUrl ++ "/" ++ STANDARD_VERSION
             ++ "/.well-known/openid-credential-issuer")%string.

(** [generateCoseKey] returns [{ jwk, privateKey, publicKey }]. *)
Definition generateCoseKey : M (list (string * value) * nat * nat) :=
  kp <- generateKeyPair "ES256" ;;
  jwk <- exportJWK (privateKey kp) ;;
  kid <- random_uuid ;;
  ret (define_prop (define_prop jwk "kid" (VStr kid)) "alg" (VStr "ES256"),
       privateKey kp, publicKey kp).

(** [error.response.statusText], the reason phrase of the rejected reply.
    The end-to-end script never reads it and [http_reply] does not carry
    it; it is the server's to choose, and so given here as a function of
    all that happened, the rejected request included. *)
Definition read_status_text (statusText : list event -> string) : M string :=
  fun _ tr => (Ok (statusText tr), tr).

Definition MDOC_HEADERS : list (string * string) :=
  [("Content-Type", "application/json"); ("sessionTtl", "300")].

Definition mdoc_issuance_request (issuerKey mdocData x5Chain : value) : value :=
  VObj [("issuerKey", VObj [("type", VStr "jwk"); ("jwk", issuerKey)]);
        ("credentialConfigurationId", VStr MDL_DOCTYPE);
        ("mdocData", mdocData);
        ("x5Chain", js_or x5Chain (VArr []))].

(** The [catch] block of [issueMDoc]. *)
Definition issuance_failed (statusText : list event -> string) (error : exn) : M value :=
  match response_of error with
  | Some (status, data) =>
      console_error [str "❌ Issuance failed:"; AVal (VNum status); AVal data] ;;
      message <- lift (get_prop data "message") ;;
      reason <- (if truthy message then ret (to_string message)
                 else read_status_text statusText) ;;
      throw (Error ("Issuance failed: " ++ reason))
  | None => throw error
  end.

Definition issueMDoc (issuerBaseUrl : value) (statusText : list event -> string)
    (passportData webId issuerKey x5Chain : value) : M value :=
  console_log [str "📝 Preparing mDoc issuance request..."] ;;
  mdocData <- lift (mdoc_namespaces passportData webId) ;;
  let issuanceRequest := mdoc_issuance_request issuerKey mdocData x5Chain in
  let url := (to_string issuerBaseUrl ++ "/openid4vc/mdoc/issue")%string in
  console_log [str "🚀 Sending mDoc issuance request to walt.id..."] ;;
  console_log [str "🔍 DEBUG: Request URL:"; str url] ;;
  console_log [str "🔍 DEBUG: Request payload:"; pretty issuanceRequest] ;;
  try_catch (axios_post url (JsonBody issuanceRequest) MDOC_HEADERS)
    (issuance_failed statusText).

(** ** [PassportDataReader.formatForMDoc] *)

Definition MOCK_PHOTO : string :=
  "iVBORw0KGgoAAAANSUhEUgAAAAEAAAABCAYAAAAfFcSJAAAADUlEQVR42mP8/5+hHgAHggJ/PchI7wAAAABJRU5ErkJggg==".

(** [generateMockPhotoData] *)
Definition generateMockPhotoData : value := VStr MOCK_PHOTO.

(** [...(passportData.photo && { portrait: passportData.photo })] *)
Definition portrait_members (passportData : value) : result value :=
  rbind (get_prop passportData "photo")
    (fun photo =>
       if truthy photo
       then rbind (get_prop passportData "photo")
              (fun portrait => Ok (VObj [("portrait", portrait)]))
       else Ok photo).

Definition formatForMDoc (passportData : value) : M value :=
  family_name <- lift (get_prop passportData "lastName") ;;
  given_name <- lift (get_prop passportData "firstName") ;;
  birth_date <- lift (get_prop passportData "dateOfBirth") ;;
  sex <- lift (get_prop passportData "sex") ;;
  nationality <- lift (get_prop passportData "nationality") ;;
  document_number <- lift (get_prop passportData "documentNumber") ;;
  issuing_country <- lift (get_prop passportData "issuingCountry") ;;
  expiry_date <- lift (get_prop passportData "expiryDate") ;;
  portrait <- lift (portrait_members passportData) ;;
  t1 <- date_now ;;
  verification_timestamp <- to_iso t1 ;;
  let mDocData :=
    VObj [(ISO_NAMESPACE,
           VObj (spread
                   [("family_name", family_name);
                    ("given_name", given_name);
                    ("birth_date", birth_date);
                    ("sex", VNum (if eq_lit sex "M" then 1 else 0));
                    ("nationality", nationality);
                    ("document_number", document_number);
                    ("issuing_country", issuing_country);
                    ("expiry_date", expiry_date)]
                   portrait));
          (WEBAUTH_NAMESPACE,
           VObj [("web_id", VStr EmptyString);
                 ("passport_verification_level", VStr "mock_verified");
                 ("verification_timestamp", VStr verification_timestamp);
                 ("verification_method", VStr "mock_passport_read")])] in
  mrz <- lift (get_prop passportData "mrz") ;;
  t2 <- date_now ;;
  extraction_timestamp <- to_iso t2 ;;
  ret (VObj [("doctype", VStr MDL_DOCTYPE);
             ("data", mDocData);
             ("metadata",
              VObj [("source", VStr "mock_passport_reader");
                    ("mrz", mrz);
                    ("extraction_timestamp", VStr extraction_timestamp);
                    ("mode", VStr "simulation")])]).

(** ** The form body of the token request *)





(** ** [PassportMDocIssuer.processFullIssuance]

    Two more things reach the process from outside here.  The PKI setup is
    read from a file: [readFile] gives its text, or nothing when the read
    fails.  And the [catch] block prints [error.message]: that is the given
    message for an [Error], and the engine's or the library's own text,
    [engineMessage], for every other exception. *)

Definition PKI_FILE : string := "mdoc-pki-setup.json".

Definition PKI_NOT_FOUND : exn :=
  Error "PKI setup not found. Please run setup-mdoc-pki.js first.".

(** The [catch] block of [loadPKISetup]. *)
Definition pki_not_found : M value :=
  console_error [str "❌ Could not load PKI setup. Run: node setup-mdoc-pki.js"] ;;
  throw PKI_NOT_FOUND.

(** [loadPKISetup]: a failed read and a text that is not JSON end in the
    same error. *)
Definition loadPKISetup (readFile : list event -> string -> option string) : M value :=
  fun env tr =>
    match readFile tr PKI_FILE with
    | Some pkiData =>
        match JSON.parse pkiData with
        | Throw _ => pki_not_found env tr
        | parsed => (parsed, tr)
        end
    | None => pki_not_found env tr
    end.

(** [error.message] *)
Definition error_message (engineMessage : exn -> string) (e : exn) : string :=
  match e with
  | Error message => message
  | _ => engineMessage e
  end.

(** [[
    issuerKey = pkiSetup.setup.issuerKey.jwk;
    x5Chain = pkiSetup.setup.x5Chain;
    ]] *)
Definition pki_keys (pkiSetup : value) : result (value * value) :=
  rbind (get_prop pkiSetup "setup") (fun setup =>
  rbind (get_prop setup "issuerKey") (fun issuerKey =>
  rbind (get_prop issuerKey "jwk") (fun jwk =>
  rbind (get_prop pkiSetup "setup") (fun setup' =>
  rbind (get_prop setup' "x5Chain") (fun x5Chain =>
  Ok (jwk, x5Chain)))))).

(** The issuer key and the certificate chain, by the mode. *)
Definition issuance_keys (readFile : list event -> string -> option string) (usePKI : bool)
  : M (value * value) :=
  if usePKI then
    console_log [str "🔐 Loading PKI setup..."] ;;
    pkiSetup <- loadPKISetup readFile ;;
    keys <- lift (pki_keys pkiSetup) ;;
    console_log [str "✅ PKI loaded - using Document Signer certificate"] ;;
    ret keys
  else
    console_log [str "🔑 Generating issuer key (testing mode)..."] ;;
    keyData <- generateCoseKey ;;
    console_log [str "⚠️  Warning: No PKI setup - may fail without proper certificates"] ;;
    ret (VObj (fst (fst keyData)), VArr []).

(** [offer.credential_configuration_ids || offer.credentials] *)
Definition offer_types (offer : value) : result value :=
  rbind (get_prop offer "credential_configuration_ids") (fun ids =>
  if truthy ids then Ok ids else get_prop offer "credentials").

(** [[
    offer?.grants && (
      offer.grants['urn:ietf:params:oauth:grant-type:pre-authorized_code'] ||
      offer.grants['pre-authorized_code'])
    ]] *)
Definition offer_grant (offer : value) : result value :=
  rbind (opt_get offer "grants") (fun grants =>
  if truthy grants then
    rbind (get_prop offer "grants") (fun grants1 =>
    rbind (get_prop grants1 PRE_AUTHORIZED_GRANT) (fun current =>
    if truthy current then Ok current
    else rbind (get_prop offer "grants") (fun grants2 =>
         get_prop grants2 "pre-authorized_code")))
  else Ok grants).

(** The [try] block of [processFullIssuance]. *)
Definition issuance_steps (issuerBaseUrl : value) (statusText : list event -> string)
    (readFile : list event -> string -> option string)
    (passportData webId : value) (usePKI : bool) : M value :=
  console_log [str "🎫 Starting mDoc credential offer generation..."] ;;
  keys <- issuance_keys readFile usePKI ;;
  offerUrl <- issueMDoc issuerBaseUrl statusText passportData webId (fst keys) (snd keys) ;;
  console_log [str "✅ Credential offer created:"; AVal offerUrl] ;;
  offer <- parseCredentialOffer offerUrl ;;
  console_log [str "📋 Credential offer details:"] ;;
  issuer <- lift (get_prop offer "credential_issuer") ;;
  console_log [str "   - Issuer:"; AVal issuer] ;;
  types <- lift (offer_types offer) ;;
  console_log [str "   - Credential Types:"; AVal types] ;;
  grant <- lift (offer_grant offer) ;;
  (if truthy grant then
     console_log [str "   - Grant Type: Pre-authorized code"] ;;
     pin <- lift (get_prop grant "user_pin_required") ;;
     console_log [str "   - User PIN Required:"; AVal (js_or pin (VBool false))]
   else ret tt) ;;
  t <- date_now ;;
  issuanceDate <- to_iso t ;;
  passportNumber <- lift (namespace_field passportData ISO_NAMESPACE "document_number") ;;
  issuer' <- lift (get_prop offer "credential_issuer") ;;
  ret (VObj [("credentialOffer",
              VObj [("url", offerUrl); ("offer", offer); ("qrCodeData", offerUrl)]);
             ("metadata",
              VObj [("webId", webId);
                    ("issuanceDate", VStr issuanceDate);
                    ("doctype", VStr MDL_DOCTYPE);
                    ("passportNumber", passportNumber);
                    ("issuer", issuer')])]).

Definition processFullIssuance (issuerBaseUrl : value) (statusText : list event -> string)
    (readFile : list event -> string -> option string) (engineMessage : exn -> string)
    (passportData webId : value) (usePKI : bool) : M value :=
  try_catch (issuance_steps issuerBaseUrl statusText readFile passportData webId usePKI)
    (fun error =>
       console_error [str "❌ Credential offer generation failed:";
                      str (error_message engineMessage error)] ;;
       throw error).

(** ** The command line of the issuer ([main] of [mdoc-issuer.js])

    [main] up to the creation of the issuer: the loop over the arguments
    and the test of the web ID.  [process.exit] ends the process there and
    then; the result is the exit code, or the options [main] goes on
    with. *)

Definition QUOTE : string := String dquote EmptyString.

Definition HELP_TEXT : string :=
  ("
🎫 Passport mDoc Credential Offer Generator

Usage:
  node mdoc-issuer.js --web-id=" ++ QUOTE ++ "user@example.com" ++ QUOTE ++ " [options]
  node mdoc-issuer.js --help

Options:
  --web-id=ID          Your web ID for authentication (required)
  --passport-data=JSON Passport data from NFC reader (optional, will prompt for NFC read)
  --use-pki           Use proper PKI setup (requires: node setup-mdoc-pki.js)
  --help              Show this help message

Examples:
  # Generate credential offer with proper PKI setup (recommended)
  node setup-mdoc-pki.js
  node mdoc-issuer.js --web-id=" ++ QUOTE ++ "alice@example.com" ++ QUOTE ++ " --use-pki
  
  # Generate credential offer in testing mode (may fail)
  node mdoc-issuer.js --web-id=" ++ QUOTE ++ "alice@example.com" ++ QUOTE ++ "

Output:
  - QR code for wallet scanning
  - Credential offer URL for manual entry
  - Compatible with any OID4VCI wallet app
      ")%string.

Definition WEB_ID_REQUIRED : string :=
  ("❌ Web ID is required. Use --web-id=" ++ QUOTE ++ "your@email.com" ++ QUOTE)%string.

Record cli_options : Type := {
  cli_passportData : value;
  cli_webId : value;
  cli_usePKI : bool
}.

(** [let passportData = null; let webId = null; let usePKI = false;] *)
Definition CLI_DEFAULTS : cli_options :=
  {| cli_passportData := VNull; cli_webId := VNull; cli_usePKI := false |}.

(** The [for (const arg of args)] loop.  [arg.startsWith(prefix)] followed
    by [arg.substring(prefix.length)] is [JSON.strip_prefix]. *)
Fixpoint read_arguments (args : list string) (options : cli_options)
  : M (Z + cli_options) :=
  match args with
  | [] => ret (inr options)
  | arg :: rest =>
      match JSON.strip_prefix "--passport-data=" arg with
      | Some text =>
          passportData <- lift (JSON.parse text) ;;
          read_arguments rest
            {| cli_passportData := passportData;
               cli_webId := cli_webId options;
               cli_usePKI := cli_usePKI options |}
      | None =>
          match JSON.strip_prefix "--web-id=" arg with
          | Some webId =>
              read_arguments rest
                {| cli_passportData := cli_passportData options;
                   cli_webId := VStr webId;
                   cli_usePKI := cli_usePKI options |}
          | None =>
              if String.eqb arg "--use-pki" then
                read_arguments rest
                  {| cli_passportData := cli_passportData options;
                     cli_webId := cli_webId options;
                     cli_usePKI := true |}
              else if String.eqb arg "--help" then
                console_log [str HELP_TEXT] ;;
                ret (inl 0%Z)
              else read_arguments rest options
          end
      end
  end.

Definition main_arguments (args : list string) : M (Z + cli_options) :=
  parsed <- read_arguments args CLI_DEFAULTS ;;
  match parsed with
  | inl code => ret (inl code)
  | inr options =>
      if negb (truthy (cli_webId options)) then
        console_error [str WEB_ID_REQUIRED] ;;
        ret (inl 1%Z)
      else
        console_log [str "🚀 Starting Passport mDoc Credential Offer Generator"] ;;
        console_log [str "🆔 Web ID:"; AVal (cli_webId options)] ;;
        console_log [str "🔐 PKI Mode:";
                     str (if cli_usePKI options then "Enabled" else "Disabled (testing mode)")] ;;
        ret (inr options)
  end.
(** * Specification-side definitions *)

Local Close Scope io_scope.

(** The own property [name] of [v], [undefined] when there is none: what
    both [v.name] and [v?.name] evaluate to whenever they do not throw. *)
Definition field (v : value) (name : string) : value :=
  match v with
  | VObj props =>
      match lookup name props with
      | Some x => x
      | None => VUndefined
      end
  | _ => VUndefined
  end.

(** ** Configuration selection *)

(** The rule in the words of the specification: the first entry whose
    format is the requested one, else the first entry. *)
Fixpoint first_with_format (requested : string) (entries : list (string * value))
  : option (string * value) :=
  match entries with
  | [] => None
  | e :: rest =>
      if eq_lit (field (snd e) "format") requested then Some e
      else first_with_format requested rest
  end.

Definition select_by_format (requested : string) (entries : list (string * value))
  : option (string * value) :=
  match first_with_format requested entries with
  | Some e => Some e
  | None => hd_error entries
  end.

(** The rule the script follows: two formats are accepted. *)
Definition accepted (conf : value) : bool :=
  eq_lit (field conf "format") "jwt_vc_json" || eq_lit (field conf "format") "jwt_vc".

Fixpoint first_accepted (entries : list (string * value)) : option (string * value) :=
  match entries with
  | [] => None
  | e :: rest => if accepted (snd e) then Some e else first_accepted rest
  end.

Definition select_accepted (entries : list (string * value)) : option (string * value) :=
  match first_accepted entries with
  | Some e => Some e
  | None => hd_error entries
  end.

Definition descriptors_defined (entries : list (string * value)) : Prop :=
  Forall (fun e => nullish (snd e) = false) entries.

Definition two_formats : list (string * value) :=
  [("legacy", VObj [("format", VStr "jwt_vc")]);
   ("current", VObj [("format", VStr "jwt_vc_json")])].

Definition sample_entries : list (string * value) :=
  [("ldp-degree", VObj [("format", VStr "ldp_vc")]);
   ("university-degree-jwt", VObj [("format", VStr "jwt_vc_json")])].

(** ** The code of an offer *)

Definition issuer_state_of (offer : value) : value :=
  field (field (field offer "grants") "authorization_code") "issuer_state".

(** The grant under a grant-type key, and the code it holds under either
    spelling of the field. *)
Definition grant_under (offer : value) (key : string) : value :=
  field (field offer "grants") key.

Definition no_code_under (offer : value) (key : string) : Prop :=
  field (grant_under offer key) "pre_authorized_code" = VUndefined
  /\ field (grant_under offer key) "pre-authorized_code" = VUndefined.

(** What [extract_code] computes, read off the own properties. *)
Definition code_of (offer : value) : value :=
  if truthy (issuer_state_of offer) then issuer_state_of offer
  else
    let grants := field offer "grants" in
    let grant :=
      if truthy grants
      then js_or (grant_under offer PRE_AUTHORIZED_GRANT) (grant_under offer "pre-authorized_code")
      else grants in
    if truthy grant
    then js_or (field grant "pre_authorized_code") (field grant "pre-authorized_code")
    else grant.

(** A request to the token endpoint. *)
Definition token_request (ev : event) : bool :=
  match ev with
  | Http (POST url _ _) _ => String.eqb url TOKEN_URL
  | _ => false
  end.

(** An event other than a request to the token endpoint. *)
Definition quiet (ev : event) : Prop := token_request ev = false.



(** ** Runs *)

(** What a computation adds to the trace: every event it adds satisfies
    [P], and an axios error it throws is the reply of the last request it
    made. *)
Definition obeys {A : Type} (P : event -> Prop) (m : M A) : Prop :=
  forall env tr r tr',
    m env tr = (r, tr') ->
    exists evs,
      tr' = tr ++ evs
      /\ Forall P evs
      /\ forall resp, r = Throw (AxiosError resp) ->
           exists evs0 req, evs = evs0 ++ [Http req (Rejected resp)].

(** A pure evaluation never throws an axios error. *)
Definition pure_error {A : Type} (r : result A) : Prop :=
  forall resp, r <> Throw (AxiosError resp).

Definition throws_only {A : Type} (allowed : exn) (r : result A) : Prop :=
  forall e, r = Throw e -> e = allowed.

(** ** A mocked issuer

    The environment of the end-to-end scenario: one configuration
    ["university-degree-jwt"] of format [jwt_vc_json]; the answers to the
    issuance, token and credential requests are parameters. *)

Definition mock_metadata : value :=
  VObj [("credential_configurations_supported",
         VObj [("university-degree-jwt", VObj [("format", VStr "jwt_vc_json")])])].

Definition mock_server (issuance token credential : http_reply)
    (tr : list event) (req : http_request) : http_reply :=
  match req with
  | GET _ => Resolved mock_metadata
  | POST url _ _ =>
      if String.eqb url ISSUE_URL then issuance
      else if String.eqb url TOKEN_URL then token
      else if String.eqb url CREDENTIAL_URL then credential
      else Resolved (VStr "http://localhost:7003/openid4vc/session/1")
  end.

Definition mock_environment (issuance token credential : http_reply) : environment :=
  {| server := mock_server issuance token credential;
     keygen := fun tr _ =>
       Some {| publicKey := 2 * List.length tr; privateKey := 2 * List.length tr + 1 |};
     jwk_of := fun _ _ => Some [("kty", VStr "OKP"); ("crv", VStr "Ed25519")];
     fresh_uuid := fun _ => "6f1c2d3e-0000-4000-8000-000000000001";
     now := fun _ => 1700000000123%Z;
     iso_string := fun _ => "2023-11-14T22:13:20.123Z";
     signer := fun _ _ _ _ => Some "eyJhbGciOiJFZERTQSJ9.e30.c2ln" |}.

Definition OFFER_PREFIX : string := "openid-credential-offer://localhost/".

(** An offer URL in the words of the specification: the offer serialized
    to JSON and URL-encoded into the [credential_offer] parameter. *)
Definition encode_offer_url (offer : value) : option string :=
  match JSON.stringify offer with
  | Some json => Some (OFFER_PREFIX ++ "?credential_offer=" ++ encodeURIComponent json)%string
  | None => None
  end.

Definition inline_offer (offer : value) : http_reply :=
  match encode_offer_url offer with
  | Some url => Resolved (VStr url)
  | None => Rejected None
  end.

Definition offer_without_grants : value :=
  VObj [("credential_issuer", VStr "http://localhost:7002");
        ("credential_configuration_ids", VArr [VStr "university-degree-jwt"]);
        ("grants", VObj [])].



Definition token_with_nonce : value :=
  VObj [("access_token", VStr "tok1"); ("c_nonce", VStr "n1")].

Definition credential_reply : value := VObj [("credential", VStr "eyJhbGciOiJFZERTQSJ9.e30.c2ln")].

Definition ERROR_BANNER : event := Console Log [str (String newline "=== ERROR ===")].

(** What the promise of a request settles to. *)
Definition outcome (reply : http_reply) : result value :=
  match reply with
  | Resolved data => Ok data
  | Rejected response => Throw (AxiosError response)
  end.

Definition credential_headers (accessToken : value) : list (string * string) :=
  [("Authorization", ("Bearer " ++ to_string accessToken)%string);
   ("Content-Type", "application/json")].

Definition credential_request (accessToken : value) (payload : value) : http_request :=
  POST CREDENTIAL_URL (JsonBody payload) (credential_headers accessToken).

Definition proof_field (jwt : string) : value :=
  VObj [("proof_type", VStr "jwt"); ("jwt", VStr jwt)].


Definition token_empty_nonce : value :=
  VObj [("access_token", VStr "tok1"); ("c_nonce", VStr EmptyString)].

Definition holder : keypair := {| publicKey := 22; privateKey := 23 |}.

(** ** The last part of the run *)

Definition verify_request (credentialType : value) : http_request :=
  POST VERIFY_URL
    (JsonBody
       (VObj [("request_credentials",
               VArr [VObj [("format", VStr "jwt_vc_json"); ("type", credentialType)]])]))
    json_headers.

Definition keys_of (v : value) : value :=
  VArr (map (fun kv => VStr (fst kv)) (object_entries v)).

(** What [main_finish] adds to the trace when no credential is found: the
    warning, then the verification request and, if it is answered, the
    closing lines. *)
Definition warned_finish (credentialType credentialResp : value) (reply : http_reply)
  : list event :=
  [Console Log [str "Credential response keys:"; AVal (keys_of credentialResp)];
   Console Warn [str "Could not find credential JWT in response:"; AVal credentialResp];
   Console Log [str "Starting verification session..."];
   Console Log [str "  -> Starting verification session..."];
   Http (verify_request credentialType) reply]
  ++ match reply with
     | Resolved verifySession =>
         [Console Log [str "Verification session response:"; AVal verifySession];
          Console Log [str (String newline "=== SUCCESS ===")];
          Console Log [str "✓ Credential issued successfully"];
          Console Log [str "✓ Verification session started"];
          Console Log
            [str "NOTE: Full VP submission flow not implemented (depends on session details)."];
          Console Log
            [str "Extend script to build VP and submit to verifier token endpoint as next step."]]
     | Rejected _ => []
     end.

Definition finished (reply : http_reply) : result unit :=
  match reply with
  | Resolved _ => Ok tt
  | Rejected response => Throw (AxiosError response)
  end.

(** A field is populated when it holds a truthy value. *)
Definition populated (v : value) (name : string) : Prop := truthy (field v name) = true.

Definition empty_credential_reply : value := VObj [("format", VStr "jwt_vc_json")].

Definition jwt_only_reply : value :=
  VObj [("credential", VStr EmptyString); ("jwt", VStr "eyJhbGciOiJFZERTQSJ9.e30.c2ln")].

Definition offer_pre_authorized : value :=
  VObj [("credential_issuer", VStr "http://localhost:7002");
        ("credential_configuration_ids", VArr [VStr "university-degree-jwt"]);
        ("grants",
         VObj [(PRE_AUTHORIZED_GRANT, VObj [("pre-authorized_code", VStr "abc123")])])].

(** The scenario in which the credential endpoint answers without any of
    the three fields, and the traces of its first two parts. *)
Definition warned_environment : environment :=
  mock_environment (inline_offer offer_pre_authorized)
    (Resolved token_with_nonce) (Resolved empty_credential_reply).

Definition warned_prepared : list event := snd (main_prepare warned_environment []).

Definition warned_redeemed : list event :=
  snd (main_redeem "university-degree-jwt" holder offer_pre_authorized
         warned_environment warned_prepared).

(** The mocked issuer with a clock that moves: a second goes by with
    every event. *)
Definition ticking_environment : environment :=
  {| server := mock_server (inline_offer offer_pre_authorized)
                 (Resolved token_with_nonce) (Resolved credential_reply);
     keygen := fun _ _ => Some holder;
     jwk_of := fun _ _ => Some [("kty", VStr "OKP"); ("crv", VStr "Ed25519")];
     fresh_uuid := fun _ => "6f1c2d3e-0000-4000-8000-000000000001";
     now := fun tr => (1700000000123 + 1000 * Z.of_nat (List.length tr))%Z;
     iso_string := fun _ => "2023-11-14T22:13:20.123Z";
     signer := fun _ _ _ _ => Some "eyJhbGciOiJFZERTQSJ9.e30.c2ln" |}.

(** The scenario in which the credential request is answered with [null]. *)
Definition null_credential_environment : environment :=
  mock_environment (inline_offer offer_pre_authorized)
    (Resolved token_with_nonce) (Resolved VNull).

Definition null_credential_prepared : list event :=
  snd (main_prepare null_credential_environment []).

(** ** Offer resolution *)

Definition NO_OFFER : exn := Error "No credential_offer or credential_offer_uri".

Definition offer_params (offerUrl : string) : list (string * string) :=
  URLSearchParams (query_of offerUrl).

(** The URL has the parameter, whatever its value. *)
Definition carries (offerUrl name : string) : Prop :=
  params_get (offer_params offerUrl) name <> None.

(** The URL has the parameter with a non-empty value. *)
Definition carries_value (offerUrl name : string) : bool :=
  present (params_get (offer_params offerUrl) name).

Definition no_offer_param (offerUrl : string) : Prop :=
  carries_value offerUrl "credential_offer" = false
  /\ carries_value offerUrl "credential_offer_uri" = false.

(** The events of failed attempts, each followed by the delay. *)
Definition retry_events (delayMs : Z) (offerUri : string)
    (failures : list (option (Z * value))) : list event :=
  flat_map (fun response => [Http (GET offerUri) (Rejected response); Timeout delayMs])
    failures.

(** All the attempts of a retrieval were made and rejected. *)
Definition exhausted (offerUrl : string) (evs : list event) : Prop :=
  carries_value offerUrl "credential_offer" = false
  /\ exists offerUri failures response,
       params_get (offer_params offerUrl) "credential_offer_uri" = Some offerUri
       /\ List.length failures = DEFAULT_ATTEMPTS - 1
       /\ evs = retry_events DEFAULT_DELAY_MS offerUri failures
                ++ [Http (GET offerUri) (Rejected response)].

(** The two errors of offer resolution: no offer in the URL, or the error
    of a retrieval attempt. *)
Definition offer_resolution_error (e : exn) : Prop :=
  e = NO_OFFER \/ exists response, e = AxiosError response.

(** The ways a resolution can go: what it returns and what it adds to the
    trace. *)
Inductive resolution (offerUrl : string) : result value -> list event -> Prop :=
| resolution_inline :
    carries_value offerUrl "credential_offer" = true ->
    resolution offerUrl (parseCredentialOfferUrl (VStr offerUrl)) []
| resolution_missing :
    no_offer_param offerUrl ->
    resolution offerUrl (Throw NO_OFFER) []
| resolution_fetched (offerUri : string) (failures : list (option (Z * value)))
    (data : value) :
    carries_value offerUrl "credential_offer" = false ->
    params_get (offer_params offerUrl) "credential_offer_uri" = Some offerUri ->
    offerUri <> EmptyString ->
    List.length failures < DEFAULT_ATTEMPTS ->
    resolution offerUrl (Ok data)
      (retry_events DEFAULT_DELAY_MS offerUri failures ++ [Http (GET offerUri) (Resolved data)])
| resolution_exhausted (offerUri : string) (failures : list (option (Z * value)))
    (response : option (Z * value)) :
    carries_value offerUrl "credential_offer" = false ->
    params_get (offer_params offerUrl) "credential_offer_uri" = Some offerUri ->
    offerUri <> EmptyString ->
    List.length failures = DEFAULT_ATTEMPTS - 1 ->
    resolution offerUrl (Throw (AxiosError response))
      (retry_events DEFAULT_DELAY_MS offerUri failures
       ++ [Http (GET offerUri) (Rejected response)]).

Definition EMPTY_OFFER_URL : string := "openid-credential-offer://localhost/?credential_offer=".

Definition MALFORMED_OFFER_URL : string :=
  "openid-credential-offer://localhost/?credential_offer=%7B".

(** ** The process boundary *)

(** What the [catch] block prints for an error. *)
Definition error_report (e : exn) : event :=
  match response_of e with
  | Some (status, data) => Console Err [str "HTTP Error:"; AVal (VNum status); AVal data]
  | None => Console Err [AErr e]
  end.

(** ** Offers with a percent sign *)

Definition offer_with_escape : value :=
  VObj [("credential_issuer", VStr "https://issuer.example/tenant%20a");
        ("credential_configuration_ids", VArr [VStr "university-degree-jwt"]);
        ("grants",
         VObj [(PRE_AUTHORIZED_GRANT, VObj [("pre-authorized_code", VStr "abc123")])])].

(** The same offer with the escape in the issuer decoded. *)
Definition offer_escape_decoded : value :=
  VObj [("credential_issuer", VStr "https://issuer.example/tenant a");
        ("credential_configuration_ids", VArr [VStr "university-degree-jwt"]);
        ("grants",
         VObj [(PRE_AUTHORIZED_GRANT, VObj [("pre-authorized_code", VStr "abc123")])])].

Definition offer_with_percent : value :=
  VObj [("credential_issuer", VStr "http://localhost:7002");
        ("credential_configuration_ids", VArr [VStr "university-degree-jwt"]);
        ("grants",
         VObj [(PRE_AUTHORIZED_GRANT, VObj [("pre-authorized_code", VStr "100%")])])].

(** The round trip of the specification: encode, then parse. *)
Definition round_trip (offer : value) : result value :=
  match encode_offer_url offer with
  | Some url => parseCredentialOfferUrl (VStr url)
  | None => Unsupported
  end.

(** ** Texts *)

Fixpoint all_chars (p : ascii -> bool) (s : string) : bool :=
  match s with
  | EmptyString => true
  | String c rest => p c && all_chars p rest
  end.

Definition is_ascii (c : ascii) : bool := nat_of_ascii c <? 128.
Definition not_percent (c : ascii) : bool := negb (Ascii.eqb c "%").
Definition not_char (sep : ascii) (c : ascii) : bool := negb (Ascii.eqb c sep).

(** The characters [encodeURIComponent] produces. *)
Definition uri_char (c : ascii) : bool := unreserved c || Ascii.eqb c "%".

(** ** JSON-representable values *)

(** The digits of a text, read from the left onto [a]. *)
Fixpoint accumulate (s : string) (a : Z) : Z :=
  match s with
  | EmptyString => a
  | String c rest => accumulate rest (10 * a + Z.of_nat (nat_of_ascii c - 48))%Z
  end.

(** What may follow a numeral. *)
Definition separated (rest : string) : bool :=
  match rest with
  | EmptyString => true
  | String c _ =>
      negb (is_digit c || Ascii.eqb c "." || Ascii.eqb c "e" || Ascii.eqb c "E")
  end.

Fixpoint fresh_keys (keys : list string) : bool :=
  match keys with
  | [] => true
  | k :: rest =>
      match array_index k with
      | None => negb (existsb (String.eqb k) rest) && fresh_keys rest
      | Some _ => false
      end
  end.

(** Values that [JSON.stringify] writes in full and that the embedding
    covers: no [undefined], integers within the safe range, objects whose
    keys are distinct and none an array index. *)
Fixpoint plain (v : value) : bool :=
  match v with
  | VUndefined => false
  | VNull | VBool _ | VStr _ => true
  | VNum n => (Z.abs n <=? JSON.max_safe)%Z
  | VArr items => forallb plain items
  | VObj props => forallb (fun kv => plain (snd kv)) props && fresh_keys (map fst props)
  end.

(** The serialization of a value, ["null"] where there is none. *)
Definition text_of (v : value) : string :=
  match JSON.stringify v with
  | Some text => text
  | None => "null"
  end.

Definition member_text (kv : string * value) : string :=
  (JSON.quote (fst kv) ++ ":" ++ text_of (snd kv))%string.

(** A bound on the fuel the parser needs for the text of a value. *)
Fixpoint size (v : value) : nat :=
  match v with
  | VArr items => S (fold_right (fun x n => S (size x + n)) 0 items)
  | VObj props => S (fold_right (fun kv n => S (size (snd kv) + n)) 0 props)
  | _ => 1
  end.

(** All the strings of a value, keys included, are made of characters [p]
    accepts. *)
Fixpoint strings_of (p : ascii -> bool) (v : value) : bool :=
  match v with
  | VStr s => all_chars p s
  | VArr items => forallb (strings_of p) items
  | VObj props =>
      forallb (fun kv => all_chars p (fst kv) && strings_of p (snd kv)) props
  | _ => true
  end.

Definition url_safe (c : ascii) : bool := is_ascii c && not_percent c.

(** The parser reads back the text of [v], whatever follows it. *)
Definition reads_back (v : value) : Prop :=
  forall fuel rest,
    size v <= fuel ->
    separated rest = true ->
    JSON.parse_value fuel (text_of v ++ rest) = Ok (v, rest).

Definition elements_size (items : list value) : nat :=
  fold_right (fun x n => S (size x + n)) 0 items.

Definition members_size (props : list (string * value)) : nat :=
  fold_right (fun kv n => S (size (snd kv) + n)) 0 props.

(** * Further properties: definitions *)

Definition METADATA_URL : string :=
  (ISSUER_BASE ++ "/" ++ STANDARD_VERSION ++ "/.well-known/openid-credential-issuer")%string.

Definition NO_CONFIGURATIONS : exn := Error "No credential configurations discovered".

Definition OFFER_NOT_FOUND : exn := Error "credential_offer not found".

Definition NO_OFFER_IN_URL : exn := Error "No credential offer found in URL".

(** What [main] adds to the trace before the metadata request, and up to
    the answer to it. *)
Definition discovery_logs : list event :=
  [Console Log [str "=== Starting walt.id End-to-End Test ==="];
   Console Log [str "Discovering issuer configurations..."];
   Console Log [str "  -> Fetching issuer metadata..."]].

Definition discovery_events (reply : http_reply) : list event :=
  discovery_logs ++ [Http (GET METADATA_URL) reply].

(** Issuer metadata without configurations. *)
Definition empty_metadata : value := VObj [("credential_issuer", VStr "http://localhost:7002")].

Definition empty_issuer_environment : environment :=
  {| server := fun _ _ => Resolved empty_metadata;
     keygen := fun _ _ => None;
     jwk_of := fun _ _ => None;
     fresh_uuid := fun _ => "6f1c2d3e-0000-4000-8000-000000000001";
     now := fun _ => 1700000000123%Z;
     iso_string := fun _ => "2023-11-14T22:13:20.123Z";
     signer := fun _ _ _ _ => None |}.

(** ** The order of requests *)

(** A request by method and URL. *)
Definition target (req : http_request) : string :=
  match req with
  | GET url => ("GET " ++ url)%string
  | POST url _ _ => ("POST " ++ url)%string
  end.

(** The requests of a trace, in order. *)
Fixpoint targets (evs : list event) : list string :=
  match evs with
  | [] => []
  | Http req _ :: rest => target req :: targets rest
  | _ :: rest => targets rest
  end.

Definition prefix_of (l l' : list string) : Prop := exists rest, l' = l ++ rest.

(** The requests of a computation follow one of the sequences [L] admits:
    all of it when the computation returns, a prefix of it otherwise. *)
Definition sends {A : Type} (m : M A) (L : list string -> Prop) : Prop :=
  forall env tr,
    exists r evs l,
      m env tr = (r, tr ++ evs)
      /\ L l
      /\ prefix_of (targets evs) l
      /\ (forall a, r = Ok a -> targets evs = l).

Definition silent {A : Type} (m : M A) : Prop := sends m (eq []).

(** Up to [DEFAULT_ATTEMPTS] retrievals of one URI. *)
Definition retrievals (l : list string) : Prop :=
  exists offerUri count,
    count <= DEFAULT_ATTEMPTS /\ l = repeat ("GET " ++ offerUri)%string count.

(** The requests of a whole run of the script. *)
Definition protocol (l : list string) : Prop :=
  exists offerUri count,
    count <= DEFAULT_ATTEMPTS
    /\ l = [("GET " ++ METADATA_URL)%string; ("POST " ++ ISSUE_URL)%string]
           ++ repeat ("GET " ++ offerUri)%string count
           ++ [("POST " ++ TOKEN_URL)%string;
               ("POST " ++ CREDENTIAL_URL)%string;
               ("POST " ++ VERIFY_URL)%string].

(** ** One configuration and one type throughout *)

(** What a posted JSON body says of the configuration and of the
    credential type, by the endpoint it goes to. *)
Definition names (pickedId : string) (credentialType : value) (ev : event) : Prop :=
  match ev with
  | Http (POST url (JsonBody b) _) _ =>
      (url = ISSUE_URL ->
       field b "credentialConfigurationId" = VStr pickedId
       /\ field (field b "credentialData") "type"
          = VArr [VStr "VerifiableCredential"; credentialType])
      /\ (url = CREDENTIAL_URL -> field b "credential_configuration_id" = VStr pickedId)
      /\ (url = VERIFY_URL ->
          field b "request_credentials"
          = VArr [VObj [("format", VStr "jwt_vc_json"); ("type", credentialType)]])
  | _ => True
  end.

(** The same, for the configuration and the type that selection draws
    from the issuer metadata. *)
Definition names_from (issuerMeta : value) (ev : event) : Prop :=
  forall entries pick credentialType,
    config_entries issuerMeta = Ok entries ->
    pick_config entries = Ok pick ->
    credential_type (snd pick) = Ok credentialType ->
    names (fst pick) credentialType ev.

(** Every event a computation adds satisfies [P], and what it returns
    satisfies [Q]. *)
Definition hoare {A : Type} (P : event -> Prop) (m : M A) (Q : A -> Prop) : Prop :=
  forall env tr,
    exists r evs,
      m env tr = (r, tr ++ evs) /\ Forall P evs /\ forall a, r = Ok a -> Q a.

(** A predicate that constrains requests only. *)
Definition passive (P : event -> Prop) : Prop :=
  forall ev, targets [ev] = [] -> P ev.

(** ** The credential response *)

(** A credential response whose credential is an object, as JSON-LD
    credentials are. *)
Definition object_credential_reply : value :=
  VObj [("credential",
         VObj [("type", VArr [VStr "VerifiableCredential"; VStr "VerifiableId"])])].

Definition object_credential_environment : environment :=
  mock_environment (inline_offer offer_pre_authorized)
    (Resolved token_with_nonce) (Resolved object_credential_reply).

Definition object_credential_prepared : list event :=
  snd (main_prepare object_credential_environment []).

Definition object_credential_redeemed : list event :=
  snd (main_redeem "university-degree-jwt" holder offer_pre_authorized
         object_credential_environment object_credential_prepared).


(** The scenario in which the token endpoint answers with [null]. *)
Definition null_token_environment : environment :=
  mock_environment (inline_offer offer_pre_authorized)
    (Resolved VNull) (Resolved credential_reply).


(** ** The mDoc issuer *)

Definition MDOC_ISSUE_URL (issuerBaseUrl : value) : string :=
  (to_string issuerBaseUrl ++ "/openid4vc/mdoc/issue")%string.

(** The member [name] of the namespace [namespace] in the [mdocData] of an
    issuance request. *)
Definition mdoc_member (request : value) (namespace name : string) : value :=
  field (field (field request "mdocData") namespace) name.

(** What [issueMDoc] logs before the request. *)
Definition issuance_logs (issuerBaseUrl request : value) : list event :=
  [Console Log [str "📝 Preparing mDoc issuance request..."];
   Console Log [str "🚀 Sending mDoc issuance request to walt.id..."];
   Console Log [str "🔍 DEBUG: Request URL:"; str (MDOC_ISSUE_URL issuerBaseUrl)];
   Console Log [str "🔍 DEBUG: Request payload:"; pretty request]].

(** Passport data in the shape of the manual-entry form of the reader
    server: one namespace, no web-authentication namespace. *)
Definition manual_entry : value :=
  VObj [("source", VStr "manual_entry");
        ("data",
         VObj [(ISO_NAMESPACE,
                VObj [("family_name", VStr "SMITH");
                      ("given_name", VStr "ALICE");
                      ("birth_date", VStr "1990-01-01");
                      ("sex", VNum 0);
                      ("nationality", VStr "GBR");
                      ("document_number", VStr "P1234567");
                      ("issuing_country", VStr "GBR");
                      ("expiry_date", VStr "2030-01-01")])])].

(** A passport as [generateMockPassportData] gives it. *)
Definition mock_passport : value :=
  VObj [("documentNumber", VStr "P1234567");
        ("documentType", VStr "P");
        ("issuingCountry", VStr "GBR");
        ("lastName", VStr "SMITH");
        ("firstName", VStr "ALICE");
        ("nationality", VStr "GBR");
        ("dateOfBirth", VStr "1990-01-01");
        ("sex", VStr "F");
        ("expiryDate", VStr "2030-01-01");
        ("personalNumber", VStr "123456789");
        ("photo", generateMockPhotoData);
        ("fingerprints", VNull);
        ("mrz", VStr "P<GBRSMITH<<ALICE")].

(** The own property [name] of a value, [undefined] when there is none:
    for an object, its member; for an array or a string, its element. *)
Definition own (v : value) (name : string) : value :=
  match lookup name (object_entries v) with
  | Some x => x
  | None => VUndefined
  end.


Definition subject_member (credential : value) (name : string) : value :=
  field (field credential "credentialSubject") name.

(** Reading a passport and building the credential data from what was
    read. *)
Definition read_and_build (passport webId : value) : M value :=
  bind (formatForMDoc passport) (fun formatted => buildPassportMDocData formatted webId).

(** Reading a passport and asking the issuer for its mDoc. *)
Definition read_and_issue (issuerBaseUrl : value) (statusText : list event -> string)
    (passport webId issuerKey x5Chain : value) : M value :=
  bind (formatForMDoc passport)
    (fun formatted => issueMDoc issuerBaseUrl statusText formatted webId issuerKey x5Chain).

(** ** The form body *)




(** ** The full issuance *)

(** A computation that never returns. *)
Definition fails {A : Type} (m : M A) : Prop :=
  forall env tr a, fst (m env tr) <> Ok a.

(** The requests of a full issuance: the issuance request, then at most
    one retrieval of the offer. *)
Definition issuance_protocol (issuerBaseUrl : value) (l : list string) : Prop :=
  exists offerUri count,
    count <= 1
    /\ l = ("POST " ++ MDOC_ISSUE_URL issuerBaseUrl)%string
           :: repeat ("GET " ++ offerUri)%string count.

(** The PKI setup cannot be loaded: the file cannot be read, or its text
    is not JSON. *)
Definition pki_unusable (readFile : list event -> string -> option string) (tr : list event)
  : Prop :=
  match readFile tr PKI_FILE with
  | Some pkiData => exists e, JSON.parse pkiData = Throw e
  | None => True
  end.

(** What a full issuance in PKI mode logs before it loads the setup. *)
Definition pki_logs : list event :=
  [Console Log [str "🎫 Starting mDoc credential offer generation..."];
   Console Log [str "🔐 Loading PKI setup..."]].

(** ** The command line of the issuer *)

(** An argument that neither asks for help nor brings passport data. *)
Definition plain_argument (arg : string) : bool :=
  match JSON.strip_prefix "--passport-data=" arg with
  | Some _ => false
  | None => negb (String.eqb arg "--help")
  end.

(** The web ID after the arguments: the value of the last [--web-id=]
    among them, [current] when there is none. *)
Fixpoint last_web_id (args : list string) (current : value) : value :=
  match args with
  | [] => current
  | arg :: rest =>
      last_web_id rest
        match JSON.strip_prefix "--web-id=" arg with
        | Some webId => VStr webId
        | None => current
        end
  end.

Definition asks_pki (args : list string) : bool :=
  existsb (fun arg => String.eqb arg "--use-pki") args.

(** What [main] logs when it goes on. *)
Definition starting_logs (options : cli_options) : list event :=
  [Console Log [str "🚀 Starting Passport mDoc Credential Offer Generator"];
   Console Log [str "🆔 Web ID:"; AVal (cli_webId options)];
   Console Log [str "🔐 PKI Mode:";
                str (if cli_usePKI options then "Enabled" else "Disabled (testing mode)")]].

(** ** What a full issuance leaves behind *)

(** An event other than a line on the error console. *)
Definition calm (ev : event) : Prop :=
  match ev with
  | Console Err _ => False
  | _ => True
  end.

(** The events a computation adds and the value it returns, when it
    returns, satisfy [Q]. *)
Definition traced {A : Type} (m : M A) (Q : list event -> A -> Prop) : Prop :=
  forall env tr,
    exists r evs, m env tr = (r, tr ++ evs) /\ forall a, r = Ok a -> Q evs a.

(** The line with which [processFullIssuance] reports a failure. *)
Definition issuance_failure_report (engineMessage : exn -> string) (e : exn) : event :=
  Console Err [str "❌ Credential offer generation failed:";
               str (error_message engineMessage e)].
(** * Lemmas and theorems *)

(** ** Reading properties *)

Lemma get_prop_field (v : value) (name : string) :
  nullish v = false -> get_prop v name = Ok (field v name).
Proof.
  destruct v; simpl; try discriminate; try reflexivity.
  intros _. destruct (lookup name props); reflexivity.
Qed.

Lemma opt_get_field (v : value) (name : string) : opt_get v name = Ok (field v name).
Proof.
  unfold opt_get. destruct (nullish v) eqn:N.
  - destruct v; try discriminate; reflexivity.
  - now apply get_prop_field.
Qed.

Lemma truthy_not_nullish (v : value) : truthy v = true -> nullish v = false.
Proof. destruct v; simpl; congruence. Qed.

Lemma field_truthy_object (v : value) (name : string) :
  truthy (field v name) = true -> nullish v = false.
Proof. destruct v; simpl; congruence. Qed.

Lemma pick_loop_first_accepted (entries : list (string * value)) :
  descriptors_defined entries -> pick_loop entries = Ok (first_accepted entries).
Proof.
  induction 1 as [| [id conf] rest Hconf _ IH]; simpl in *.
  - reflexivity.
  - rewrite (get_prop_field conf "format" Hconf). simpl.
    unfold accepted. destruct (_ || _); [reflexivity | exact IH].
Qed.

(** C5, as stated, fails: with ['jwt_vc_json'] requested, the first entry
    whose format is the requested one is the second of [two_formats], and
    the script picks the first, whose format is ['jwt_vc']. *)
Lemma selection_not_by_requested_format :
  select_by_format "jwt_vc_json" two_formats
    = Some ("current", VObj [("format", VStr "jwt_vc_json")])
  /\ pick_config two_formats = Ok ("legacy", VObj [("format", VStr "jwt_vc")]).
Proof. split; reflexivity. Qed.

(** C5, amended: for every list of entries with at least one entry, all of
    whose descriptors are defined, selection returns the first entry whose
    format is ['jwt_vc_json'] or ['jwt_vc'], when the identifier of that
    entry is not empty, and the first entry overall when no entry has such
    a format. *)
Theorem selection_first_accepted (entries : list (string * value)) :
  entries <> [] ->
  descriptors_defined entries ->
  (forall id conf, first_accepted entries = Some (id, conf) -> id <> EmptyString) ->
  exists e, select_accepted entries = Some e /\ pick_config entries = Ok e.
Proof.
  intros Hne Hdef Hid. unfold pick_config, select_accepted.
  destruct entries as [| e rest]; [congruence |].
  rewrite (pick_loop_first_accepted _ Hdef).
  cbn [List.length Nat.eqb rbind].
  destruct (first_accepted (e :: rest)) as [[id conf] |] eqn:F.
  - exists (id, conf). split; [reflexivity |].
    specialize (Hid id conf eq_refl).
    destruct id; [congruence | reflexivity].
  - exists e. split; reflexivity.
Qed.

Lemma selection_first_accepted_witness :
  exists e, select_accepted sample_entries = Some e /\ pick_config sample_entries = Ok e.
Proof.
  apply (selection_first_accepted sample_entries).
  - discriminate.
  - repeat constructor.
  - intros id conf H. vm_compute in H. injection H as <- _. discriminate.
Defined.

(** What the fallback test does to an entry with the empty identifier: it is
    found by the loop and then dropped for the first entry. *)
Example selection_empty_identifier :
  pick_config [("other", VObj [("format", VStr "ldp_vc")]);
               (EmptyString, VObj [("format", VStr "jwt_vc_json")])]
  = Ok ("other", VObj [("format", VStr "ldp_vc")]).
Proof. reflexivity. Qed.


(** ** Code extraction *)

Lemma extract_code_total (offer : value) : extract_code offer = Ok (code_of offer).
Proof.
  unfold extract_code, code_of, issuer_state_of, grant_under, js_or.
  repeat (rewrite opt_get_field; cbn [rbind]).
  destruct (truthy (field (field (field offer "grants") "authorization_code") "issuer_state"));
    cbn [negb]; [reflexivity |].
  repeat (rewrite opt_get_field; cbn [rbind]).
  destruct (truthy (field offer "grants")) eqn:G; [| cbn [rbind]; now rewrite G].
  rewrite !(get_prop_field offer "grants" (field_truthy_object _ _ G)). cbn [rbind].
  rewrite (get_prop_field _ PRE_AUTHORIZED_GRANT (truthy_not_nullish _ G)). cbn [rbind].
  destruct (truthy (field (field offer "grants") PRE_AUTHORIZED_GRANT)) eqn:C.
  - cbn [rbind]. rewrite C.
    rewrite (get_prop_field _ "pre_authorized_code" (truthy_not_nullish _ C)). cbn [rbind].
    destruct (truthy (field _ "pre_authorized_code")); [reflexivity |].
    now rewrite (get_prop_field _ "pre-authorized_code" (truthy_not_nullish _ C)).
  - rewrite (get_prop_field _ "pre-authorized_code" (truthy_not_nullish _ G)). cbn [rbind].
    destruct (truthy (field (field offer "grants") "pre-authorized_code")) eqn:L;
      [| reflexivity].
    rewrite (get_prop_field _ "pre_authorized_code" (truthy_not_nullish _ L)). cbn [rbind].
    destruct (truthy (field _ "pre_authorized_code")); [reflexivity |].
    now rewrite (get_prop_field _ "pre-authorized_code" (truthy_not_nullish _ L)).
Qed.


Lemma code_of_absent (offer : value) :
  issuer_state_of offer = VUndefined ->
  no_code_under offer PRE_AUTHORIZED_GRANT ->
  no_code_under offer "pre-authorized_code" ->
  truthy (code_of offer) = false.
Proof.
  intros Hs [Hc1 Hc2] [Hl1 Hl2]. unfold code_of. rewrite Hs. cbn [truthy].
  destruct (truthy (field offer "grants")) eqn:G; [| now rewrite G].
  unfold js_or.
  destruct (truthy (grant_under offer PRE_AUTHORIZED_GRANT)) eqn:C.
  - rewrite C, Hc1, Hc2. reflexivity.
  - destruct (truthy (grant_under offer "pre-authorized_code")) eqn:L.
    + rewrite Hl1, Hl2. reflexivity.
    + exact L.
Qed.

(** ** Runs: what a computation adds to the trace *)

Section Obeys.

Variable P : event -> Prop.

Lemma obeys_ret {A : Type} (a : A) : obeys P (ret a).
Proof.
  intros env tr r tr' H. injection H as <- <-.
  exists []. rewrite app_nil_r. repeat split; [constructor | discriminate].
Qed.

Lemma obeys_lift {A : Type} (r : result A) : pure_error r -> obeys P (lift r).
Proof.
  intros Hpure env tr r' tr' H. injection H as <- <-.
  exists []. rewrite app_nil_r. repeat split; [constructor |].
  intros resp E. now apply Hpure in E.
Qed.

Lemma obeys_throw {A : Type} (e : exn) :
  (forall resp, e <> AxiosError resp) -> obeys P (@throw A e).
Proof.
  intros He. apply obeys_lift. intros resp E. injection E as E. now apply He in E.
Qed.

Lemma obeys_bind {A B : Type} (m : M A) (k : A -> M B) :
  obeys P m -> (forall a, obeys P (k a)) -> obeys P (bind m k).
Proof.
  intros Hm Hk env tr r tr' H. unfold bind in H.
  destruct (m env tr) as [r1 tr1] eqn:E1.
  destruct (Hm _ _ _ _ E1) as (evs1 & -> & F1 & L1).
  destruct r1 as [a | e |].
  - destruct (Hk a _ _ _ _ H) as (evs2 & -> & F2 & L2).
    exists (evs1 ++ evs2). rewrite app_assoc. repeat split.
    + apply Forall_app; now split.
    + intros resp Hr. destruct (L2 resp Hr) as (evs0 & req & ->).
      exists (evs1 ++ evs0), req. now rewrite app_assoc.
  - injection H as <- <-. exists evs1. repeat split; [assumption |].
    intros resp Hr. apply L1. now injection Hr as ->.
  - injection H as <- <-. exists evs1. repeat split; [assumption | discriminate].
Qed.

Lemma obeys_emit (ev : event) : P ev -> obeys P (emit ev).
Proof.
  intros Hev env tr r tr' H. injection H as <- <-.
  exists [ev]. repeat split; [now constructor | discriminate].
Qed.

Lemma obeys_request (req : http_request) :
  (forall reply, P (Http req reply)) -> obeys P (request req).
Proof.
  intros Hev env tr r tr' H. unfold request in H. injection H as <- <-.
  exists [Http req (server env tr req)]. repeat split; [now constructor |].
  intros resp Hr. exists [], req. cbn [app].
  destruct (server env tr req); [discriminate |]. now injection Hr as ->.
Qed.

Lemma obeys_generateKeyPair (alg : string) :
  (forall reply, P (KeyPairGenerated alg reply)) -> obeys P (generateKeyPair alg).
Proof.
  intros Hev env tr r tr' H. unfold generateKeyPair in H. injection H as <- <-.
  eexists [_]. repeat split; [now constructor |].
  intros resp Hr. destruct (keygen env tr alg); discriminate.
Qed.

Lemma obeys_exportJWK (key : nat) :
  (forall reply, P (JwkExported key reply)) -> obeys P (exportJWK key).
Proof.
  intros Hev env tr r tr' H. unfold exportJWK in H. injection H as <- <-.
  eexists [_]. repeat split; [now constructor |].
  intros resp Hr. destruct (jwk_of env tr key); discriminate.
Qed.

Lemma obeys_random_uuid : (forall u, P (Uuid u)) -> obeys P random_uuid.
Proof.
  intros Hev env tr r tr' H. injection H as <- <-.
  eexists [_]. repeat split; [now constructor | discriminate].
Qed.

Lemma obeys_date_now : (forall t, P (Clock t)) -> obeys P date_now.
Proof.
  intros Hev env tr r tr' H. injection H as <- <-.
  eexists [_]. repeat split; [now constructor | discriminate].
Qed.

Lemma obeys_to_iso (ms : Z) : obeys P (to_iso ms).
Proof.
  intros env tr r tr' H. injection H as <- <-.
  exists []. rewrite app_nil_r. repeat split; [constructor | discriminate].
Qed.

Lemma obeys_sign_jwt (claims header : value) (key : nat) :
  (forall t, P (Clock t)) ->
  (forall issued reply, P (JwtSigned issued header key reply)) ->
  obeys P (sign_jwt claims header key).
Proof.
  intros Hclock Hev. unfold sign_jwt.
  destruct claims; try (apply obeys_throw; discriminate).
  apply obeys_bind; [| intros issued].
  - intros env tr r tr' H. unfold setIssuedAt in H. injection H as <- <-.
    eexists [_]. repeat split; [now constructor | discriminate].
  - intros env tr r tr' H. unfold sign_compact in H. injection H as <- <-.
    eexists [_]. repeat split; [now constructor |].
    intros resp Hr. destruct (signer env tr (VObj issued) header key); discriminate.
Qed.

(** The retry loop keeps the discipline although it catches: whenever it
    rethrows, the request that failed is the last thing that happened. *)
Lemma obeys_fetch_loop (offerUri : string) (attempts : nat) (delayMs : Z) (i todo : nat) :
  (forall reply, P (Http (GET offerUri) reply)) ->
  P (Timeout delayMs) ->
  obeys P (fetch_loop offerUri attempts delayMs i todo).
Proof.
  intros Hget Hsleep. revert i.
  induction todo as [| todo IH]; intros i; cbn [fetch_loop].
  - apply obeys_ret.
  - intros env tr r tr' H. unfold try_catch, axios_get, request in H.
    destruct (server env tr (GET offerUri)) as [data | response] eqn:Hs.
    + injection H as <- <-. eexists [_]. repeat split; [now constructor | discriminate].
    + destruct (i =? attempts - 1).
      * injection H as <- <-. eexists [_]. repeat split; [now constructor |].
        intros resp Hr. injection Hr as ->. now exists [], (GET offerUri).
      * assert (Hrest : obeys P (bind (sleep delayMs)
                                   (fun _ => fetch_loop offerUri attempts delayMs (S i) todo))).
        { apply obeys_bind; [now apply obeys_emit | intros _; apply IH]. }
        destruct (Hrest _ _ _ _ H) as (evs & -> & F & L).
        exists (Http (GET offerUri) (Rejected response) :: evs).
        rewrite <- app_assoc. repeat split.
        -- constructor; [apply Hget | exact F].
        -- intros resp Hr. destruct (L resp Hr) as (evs0 & req & ->).
           now exists (Http (GET offerUri) (Rejected response) :: evs0), req.
Qed.

End Obeys.

Lemma obeys_weaken {A : Type} (P Q : event -> Prop) (m : M A) :
  (forall ev, P ev -> Q ev) -> obeys P m -> obeys Q m.
Proof.
  intros HPQ Hm env tr r tr' H.
  destruct (Hm _ _ _ _ H) as (evs & -> & F & L).
  exists evs. repeat split; [| exact L].
  eapply Forall_impl; [exact HPQ | exact F].
Qed.

(** ** Pure evaluations and the exceptions they can end in *)

Lemma pure_error_ok {A : Type} (a : A) : pure_error (Ok a).
Proof. intros resp; discriminate. Qed.

Lemma pure_error_rbind {A B : Type} (r : result A) (k : A -> result B) :
  pure_error r -> (forall a, pure_error (k a)) -> pure_error (rbind r k).
Proof.
  intros Hr Hk resp. destruct r as [a | e |]; cbn [rbind].
  - apply Hk.
  - intros E. apply (Hr resp). now injection E as ->.
  - discriminate.
Qed.

Lemma pure_error_get_prop (v : value) (name : string) : pure_error (get_prop v name).
Proof. intros resp. destruct v; simpl; try discriminate. destruct (lookup name props); discriminate. Qed.

Lemma throws_only_pure {A : Type} (allowed : exn) (r : result A) :
  (forall resp, allowed <> AxiosError resp) -> throws_only allowed r -> pure_error r.
Proof. intros Ha Hr resp E. apply Hr in E. symmetry in E. now apply Ha in E. Qed.

Lemma decode_uri_throws (k : nat) :
  forall s, String.length s <= k ->
  forall remaining lower upper, throws_only URIError (decode_uri s remaining lower upper).
Proof.
  induction k as [| k IH]; intros s Hlen remaining lower upper e H.
  - destruct s; [| cbn in Hlen; lia]. cbn in H.
    destruct (remaining =? 0); congruence.
  - destruct s as [| c rest]; cbn [decode_uri] in H.
    + destruct (remaining =? 0); congruence.
    + cbn [String.length] in Hlen.
      assert (Hrec : forall t n lo hi (k0 : string -> result string),
                 String.length t <= k ->
                 (forall r, throws_only URIError (k0 r)) ->
                 throws_only URIError (rbind (decode_uri t n lo hi) k0)).
      { intros t n lo hi k0 Ht Hk0 e' H'.
        destruct (decode_uri t n lo hi) eqn:E; cbn [rbind] in H'.
        - now apply Hk0 in H'.
        - injection H' as <-. now apply (IH t Ht n lo hi).
        - discriminate. }
      assert (Hok : forall r : string, throws_only URIError (Ok r)) by (intros r e'; discriminate).
      destruct (Ascii.eqb c "%").
      * destruct rest as [| h1 [| h2 rest']]; try congruence.
        cbn [String.length] in Hlen.
        destruct (hex_val h1) as [a |]; [| congruence].
        destruct (hex_val h2) as [b |]; [| congruence].
        destruct (remaining =? 0).
        -- destruct (16 * a + b <? 128).
           ++ revert H. apply Hrec; [lia | intros; apply Hok].
           ++ destruct (lead_state (16 * a + b)) as [[[n lo] hi] |]; [| congruence].
              revert H. apply Hrec; [lia | intros; apply Hok].
        -- destruct ((lower <=? 16 * a + b) && (16 * a + b <=? upper)); [| congruence].
           revert H. apply Hrec; [lia | intros; apply Hok].
      * destruct (remaining =? 0); [| congruence].
        revert H. apply Hrec; [lia | intros; apply Hok].
Qed.

Lemma decodeURIComponent_throws (s : string) : throws_only URIError (decodeURIComponent s).
Proof. apply (decode_uri_throws (String.length s)). lia. Qed.

Lemma throws_only_rbind {A B : Type} (allowed : exn) (r : result A) (k : A -> result B) :
  throws_only allowed r -> (forall a, throws_only allowed (k a)) ->
  throws_only allowed (rbind r k).
Proof.
  intros Hr Hk e H. destruct r as [a | e' |]; cbn [rbind] in H.
  - now apply Hk in H.
  - injection H as <-. now apply Hr.
  - discriminate.
Qed.

Lemma throws_only_ok {A : Type} (allowed : exn) (a : A) : throws_only allowed (Ok a).
Proof. intros e; discriminate. Qed.

Lemma throws_only_unsupported {A : Type} (allowed : exn) : throws_only allowed (@Unsupported A).
Proof. intros e; discriminate. Qed.

Lemma throws_only_throw {A : Type} (allowed : exn) : throws_only allowed (@Throw A allowed).
Proof. intros e H. now injection H as <-. Qed.

Create HintDb throws.
#[local] Hint Resolve throws_only_ok throws_only_unsupported throws_only_throw : throws.

Lemma parse_string_throws (k : nat) :
  forall s, String.length s <= k -> throws_only SyntaxError (JSON.parse_string s).
Proof.
  induction k as [| k IH]; intros s Hlen.
  - destruct s; [| cbn in Hlen; lia]. cbn. auto with throws.
  - destruct s as [| c rest]; cbn [JSON.parse_string]; [auto with throws |].
    cbn [String.length] in Hlen.
    assert (Hrec : forall t (k0 : string * string -> result (string * string)),
               String.length t <= k ->
               (forall r, throws_only SyntaxError (k0 r)) ->
               throws_only SyntaxError (rbind (JSON.parse_string t) k0)).
    { intros t k0 Ht Hk0. apply throws_only_rbind; [now apply IH | exact Hk0]. }
    destruct (Ascii.eqb c dquote); [auto with throws |].
    destruct (Ascii.eqb c backslash).
    + destruct rest as [| e rest1]; [auto with throws |].
      cbn [String.length] in Hlen.
      destruct (JSON.simple_escape e).
      * apply Hrec; [lia | auto with throws].
      * destruct (Ascii.eqb e "u"); [| auto with throws].
        destruct rest1 as [| h1 [| h2 [| h3 [| h4 rest2]]]]; auto with throws.
        cbn [String.length] in Hlen.
        destruct (JSON.hex4 h1 h2 h3 h4) as [u |]; [| auto with throws].
        destruct (JSON.is_high_surrogate u).
        -- destruct rest2 as [| b [| e' [| l1 [| l2 [| l3 [| l4 rest3]]]]]]; auto with throws.
           cbn [String.length] in Hlen.
           destruct (Ascii.eqb b backslash && Ascii.eqb e' "u"); [| auto with throws].
           destruct (JSON.hex4 l1 l2 l3 l4) as [lo |]; [| auto with throws].
           destruct (JSON.is_low_surrogate lo); [| auto with throws].
           apply Hrec; [lia | auto with throws].
        -- destruct (JSON.is_low_surrogate u); [auto with throws |].
           apply Hrec; [lia | auto with throws].
    + destruct (nat_of_ascii c <? 32); [auto with throws |].
      apply Hrec; [lia | auto with throws].
Qed.

Lemma parse_number_throws (s : string) : throws_only SyntaxError (JSON.parse_number s).
Proof.
  assert (Hfin : forall neg n r, throws_only SyntaxError (JSON.finish_number neg n r)).
  { intros neg n r. unfold JSON.finish_number.
    destruct (match r with EmptyString => false | String c _ => _ end); [auto with throws |].
    destruct (JSON.max_safe <? n)%Z; auto with throws. }
  unfold JSON.parse_number.
  destruct (match s with EmptyString => (false, s) | String c r => _ end) as [neg s1].
  destruct s1 as [| c r]; [auto with throws |].
  destruct (Ascii.eqb c "0"); [apply Hfin |].
  destruct (is_digit c); [| auto with throws].
  destruct (JSON.digits_Z (String c r) 0%Z). apply Hfin.
Qed.

Lemma parse_literal_throws (lit : string) (v : value) (s : string) :
  throws_only SyntaxError (JSON.parse_literal lit v s).
Proof. unfold JSON.parse_literal. destruct (JSON.strip_prefix lit s); auto with throws. Qed.

Lemma parse_value_throws (fuel : nat) :
  (forall s, throws_only SyntaxError (JSON.parse_value fuel s))
  /\ (forall s acc, throws_only SyntaxError (JSON.parse_members fuel s acc))
  /\ (forall s acc, throws_only SyntaxError (JSON.parse_elements fuel s acc)).
Proof.
  induction fuel as [| f (IHv & IHm & IHe)].
  - repeat split; intros; cbn; auto with throws.
  - repeat split.
    + intros s. cbn [JSON.parse_value].
      destruct s as [| c rest]; [auto with throws |].
      destruct (Ascii.eqb c "{").
      { destruct (JSON.skip_ws rest) as [| d rest']; [auto with throws |].
        destruct (Ascii.eqb d "}"); [auto with throws | apply IHm]. }
      destruct (Ascii.eqb c "[").
      { destruct (JSON.skip_ws rest) as [| d rest']; [auto with throws |].
        destruct (Ascii.eqb d "]"); [auto with throws | apply IHe]. }
      destruct (Ascii.eqb c dquote).
      { apply throws_only_rbind; [| auto with throws].
        now apply (parse_string_throws (String.length rest)). }
      destruct (Ascii.eqb c "t"); [apply parse_literal_throws |].
      destruct (Ascii.eqb c "f"); [apply parse_literal_throws |].
      destruct (Ascii.eqb c "n"); [apply parse_literal_throws |].
      apply parse_number_throws.
    + intros s acc. cbn [JSON.parse_members].
      destruct s as [| c rest]; [auto with throws |].
      destruct (Ascii.eqb c dquote); [| auto with throws].
      apply throws_only_rbind.
      { now apply (parse_string_throws (String.length rest)). }
      intros kr. destruct (JSON.skip_ws (snd kr)) as [| colon rest1]; [auto with throws |].
      destruct (Ascii.eqb colon ":"); [| auto with throws].
      apply throws_only_rbind; [apply IHv |].
      intros vr. destruct (JSON.skip_ws (snd vr)) as [| d rest2]; [auto with throws |].
      destruct (Ascii.eqb d ","); [apply IHm |].
      destruct (Ascii.eqb d "}"); auto with throws.
    + intros s acc. cbn [JSON.parse_elements].
      apply throws_only_rbind; [apply IHv |].
      intros vr. destruct (JSON.skip_ws (snd vr)) as [| d rest]; [auto with throws |].
      destruct (Ascii.eqb d ","); [apply IHe |].
      destruct (Ascii.eqb d "]"); auto with throws.
Qed.

Lemma parse_throws (text : string) : throws_only SyntaxError (JSON.parse text).
Proof.
  unfold JSON.parse. apply throws_only_rbind; [apply parse_value_throws |].
  intros vr. destruct (JSON.skip_ws (snd vr)); auto with throws.
Qed.

Lemma pure_error_parseCredentialOfferUrl (offerUrl : value) :
  pure_error (parseCredentialOfferUrl offerUrl).
Proof.
  unfold parseCredentialOfferUrl. apply pure_error_rbind.
  - destruct offerUrl; intros resp; discriminate.
  - intros query.
    destruct (negb (present (params_get (URLSearchParams query) "credential_offer")));
      [intros resp; discriminate |].
    destruct (params_get (URLSearchParams query) "credential_offer") as [raw |];
      [| intros resp; discriminate].
    apply pure_error_rbind.
    + apply (throws_only_pure URIError); [discriminate | apply decodeURIComponent_throws].
    + intros decoded.
      apply (throws_only_pure SyntaxError); [discriminate | apply parse_throws].
Qed.

Lemma pure_error_pick_config (entries : list (string * value)) :
  pure_error (pick_config entries).
Proof.
  assert (Hfirst : pure_error (first_entry entries)).
  { destruct entries; intros resp; discriminate. }
  unfold pick_config. destruct (List.length entries =? 0); [intros resp; discriminate |].
  apply pure_error_rbind.
  - induction entries as [| [id conf] rest IH]; cbn [pick_loop].
    + apply pure_error_ok.
    + apply pure_error_rbind; [apply pure_error_get_prop |].
      intros f. destruct (_ || _); [apply pure_error_ok |].
      apply IH. destruct rest; intros resp; discriminate.
  - intros [[pickedId picked] |]; [| exact Hfirst].
    destruct (negb (truthy (VStr pickedId))); [exact Hfirst | apply pure_error_ok].
Qed.

Lemma pure_error_config_entries (issuerMeta : value) : pure_error (config_entries issuerMeta).
Proof.
  unfold config_entries. apply pure_error_rbind; [apply pure_error_get_prop |].
  intros c. apply pure_error_ok.
Qed.

Lemma pure_error_get_first (v : value) : pure_error (get_first v).
Proof.
  destruct v; cbn [get_first]; try (intros resp; discriminate).
  apply pure_error_get_prop.
Qed.

Lemma pure_error_credential_type (picked : value) : pure_error (credential_type picked).
Proof.
  unfold credential_type. apply pure_error_rbind; [apply pure_error_get_prop |].
  intros t. apply pure_error_rbind; [| intros; apply pure_error_ok].
  destruct (truthy t); [| apply pure_error_ok].
  apply pure_error_rbind; [apply pure_error_get_prop | intros; apply pure_error_get_first].
Qed.

Lemma pure_error_query_of_value (offerUrl : value) : pure_error (query_of_value offerUrl).
Proof. destruct offerUrl; intros resp; discriminate. Qed.

Lemma pure_error_extract_code (offer : value) : pure_error (extract_code offer).
Proof. rewrite extract_code_total. apply pure_error_ok. Qed.

Lemma pure_error_object_keys (v : value) : pure_error (object_keys v).
Proof. unfold object_keys. destruct (nullish v); intros resp; discriminate. Qed.

Lemma pure_error_extract_credential (v : value) : pure_error (extract_credential v).
Proof.
  unfold extract_credential. apply pure_error_rbind; [apply pure_error_get_prop |].
  intros c. destruct (truthy c); [apply pure_error_ok |].
  apply pure_error_rbind; [apply pure_error_get_prop |].
  intros j. destruct (truthy j); [apply pure_error_ok | apply pure_error_get_prop].
Qed.

Lemma pure_error_substring_method (v : value) (from to : nat) :
  pure_error (substring_method v from to).
Proof. destruct v; intros resp; discriminate. Qed.

#[local] Hint Resolve pure_error_ok pure_error_get_prop pure_error_parseCredentialOfferUrl
  pure_error_pick_config pure_error_config_entries pure_error_credential_type
  pure_error_query_of_value pure_error_extract_code pure_error_object_keys
  pure_error_extract_credential pure_error_substring_method : throws.

(** ** The steps of the script, one by one *)

Ltac obeys_step :=
  first
    [ apply obeys_ret
    | apply obeys_sign_jwt; [intros ? | intros ? ?]
    | apply obeys_bind; [| intros ?]
    | apply obeys_emit
    | apply obeys_request; intros ?
    | apply obeys_generateKeyPair; intros ?
    | apply obeys_exportJWK; intros ?
    | apply obeys_random_uuid; intros ?
    | apply obeys_date_now; intros ?
    | apply obeys_to_iso
    | apply obeys_throw; discriminate
    | apply obeys_lift; solve [auto with throws] ].

Ltac obeys_script :=
  unfold console_log, console_warn, console_error, axios_get, axios_post, sleep;
  repeat obeys_step;
  try reflexivity; try exact I.

Lemma quiet_discoverIssuerConfigs : obeys quiet discoverIssuerConfigs.
Proof. unfold discoverIssuerConfigs. obeys_script. Qed.

Lemma quiet_generateEd25519Jwk : obeys quiet generateEd25519Jwk.
Proof. unfold generateEd25519Jwk. obeys_script. Qed.

Lemma quiet_startIssuance (jwk : list (string * value)) (id : string) (credentialType : value) :
  obeys quiet (startIssuance jwk id credentialType).
Proof. unfold startIssuance. obeys_script. Qed.

Lemma quiet_resolveOfferIfUri (offerUrl : value) : obeys quiet (resolveOfferIfUri offerUrl).
Proof.
  unfold resolveOfferIfUri. apply obeys_bind; [obeys_script |]. intros query.
  destruct (present _); [obeys_script |].
  destruct (params_get _ "credential_offer_uri") as [offerUri |]; [| obeys_script].
  destruct (String.eqb offerUri EmptyString); [obeys_script |].
  unfold fetchCredentialOfferWithRetry.
  apply (obeys_fetch_loop quiet offerUri); [intros reply |]; reflexivity.
Qed.

Lemma quiet_main_prepare : obeys quiet main_prepare.
Proof.
  unfold main_prepare.
  pose proof quiet_discoverIssuerConfigs. pose proof quiet_generateEd25519Jwk.
  pose proof quiet_startIssuance. pose proof quiet_resolveOfferIfUri.
  unfold console_log.
  repeat first [ assumption | match goal with H : _ |- _ => apply H end | obeys_step ];
    reflexivity.
Qed.

Lemma obeys_run {A : Type} (P : event -> Prop) (m : M A) :
  obeys P m -> forall env tr, exists r evs, m env tr = (r, tr ++ evs) /\ Forall P evs.
Proof.
  intros Hm env tr. destruct (m env tr) as [r tr'] eqn:E.
  destruct (Hm _ _ _ _ E) as (evs & -> & F & _). now exists r, evs.
Qed.

(** ** C2: an offer without a code *)

Lemma main_redeem_no_code (pickedId : string) (holderKey : keypair) (offer : value)
    (env : environment) (tr : list event) :
  truthy (code_of offer) = false ->
  main_redeem pickedId holderKey offer env tr = (Throw CODE_NOT_FOUND, tr).
Proof.
  intros Hc. unfold main_redeem, bind, lift. rewrite extract_code_total, Hc. reflexivity.
Qed.

(** C2: for every resolved offer whose grants contain neither an
    [issuer_state] under [authorization_code] nor a pre-authorized code under
    the current or the legacy grant-type key, the script throws the
    code-not-found error as soon as the offer is resolved, the process ends
    with code 1, and nothing it did is a request to the token endpoint. *)
Theorem no_code_aborts_before_token_request
    (env : environment) (tr : list event)
    (pickedId : string) (credentialType : value) (holderKey : keypair) (offer : value)
    (tr1 : list event) :
  main_prepare env tr = (Ok (pickedId, credentialType, holderKey, offer), tr1) ->
  issuer_state_of offer = VUndefined ->
  no_code_under offer PRE_AUTHORIZED_GRANT ->
  no_code_under offer "pre-authorized_code" ->
  main_redeem pickedId holderKey offer env tr1 = (Throw CODE_NOT_FOUND, tr1)
  /\ exists evs,
       main env tr = (Ok 1%Z, tr ++ evs ++ [ERROR_BANNER; Console Err [AErr CODE_NOT_FOUND]])
       /\ tr1 = tr ++ evs
       /\ Forall quiet (evs ++ [ERROR_BANNER; Console Err [AErr CODE_NOT_FOUND]]).
Proof.
  intros Hprep Hs Hc Hl.
  pose proof (code_of_absent offer Hs Hc Hl) as Hcode.
  pose proof (main_redeem_no_code pickedId holderKey offer env tr1 Hcode) as Hredeem.
  split; [exact Hredeem |].
  destruct (quiet_main_prepare _ _ _ _ Hprep) as (evs & -> & F & _).
  exists evs. repeat split.
  - unfold main, try_catch, main_try. unfold bind at 1. unfold bind at 1.
    rewrite Hprep. unfold bind at 1. rewrite Hredeem.
    unfold main_catch. cbn. now rewrite <- !app_assoc.
  - apply Forall_app. split; [exact F |]. repeat constructor.
Qed.

Definition no_code_environment : environment :=
  mock_environment (inline_offer offer_without_grants)
    (Resolved token_with_nonce) (Resolved credential_reply).

Lemma no_code_aborts_before_token_request_witness :
  exists evs,
    main no_code_environment []
    = (Ok 1%Z, [] ++ evs ++ [ERROR_BANNER; Console Err [AErr CODE_NOT_FOUND]])
    /\ snd (main_prepare no_code_environment []) = [] ++ evs
    /\ Forall quiet (evs ++ [ERROR_BANNER; Console Err [AErr CODE_NOT_FOUND]]).
Proof.
  apply (no_code_aborts_before_token_request no_code_environment []
           "university-degree-jwt" (VStr "VerifiableId")
           holder offer_without_grants
           (snd (main_prepare no_code_environment []))).
  - vm_compute. reflexivity.
  - reflexivity.
  - split; reflexivity.
  - split; reflexivity.
Defined.

(** ** C10: which code is exchanged *)

Lemma always_requestCredential (accessToken : value) (id : string) (tokenResponse : value)
    (holderKey : keypair) :
  obeys (fun _ => True) (requestCredential accessToken id tokenResponse holderKey).
Proof.
  unfold requestCredential. apply obeys_bind; [obeys_script |]. intros _.
  apply obeys_bind; [obeys_script |]. intros c_nonce.
  apply obeys_bind.
  - destruct (truthy c_nonce); [| obeys_script].
    unfold createProofOfPossession. obeys_script.
  - intros payload. obeys_script.
Qed.





(** ** C3, C4, C9: the proof of possession *)

Ltac run :=
  cbv [bind emit lift ret throw request date_now exportJWK sign_jwt sign_compact setIssuedAt
       proof_claims generateKeyPair random_uuid to_iso].

Lemma request_run (req : http_request) (env : environment) (tr : list event) :
  request req env tr
  = (outcome (server env tr req), tr ++ [Http req (server env tr req)]).
Proof. reflexivity. Qed.

Lemma get_prop_ok_field (v : value) (name : string) (x : value) :
  get_prop v name = Ok x -> x = field v name /\ nullish v = false.
Proof.
  destruct v; cbn; try discriminate; try (intros H; injection H as <-; now split).
  destruct (lookup name props); intros H; injection H as <-; now split.
Qed.






Lemma generateKeyPair_run (alg : string) (env : environment) (tr : list event) :
  generateKeyPair alg env tr
  = (match keygen env tr alg with Some kp => Ok kp | None => Throw JoseError end,
     tr ++ [KeyPairGenerated alg (keygen env tr alg)]).
Proof. reflexivity. Qed.

Lemma exportJWK_run (key : nat) (env : environment) (tr : list event) :
  exportJWK key env tr
  = (match jwk_of env tr key with Some jwk => Ok jwk | None => Throw JoseError end,
     tr ++ [JwkExported key (jwk_of env tr key)]).
Proof. reflexivity. Qed.

Lemma sign_jwt_run (members : list (string * value)) (header : value) (key : nat)
    (env : environment) (tr : list event) :
  sign_jwt (VObj members) header key env tr
  = (match signer env (tr ++ [Clock (now env tr)])
             (VObj (define_prop members "iat" (VNum (now env tr / 1000)))) header key with
     | Some jwt => Ok jwt
     | None => Throw JoseError
     end,
     (tr ++ [Clock (now env tr)])
     ++ [JwtSigned (VObj (define_prop members "iat" (VNum (now env tr / 1000)))) header key
           (signer env (tr ++ [Clock (now env tr)])
              (VObj (define_prop members "iat" (VNum (now env tr / 1000)))) header key)]).
Proof. reflexivity. Qed.

Ltac in_events H :=
  cbn [In app] in H;
  repeat (destruct H as [H | H]; [try discriminate H |]);
  try contradiction.

Ltac member := cbn [In app]; repeat first [left; reflexivity | right].


(** A run in which the proof is built, with a clock that moves: the
    claims are written at one reading of the clock and signed with the
    [iat] of a later one, and the [nonce] is the [c_nonce] of the token
    response. *)
Example proof_built_over_nonce :
  requestCredential (VStr "tok1") "university-degree-jwt" token_with_nonce holder
    ticking_environment []
  = (Ok credential_reply,
     [Console Log [str "  -> Requesting credential..."];
      Console Log [str "  -> Adding proof of possession (c_nonce present)"];
      Console Log [str "  -> c_nonce value:"; AVal (VStr "n1")];
      Console Log [str "  -> Creating proof of possession JWT..."];
      Clock 1700000004123;
      JwkExported (publicKey holder) (Some [("kty", VStr "OKP"); ("crv", VStr "Ed25519")]);
      Clock 1700000006123;
      JwtSigned
        (VObj [("aud", VStr "http://localhost:7002/draft13");
               ("iat", VNum 1700000006);
               ("nonce", VStr "n1")])
        (proof_header [("kty", VStr "OKP"); ("crv", VStr "Ed25519")])
        (privateKey holder) (Some "eyJhbGciOiJFZERTQSJ9.e30.c2ln");
      Console Log [str "  -> Generated proof JWT (first 100 chars):";
                   str "eyJhbGciOiJFZERTQSJ9.e30.c2ln"];
      Console Log
        [str "  -> Final payload:";
         pretty (VObj (base_payload "university-degree-jwt"
                       ++ [("proof", proof_field "eyJhbGciOiJFZERTQSJ9.e30.c2ln")]))];
      Http (credential_request (VStr "tok1")
              (VObj (base_payload "university-degree-jwt"
                     ++ [("proof", proof_field "eyJhbGciOiJFZERTQSJ9.e30.c2ln")])))
        (Resolved credential_reply)]).
Proof. vm_compute. reflexivity. Qed.

(** ** C6: the credential in the response *)

Lemma extract_credential_total (credentialResp : value) :
  nullish credentialResp = false ->
  extract_credential credentialResp
  = Ok (js_or (field credentialResp "credential")
          (js_or (field credentialResp "jwt") (field credentialResp "vc"))).
Proof.
  intros Hn. unfold extract_credential, js_or.
  rewrite (get_prop_field credentialResp "credential" Hn). cbn [rbind].
  destruct (truthy (field credentialResp "credential")); [reflexivity |].
  rewrite (get_prop_field credentialResp "jwt" Hn). cbn [rbind].
  destruct (truthy (field credentialResp "jwt")); [reflexivity |].
  now rewrite (get_prop_field credentialResp "vc" Hn).
Qed.

Lemma main_finish_warns (credentialType credentialResp : value)
    (env : environment) (tr : list event) :
  nullish credentialResp = false ->
  truthy (js_or (field credentialResp "credential")
            (js_or (field credentialResp "jwt") (field credentialResp "vc"))) = false ->
  exists reply,
    main_finish credentialType credentialResp env tr
    = (finished reply, tr ++ warned_finish credentialType credentialResp reply).
Proof.
  intros Hn Hfalsy.
  unfold main_finish, startVerification, console_log, console_warn, axios_post, object_keys.
  rewrite Hn, (extract_credential_total _ Hn). run. rewrite Hfalsy. cbn [negb].
  fold (keys_of credentialResp). fold (verify_request credentialType).
  match goal with |- context [server env ?t ?r] => exists (server env t r) end.
  destruct (server env _ _); unfold warned_finish, finished;
    rewrite <- !app_assoc; reflexivity.
Qed.

Lemma main_steps (env : environment) (tr : list event)
    (pickedId : string) (credentialType : value) (holderKey : keypair) (offer : value)
    (tr1 : list event) (credentialResp : value) (tr2 : list event) :
  main_prepare env tr = (Ok (pickedId, credentialType, holderKey, offer), tr1) ->
  main_redeem pickedId holderKey offer env tr1 = (Ok credentialResp, tr2) ->
  main_try env tr = main_finish credentialType credentialResp env tr2.
Proof.
  intros Hprep Hredeem. unfold main_try. unfold bind at 1. rewrite Hprep.
  unfold bind at 1. now rewrite Hredeem.
Qed.

(** C6, as stated, fails: the credential response [null] has none of the
    three fields, and the run neither warns nor goes on to the verification
    step: reading the keys of the response throws a [TypeError], and the
    process ends with code 1. *)
Lemma null_response_not_warned :
  fst (main_redeem "university-degree-jwt" holder offer_pre_authorized
         null_credential_environment null_credential_prepared)
  = Ok VNull
  /\ field VNull "credential" = VUndefined
  /\ field VNull "jwt" = VUndefined
  /\ field VNull "vc" = VUndefined
  /\ fst (main null_credential_environment []) = Ok 1%Z
  /\ (forall args, ~ In (Console Warn args) (snd (main null_credential_environment [])))
  /\ ~ In ("POST " ++ VERIFY_URL)%string (targets (snd (main null_credential_environment [])))
  /\ In (Console Err [AErr (TypeError "Cannot convert undefined or null to object")])
        (snd (main null_credential_environment [])).
Proof.
  split; [vm_compute; reflexivity |].
  split; [reflexivity |]. split; [reflexivity |]. split; [reflexivity |].
  split; [vm_compute; reflexivity |].
  split; [| split].
  - intros args H. vm_compute in H.
    repeat (destruct H as [H | H]; [discriminate H |]). exact H.
  - intros H. vm_compute in H.
    repeat (destruct H as [H | H]; [discriminate H |]). exact H.
  - vm_compute. tauto.
Qed.

(** C6, amended: whenever one of [credential], [jwt], [vc] is populated
    (holds a truthy value), extraction returns a populated one of the
    three, the first in that order, whatever the other two hold.  When the
    credential response is not [null] or [undefined] and none of the three
    is populated, the run warns, goes on to the verification request, and
    the process ends with code 0 if that request is answered.  When the
    credential response is [null] or [undefined], the run fails: reading
    its keys throws a [TypeError], nothing more is logged or requested, and
    the process ends with code 1. *)
Theorem credential_probed_absence_warned
    (env : environment) (tr : list event)
    (pickedId : string) (credentialType : value) (holderKey : keypair) (offer : value)
    (tr1 : list event) (credentialResp : value) (tr2 : list event) :
  main_prepare env tr = (Ok (pickedId, credentialType, holderKey, offer), tr1) ->
  main_redeem pickedId holderKey offer env tr1 = (Ok credentialResp, tr2) ->
  (forall response,
     populated response "credential" \/ populated response "jwt"
     \/ populated response "vc" ->
     exists v,
       extract_credential response = Ok v
       /\ truthy v = true
       /\ ((v = field response "credential")
           \/ (populated response "credential" -> False) /\ v = field response "jwt"
           \/ (populated response "credential" -> False)
              /\ (populated response "jwt" -> False) /\ v = field response "vc"))
  /\ (nullish credentialResp = false ->
      (populated credentialResp "credential" -> False) ->
      (populated credentialResp "jwt" -> False) ->
      (populated credentialResp "vc" -> False) ->
      exists reply,
        main_finish credentialType credentialResp env tr2
        = (finished reply, tr2 ++ warned_finish credentialType credentialResp reply)
        /\ (forall verifySession, reply = Resolved verifySession ->
            main env tr
            = (Ok 0%Z, tr2 ++ warned_finish credentialType credentialResp reply)))
  /\ (nullish credentialResp = true ->
      exists message,
        main env tr
        = (Ok 1%Z, tr2 ++ [ERROR_BANNER; Console Err [AErr (TypeError message)]])).
Proof.
  intros Hprep Hredeem. split; [| split].
  - intros response Hpop.
    assert (Hn : nullish response = false).
    { destruct Hpop as [H | [H | H]]; exact (field_truthy_object _ _ H). }
    rewrite (extract_credential_total _ Hn). unfold populated in *. unfold js_or.
    destruct (truthy (field response "credential")) eqn:Hc.
    + eexists. split; [reflexivity |]. split; [exact Hc | now left].
    + destruct (truthy (field response "jwt")) eqn:Hj.
      * eexists. split; [reflexivity |]. split; [exact Hj |].
        right. left. split; [discriminate | reflexivity].
      * destruct Hpop as [H | [H | H]]; try discriminate.
        eexists. split; [reflexivity |]. split; [exact H |].
        right. right. repeat split; discriminate.
  - intros Hn Hc Hj Hv. unfold populated in Hc, Hj, Hv.
    destruct (main_finish_warns credentialType credentialResp env tr2 Hn) as [reply Hfin].
    { unfold js_or.
      destruct (truthy (field credentialResp "credential")); [now contradiction Hc |].
      destruct (truthy (field credentialResp "jwt")); [now contradiction Hj |].
      destruct (truthy (field credentialResp "vc")); [now contradiction Hv | reflexivity]. }
    exists reply. split; [exact Hfin |].
    intros verifySession ->.
    unfold main, try_catch. unfold bind at 1.
    now rewrite (main_steps _ _ _ _ _ _ _ _ _ Hprep Hredeem), Hfin.
  - intros Hn. exists "Cannot convert undefined or null to object".
    unfold main, try_catch. unfold bind at 1.
    rewrite (main_steps _ _ _ _ _ _ _ _ _ Hprep Hredeem).
    unfold main_finish, object_keys. rewrite Hn.
    unfold bind at 1. unfold lift at 1. cbv beta iota.
    unfold main_catch, response_of, console_log, console_error, ERROR_BANNER.
    run. now rewrite <- app_assoc.
Qed.

Lemma credential_probed_absence_warned_witness :
  (exists v,
     extract_credential jwt_only_reply = Ok v
     /\ truthy v = true
     /\ ((v = field jwt_only_reply "credential")
         \/ (populated jwt_only_reply "credential" -> False)
            /\ v = field jwt_only_reply "jwt"
         \/ (populated jwt_only_reply "credential" -> False)
            /\ (populated jwt_only_reply "jwt" -> False)
            /\ v = field jwt_only_reply "vc"))
  /\ (exists reply,
        main_finish (VStr "VerifiableId") empty_credential_reply warned_environment
          warned_redeemed
        = (finished reply,
           warned_redeemed
           ++ warned_finish (VStr "VerifiableId") empty_credential_reply reply)
        /\ (forall verifySession, reply = Resolved verifySession ->
            main warned_environment []
            = (Ok 0%Z,
               warned_redeemed
               ++ warned_finish (VStr "VerifiableId") empty_credential_reply reply))).
Proof.
  assert (Hprep : main_prepare warned_environment []
                  = (Ok ("university-degree-jwt", VStr "VerifiableId", holder,
                         offer_pre_authorized), warned_prepared))
    by (vm_compute; reflexivity).
  assert (Hredeem : main_redeem "university-degree-jwt" holder offer_pre_authorized
                      warned_environment warned_prepared
                    = (Ok empty_credential_reply, warned_redeemed))
    by (vm_compute; reflexivity).
  destruct (credential_probed_absence_warned warned_environment []
              "university-degree-jwt" (VStr "VerifiableId") holder offer_pre_authorized
              warned_prepared empty_credential_reply warned_redeemed Hprep Hredeem)
    as (Hextract & Hwarn & _).
  split.
  - apply Hextract. right. left. reflexivity.
  - apply Hwarn; [reflexivity | discriminate | discriminate | discriminate].
Defined.

(** The scenario of the witness, run to its end: the warning is there and
    the process ends with code 0. *)
Example warned_run_exit_code :
  fst (main warned_environment []) = Ok 0%Z
  /\ In (Console Warn [str "Could not find credential JWT in response:";
                       AVal empty_credential_reply])
        (snd (main warned_environment [])).
Proof. split; [vm_compute; reflexivity |]. vm_compute. tauto. Qed.

(** One populated field out of three is enough, and an empty one before it
    is passed over. *)
Example jwt_only_extracted :
  extract_credential jwt_only_reply = Ok (VStr "eyJhbGciOiJFZERTQSJ9.e30.c2ln").
Proof. reflexivity. Qed.

(** ** C7: offer resolution *)

Lemma fetch_loop_step (offerUri : string) (attempts : nat) (delayMs : Z) (i todo : nat) :
  fetch_loop offerUri attempts delayMs i (S todo)
  = try_catch (axios_get offerUri)
      (fun e =>
         if i =? attempts - 1 then throw e
         else bind (sleep delayMs)
                (fun _ => fetch_loop offerUri attempts delayMs (S i) todo)).
Proof. reflexivity. Qed.

Lemma fetch_loop_run (offerUri : string) (attempts : nat) (delayMs : Z) (todo : nat) :
  forall i env tr,
    i + S todo = attempts ->
    exists failures last,
      fetch_loop offerUri attempts delayMs i (S todo) env tr
      = (outcome last, tr ++ retry_events delayMs offerUri failures ++ [Http (GET offerUri) last])
      /\ List.length failures <= todo
      /\ (forall response, last = Rejected response -> List.length failures = todo).
Proof.
  induction todo as [| todo IH]; intros i env tr Hi.
  - exists [], (server env tr (GET offerUri)). rewrite fetch_loop_step.
    unfold try_catch, axios_get. rewrite request_run.
    replace (i =? attempts - 1) with true by (symmetry; apply Nat.eqb_eq; lia).
    repeat split; [| reflexivity].
    destruct (server env tr (GET offerUri)); reflexivity.
  - rewrite fetch_loop_step. unfold try_catch, axios_get. rewrite request_run.
    destruct (server env tr (GET offerUri)) as [data | response] eqn:Hs.
    + exists [], (Resolved data). cbn. repeat split; [lia | discriminate].
    + cbn [outcome].
      replace (i =? attempts - 1) with false by (symmetry; apply Nat.eqb_neq; lia).
      unfold sleep. run.
      destruct (IH (S i) env ((tr ++ [Http (GET offerUri) (Rejected response)])
                              ++ [Timeout delayMs]))
        as (failures & last & Hrun & Hlen & Hlast); [lia |].
      exists (response :: failures), last. repeat split.
      * rewrite Hrun. cbn [retry_events flat_map]. fold (retry_events delayMs offerUri failures).
        now rewrite <- !app_assoc.
      * cbn [List.length]. lia.
      * intros response' Hr. cbn [List.length]. now rewrite (Hlast _ Hr).
Qed.

Lemma inline_failure_not_resolution_error (offerUrl : string) (e : exn) :
  carries_value offerUrl "credential_offer" = true ->
  parseCredentialOfferUrl (VStr offerUrl) = Throw e ->
  e = URIError \/ e = SyntaxError.
Proof.
  unfold carries_value, offer_params, parseCredentialOfferUrl. cbn [query_of_value rbind].
  intros Hp. rewrite Hp. cbn [negb].
  destruct (params_get _ "credential_offer") as [raw |]; [| discriminate].
  intros H. destruct (decodeURIComponent raw) as [decoded | e' |] eqn:Hd; cbn [rbind] in H.
  - right. now apply (parse_throws decoded).
  - left. injection H as <-. now apply (decodeURIComponent_throws raw).
  - discriminate.
Qed.

Lemma retry_events_last (delayMs : Z) (u u' : string)
    (failures failures' : list (option (Z * value))) (last last' : http_reply) :
  retry_events delayMs u failures ++ [Http (GET u) last]
  = retry_events delayMs u' failures' ++ [Http (GET u') last'] ->
  last = last'.
Proof.
  intros H. apply app_inj_tail in H. destruct H as [_ H]. now injection H.
Qed.

(** C7, as stated, fails: [EMPTY_OFFER_URL] carries a [credential_offer]
    parameter, no retrieval is attempted, and the resolution still fails
    with the missing-offer error. *)
Lemma empty_offer_parameter_rejected :
  carries EMPTY_OFFER_URL "credential_offer"
  /\ resolveOfferIfUri (VStr EMPTY_OFFER_URL) no_code_environment [] = (Throw NO_OFFER, []).
Proof. split; [discriminate | reflexivity]. Qed.

(** C7, amended: resolving an offer URL goes one of four ways.  With a
    non-empty [credential_offer] the inline offer is decoded and parsed and
    nothing is retrieved.  With neither a non-empty [credential_offer] nor a
    non-empty [credential_offer_uri] it fails with the missing-offer error.
    Otherwise the URI is retrieved at most 5 times, 500 ms after each
    rejected attempt but the last; the first answer is returned, and after
    5 rejections the error of the last attempt is thrown.  So the
    resolution fails with an offer-resolution error exactly when the URL has
    neither parameter with a non-empty value or all 5 attempts were
    rejected; an inline offer that does not decode or parse fails with
    [URIError] or [SyntaxError], which are not offer-resolution errors. *)
Theorem offer_resolution_bounded_retry
    (env : environment) (tr : list event) (offerUrl : string) :
  exists r evs,
    resolveOfferIfUri (VStr offerUrl) env tr = (r, tr ++ evs)
    /\ resolution offerUrl r evs
    /\ ((exists e, r = Throw e /\ offer_resolution_error e)
        <-> (no_offer_param offerUrl \/ exhausted offerUrl evs))
    /\ (carries_value offerUrl "credential_offer" = true ->
        forall e, r = Throw e -> e = URIError \/ e = SyntaxError).
Proof.
  unfold resolveOfferIfUri. cbn [query_of_value]. run.
  fold (offer_params offerUrl). fold (carries_value offerUrl "credential_offer").
  destruct (carries_value offerUrl "credential_offer") eqn:Hinline.
  - (* the inline offer *)
    exists (parseCredentialOfferUrl (VStr offerUrl)), [].
    rewrite app_nil_r. repeat split.
    + now constructor.
    + intros (e & He & Hore).
      destruct (inline_failure_not_resolution_error _ _ Hinline He) as [-> | ->];
        destruct Hore as [H | [response H]]; discriminate.
    + intros [[H _] | [H _]]; congruence.
    + intros _ e He. exact (inline_failure_not_resolution_error _ _ Hinline He).
  - destruct (params_get (offer_params offerUrl) "credential_offer_uri") as [offerUri |] eqn:Huri.
    + destruct (String.eqb offerUri EmptyString) eqn:Hempty.
      * (* an empty credential_offer_uri *)
        apply String.eqb_eq in Hempty. subst offerUri.
        exists (Throw NO_OFFER), []. rewrite app_nil_r.
        assert (Hnone : no_offer_param offerUrl).
        { split; [exact Hinline |]. unfold carries_value. now rewrite Huri. }
        repeat split.
        -- now constructor.
        -- now left.
        -- intros _. exists NO_OFFER. split; [reflexivity | now left].
        -- discriminate.
      * (* the retrieval *)
        apply String.eqb_neq in Hempty.
        destruct (fetch_loop_run offerUri DEFAULT_ATTEMPTS DEFAULT_DELAY_MS 4 0 env tr eq_refl)
          as (failures & last & Hrun & Hlen & Hlast).
        unfold fetchCredentialOfferWithRetry.
        change DEFAULT_ATTEMPTS with 5 at 2. rewrite Hrun.
        do 2 eexists. split; [reflexivity |].
        assert (Hnot : ~ no_offer_param offerUrl).
        { intros [_ H]. unfold carries_value in H. rewrite Huri in H. cbn in H.
          apply negb_false_iff, String.eqb_eq in H. contradiction. }
        destruct last as [data | response]; cbn [outcome].
        -- split; [apply resolution_fetched; try assumption; unfold DEFAULT_ATTEMPTS; lia |].
           split; [split |].
           ++ intros (e & He & _). discriminate.
           ++ intros [H | (_ & u & failures' & response & _ & _ & H)]; [contradiction |].
              apply retry_events_last in H. discriminate.
           ++ discriminate.
        -- specialize (Hlast _ eq_refl).
           split; [apply resolution_exhausted; assumption |].
           split; [split |].
           ++ intros _. right. split; [exact Hinline |].
              now exists offerUri, failures, response.
           ++ intros _. exists (AxiosError response). split; [reflexivity |].
              right. now exists response.
           ++ discriminate.
    + (* neither parameter *)
      exists (Throw NO_OFFER), []. rewrite app_nil_r.
      assert (Hnone : no_offer_param offerUrl).
      { split; [exact Hinline |]. unfold carries_value. now rewrite Huri. }
      repeat split.
      * now constructor.
      * now left.
      * intros _. exists NO_OFFER. split; [reflexivity | now left].
      * discriminate.
Qed.

(** An inline offer that does not parse: the resolution fails too, with the
    parser's error, which is none of the two offer-resolution errors. *)
Example malformed_inline_offer :
  resolveOfferIfUri (VStr MALFORMED_OFFER_URL) no_code_environment []
  = (Throw SyntaxError, []).
Proof. reflexivity. Qed.

(** ** C8: the process boundary *)

Lemma always_main_redeem (pickedId : string) (holderKey : keypair) (offer : value) :
  obeys (fun _ => True) (main_redeem pickedId holderKey offer).
Proof.
  unfold main_redeem. apply obeys_bind; [obeys_script |]. intros code.
  destruct (negb (truthy code)); [unfold CODE_NOT_FOUND; obeys_script |].
  pose proof always_requestCredential.
  unfold exchangePreAuthorizedCode, console_log, axios_post.
  repeat first [ match goal with H : _ |- _ => apply H end | obeys_step ]; exact I.
Qed.

Lemma always_main_finish (credentialType credentialResp : value) :
  obeys (fun _ => True) (main_finish credentialType credentialResp).
Proof.
  unfold main_finish, startVerification.
  apply obeys_bind; [obeys_script |]. intros keys.
  apply obeys_bind; [obeys_script |]. intros _.
  apply obeys_bind; [obeys_script |]. intros credentialJwt.
  apply obeys_bind; [| intros _; obeys_script].
  destruct (negb (truthy credentialJwt)); obeys_script.
Qed.

Lemma always_main_try : obeys (fun _ => True) main_try.
Proof.
  unfold main_try. apply obeys_bind.
  - apply (obeys_weaken quiet); [trivial | apply quiet_main_prepare].
  - intros [[[pickedId credentialType] holderKey] offer].
    apply obeys_bind; [apply always_main_redeem | intros; apply always_main_finish].
Qed.

Lemma main_catch_run (e : exn) (env : environment) (tr : list event) :
  main_catch e env tr = (Ok 1%Z, tr ++ [ERROR_BANNER; error_report e]).
Proof.
  unfold main_catch, error_report, console_log, console_error. run.
  destruct (response_of e) as [[status data] |]; now rewrite <- app_assoc.
Qed.

Lemma main_run (env : environment) (tr : list event) :
  main env tr
  = match main_try env tr with
    | (Ok _, tr') => (Ok 0%Z, tr')
    | (Throw e, tr') => main_catch e env tr'
    | (Unsupported, tr') => (Unsupported, tr')
    end.
Proof.
  unfold main, try_catch, bind.
  destruct (main_try env tr) as [[[] | e |] tr']; reflexivity.
Qed.

(** C8: whatever the environment, the process ends with code 0 when the
    [try] block runs to its end and with code 1 when any step throws; the
    error is then reported after the banner, and an error that carries an
    HTTP response is reported by the status and the body of that response,
    which are those of the rejected request that is the last thing the run
    did before. *)
Theorem exit_code_and_report (env : environment) (tr : list event) :
  exists r evs,
    main_try env tr = (r, tr ++ evs)
    /\ match r with
       | Ok _ => main env tr = (Ok 0%Z, tr ++ evs)
       | Throw e =>
           main env tr = (Ok 1%Z, tr ++ evs ++ [ERROR_BANNER; error_report e])
           /\ forall status data,
                response_of e = Some (status, data) ->
                error_report e
                = Console Err [str "HTTP Error:"; AVal (VNum status); AVal data]
                /\ exists evs0 req,
                     evs = evs0 ++ [Http req (Rejected (Some (status, data)))]
       | Unsupported => main env tr = (Unsupported, tr ++ evs)
       end.
Proof.
  destruct (main_try env tr) as [r tr'] eqn:Hrun.
  destruct (always_main_try _ _ _ _ Hrun) as (evs & -> & _ & Hlast).
  exists r, evs. split; [reflexivity |].
  rewrite main_run, Hrun.
  destruct r as [[] | e |].
  - reflexivity.
  - split.
    + now rewrite main_catch_run, <- app_assoc.
    + intros status data Hresp. split.
      * unfold error_report. now rewrite Hresp.
      * destruct e; try discriminate. cbn in Hresp. subst response.
        now apply Hlast.
  - reflexivity.
Qed.

(** ** C1: the round trip of an offer *)

(** The round trip on the offer of the end-to-end scenario. *)
Example round_trip_pre_authorized : round_trip offer_pre_authorized = Ok offer_pre_authorized.
Proof. vm_compute. reflexivity. Qed.

(** C1 fails on offers with a percent sign in a string: the parameter comes
    out of [URLSearchParams] already decoded, and [decodeURIComponent]
    decodes it a second time.  An escape in the offer is decoded away, and a
    lone percent sign makes the parser throw; the three parsers
    ([parseCredentialOfferUrl], [resolveOfferIfUri], [parseCredentialOffer])
    agree. *)
Theorem percent_not_round_tripped :
  round_trip offer_with_escape = Ok offer_escape_decoded
  /\ offer_escape_decoded <> offer_with_escape
  /\ round_trip offer_with_percent = Throw URIError
  /\ (forall url, encode_offer_url offer_with_escape = Some url ->
        resolveOfferIfUri (VStr url) no_code_environment [] = (Ok offer_escape_decoded, [])
        /\ parseCredentialOffer (VStr url) no_code_environment []
           = (Ok offer_escape_decoded, [])).
Proof.
  split; [vm_compute; reflexivity |].
  split; [discriminate |].
  split; [vm_compute; reflexivity |].
  intros url H. vm_compute in H. injection H as <-.
  split; vm_compute; reflexivity.
Qed.

(** ** The parameter layer of the round trip

    What [URLSearchParams] hands back for a parameter written by
    [encodeURIComponent] is the text that was encoded: the first decoding
    is already the inverse of the encoding. *)

Lemma all_chars_impl (p q : ascii -> bool) (s : string) :
  (forall c, p c = true -> q c = true) -> all_chars p s = true -> all_chars q s = true.
Proof.
  intros Hpq. induction s as [| c rest IH]; cbn; [reflexivity |].
  intros H. apply andb_true_iff in H. destruct H as [Hc Hr].
  apply andb_true_iff. split; [now apply Hpq | now apply IH].
Qed.

Lemma all_chars_app (p : ascii -> bool) (s t : string) :
  all_chars p (s ++ t) = all_chars p s && all_chars p t.
Proof.
  induction s as [| c rest IH]; cbn; [reflexivity |]. now rewrite IH, andb_assoc.
Qed.

Lemma split_on_none (sep : ascii) (s : string) :
  all_chars (not_char sep) s = true -> split_on sep s = [s].
Proof.
  induction s as [| c rest IH]; cbn; [reflexivity |].
  intros H. apply andb_true_iff in H. destruct H as [Hc Hr].
  unfold not_char in Hc. apply negb_true_iff in Hc. rewrite Hc, (IH Hr). reflexivity.
Qed.

Lemma hex_upper_val (d : nat) : d < 16 -> hex_val (hex_upper d) = Some d.
Proof. intros H. do 16 (destruct d as [| d]; [reflexivity |]). lia. Qed.

Lemma hex_upper_unreserved (d : nat) : d < 16 -> unreserved (hex_upper d) = true.
Proof. intros H. do 16 (destruct d as [| d]; [reflexivity |]). lia. Qed.

Lemma unreserved_neq (c sep : ascii) :
  unreserved c = true -> unreserved sep = false -> Ascii.eqb c sep = false.
Proof.
  intros Hc Hs. destruct (Ascii.eqb_spec c sep) as [-> |]; [congruence | reflexivity].
Qed.

Lemma high_nibble (c : ascii) : nat_of_ascii c / 16 < 16.
Proof.
  pose proof (nat_ascii_bounded c). apply Nat.Div0.div_lt_upper_bound. lia.
Qed.

Lemma low_nibble (c : ascii) : nat_of_ascii c mod 16 < 16.
Proof. apply Nat.mod_upper_bound. discriminate. Qed.

Lemma encodeURIComponent_chars (s : string) :
  all_chars uri_char (encodeURIComponent s) = true.
Proof.
  induction s as [| c rest IH]; cbn [encodeURIComponent]; [reflexivity |].
  destruct (unreserved c) eqn:Hc; cbn [all_chars].
  - unfold uri_char at 1. now rewrite Hc, IH.
  - unfold uri_char at 1 2 3.
    rewrite (hex_upper_unreserved _ (high_nibble c)), (hex_upper_unreserved _ (low_nibble c)).
    now rewrite IH.
Qed.

Lemma uri_char_not (sep : ascii) (c : ascii) :
  uri_char sep = false -> uri_char c = true -> not_char sep c = true.
Proof.
  intros Hs Hc. unfold not_char.
  destruct (Ascii.eqb_spec c sep) as [-> |]; [congruence | reflexivity].
Qed.

Lemma encodeURIComponent_without (sep : ascii) (s : string) :
  uri_char sep = false -> all_chars (not_char sep) (encodeURIComponent s) = true.
Proof.
  intros Hs. apply (all_chars_impl uri_char); [| apply encodeURIComponent_chars].
  intros c. now apply uri_char_not.
Qed.

Lemma percent_decode_encode (s : string) :
  percent_decode (plus_to_space (encodeURIComponent s)) = s.
Proof.
  induction s as [| c rest IH]; cbn [encodeURIComponent]; [reflexivity |].
  destruct (unreserved c) eqn:Hc; cbn [plus_to_space].
  - rewrite (unreserved_neq c "+" Hc eq_refl). cbn [percent_decode].
    rewrite (unreserved_neq c "%" Hc eq_refl). now rewrite IH.
  - rewrite (unreserved_neq _ "+" (hex_upper_unreserved _ (high_nibble c)) eq_refl).
    rewrite (unreserved_neq _ "+" (hex_upper_unreserved _ (low_nibble c)) eq_refl).
    cbn [percent_decode Ascii.eqb Bool.eqb].
    rewrite (hex_upper_val _ (high_nibble c)), (hex_upper_val _ (low_nibble c)).
    rewrite IH. f_equal.
    rewrite <- (Nat.div_mod_eq (nat_of_ascii c) 16). apply ascii_nat_embedding.
Qed.

Lemma utf8_decode_ascii (s : string) :
  all_chars is_ascii s = true -> utf8_decode s EmptyString 0 128 191 = s.
Proof.
  induction s as [| c rest IH]; cbn [utf8_decode all_chars]; [reflexivity |].
  intros H. apply andb_true_iff in H. destruct H as [Hc Hr].
  unfold is_ascii in Hc. cbn [Nat.eqb]. rewrite Hc. now rewrite (IH Hr).
Qed.

Lemma form_decode_encode (s : string) :
  all_chars is_ascii s = true -> form_decode (encodeURIComponent s) = s.
Proof.
  intros H. unfold form_decode. rewrite percent_decode_encode. now apply utf8_decode_ascii.
Qed.

(** The parameter as [URLSearchParams] returns it. *)
Lemma inline_parameter_decoded (json : string) :
  all_chars is_ascii json = true ->
  params_get
    (offer_params (OFFER_PREFIX ++ "?credential_offer=" ++ encodeURIComponent json))
    "credential_offer"
  = Some json.
Proof.
  intros Hascii. unfold offer_params, query_of, OFFER_PREFIX.
  cbn [append split_on Ascii.eqb Bool.eqb].
  rewrite (split_on_none "?" _ (encodeURIComponent_without "?" json eq_refl)).
  unfold URLSearchParams. cbn [Ascii.eqb Bool.eqb split_on].
  rewrite (split_on_none "&" _ (encodeURIComponent_without "&" json eq_refl)).
  cbn [parse_pairs String.eqb Ascii.eqb Bool.eqb split_pair].
  rewrite (form_decode_encode json Hascii).
  reflexivity.
Qed.

Lemma decodeURIComponent_percent_free (s : string) :
  all_chars not_percent s = true -> decodeURIComponent s = Ok s.
Proof.
  unfold decodeURIComponent.
  induction s as [| c rest IH]; cbn [decode_uri all_chars Nat.eqb]; [reflexivity |].
  intros H. apply andb_true_iff in H. destruct H as [Hc Hr].
  unfold not_percent in Hc. apply negb_true_iff in Hc. rewrite Hc, (IH Hr). reflexivity.
Qed.

(** ** Numerals *)


Lemma append_assoc (a b c : string) : ((a ++ b) ++ c)%string = (a ++ (b ++ c))%string.
Proof. induction a as [| x a IH]; cbn; [reflexivity | now rewrite IH]. Qed.

Lemma append_nil_r (a : string) : (a ++ EmptyString)%string = a.
Proof. induction a as [| x a IH]; cbn; [reflexivity | now rewrite IH]. Qed.

Lemma length_append (a b : string) :
  String.length (a ++ b) = String.length a + String.length b.
Proof. induction a as [| x a IH]; cbn; [reflexivity | now rewrite IH]. Qed.

Lemma digit_cases (d : N) :
  (d < 10)%N ->
  d = 0%N \/ d = 1%N \/ d = 2%N \/ d = 3%N \/ d = 4%N
  \/ d = 5%N \/ d = 6%N \/ d = 7%N \/ d = 8%N \/ d = 9%N.
Proof. lia. Qed.

Ltac by_digits d H :=
  destruct (digit_cases d H) as [-> | [-> | [-> | [-> | [-> | [-> | [-> | [-> | [-> | ->]]]]]]]]].

Lemma digit_char_is_digit (d : N) : (d < 10)%N -> is_digit (digit_char d) = true.
Proof. intros H. by_digits d H; reflexivity. Qed.

Lemma digit_char_value (d : N) :
  (d < 10)%N -> Z.of_nat (nat_of_ascii (digit_char d) - 48) = Z.of_N d.
Proof. intros H. by_digits d H; reflexivity. Qed.

Lemma accumulate_app (s t : string) (a : Z) :
  accumulate (s ++ t) a = accumulate t (accumulate s a).
Proof. revert a. induction s as [| c s IH]; intros a; cbn; [reflexivity | apply IH]. Qed.

(** The digits [decimal_aux] puts before the accumulator spell the number. *)
Lemma decimal_aux_spec (f : nat) :
  forall m acc,
    (m < 10 ^ N.of_nat f)%N ->
    exists ds,
      decimal_aux f m acc = (ds ++ acc)%string
      /\ all_chars is_digit ds = true
      /\ forall a, accumulate ds a = (a * 10 ^ Z.of_nat (String.length ds) + Z.of_N m)%Z.
Proof.
  induction f as [| f IH]; intros m acc Hm.
  - exists EmptyString. cbn in *. repeat split. intros a. lia.
  - cbn [decimal_aux].
    assert (Hd : (m mod 10 < 10)%N) by (apply N.mod_lt; discriminate).
    pose proof (N.div_mod' m 10) as Hdm.
    destruct (m / 10 =? 0)%N eqn:Hq.
    + apply N.eqb_eq in Hq.
      exists (String (digit_char (m mod 10)) EmptyString). repeat split.
      * cbn. now rewrite digit_char_is_digit.
      * intros a. cbn [accumulate String.length]. rewrite digit_char_value by exact Hd.
        change (10 ^ Z.of_nat 1)%Z with 10%Z. lia.
    + apply N.eqb_neq in Hq.
      destruct (IH (m / 10)%N (String (digit_char (m mod 10)) acc)) as (ds & Heq & Hall & Hacc).
      { apply N.Div0.div_lt_upper_bound.
        rewrite Nat2N.inj_succ, N.pow_succ_r' in Hm. exact Hm. }
      exists (ds ++ String (digit_char (m mod 10)) EmptyString)%string. repeat split.
      * rewrite Heq, append_assoc. reflexivity.
      * rewrite all_chars_app, Hall. cbn. now rewrite digit_char_is_digit.
      * intros a. rewrite accumulate_app, Hacc. cbn [accumulate].
        rewrite digit_char_value by exact Hd.
        rewrite length_append. cbn [String.length].
        rewrite Nat.add_1_r, Nat2Z.inj_succ, Z.pow_succ_r by lia.
        lia.
Qed.

Lemma decimal_fuel (m : N) : (m < 10 ^ N.of_nat (S (N.to_nat (N.log2 m))))%N.
Proof.
  rewrite Nat2N.inj_succ, N2Nat.id.
  destruct (N.eq_dec m 0) as [-> | Hpos]; [reflexivity |].
  apply N.lt_le_trans with (2 ^ N.succ (N.log2 m))%N.
  - apply N.log2_spec. lia.
  - apply N.pow_le_mono_l. lia.
Qed.

Lemma decimal_spec (m : N) :
  exists ds,
    decimal m = ds
    /\ all_chars is_digit ds = true
    /\ accumulate ds 0 = Z.of_N m.
Proof.
  unfold decimal.
  destruct (decimal_aux_spec _ m EmptyString (decimal_fuel m)) as (ds & Heq & Hall & Hacc).
  exists ds. rewrite Heq, append_nil_r. repeat split; [exact Hall |].
  rewrite Hacc. lia.
Qed.

(** The first digit: there is one, and it is not [0] unless the number is. *)
Lemma decimal_aux_first (f : nat) :
  forall m acc,
    (m < 10 ^ N.of_nat (S f))%N ->
    exists d t,
      decimal_aux (S f) m acc = String (digit_char d) t
      /\ (d < 10)%N
      /\ (0 < m -> d <> 0)%N.
Proof.
  induction f as [| f IH]; intros m acc Hm.
  - cbn [decimal_aux]. assert (m < 10)%N by exact Hm.
    replace (m / 10 =? 0)%N with true
      by (symmetry; apply N.eqb_eq, N.div_small; assumption).
    exists (m mod 10)%N, acc. rewrite N.mod_small by assumption. repeat split; lia.
  - remember (S f) as f'. cbn [decimal_aux].
    destruct (m / 10 =? 0)%N eqn:Hq.
    + apply N.eqb_eq in Hq.
      assert (m < 10)%N.
      { destruct (N.lt_ge_cases m 10) as [|Hge]; [assumption |].
        pose proof (N.Div0.div_le_mono 10 m 10 Hge) as Hle.
        rewrite N.div_same in Hle by discriminate. lia. }
      exists (m mod 10)%N, acc. rewrite N.mod_small by assumption. repeat split; lia.
    + apply N.eqb_neq in Hq. subst f'.
      destruct (IH (m / 10)%N (String (digit_char (m mod 10)) acc)) as (d & t & Heq & Hd & Hnz).
      { apply N.Div0.div_lt_upper_bound.
        rewrite Nat2N.inj_succ, N.pow_succ_r' in Hm. exact Hm. }
      exists d, t. repeat split; [exact Heq | exact Hd |].
      intros _. apply Hnz. now apply N.neq_0_lt_0.
Qed.

Lemma decimal_first (m : N) :
  exists d t, decimal m = String (digit_char d) t /\ (d < 10)%N /\ (0 < m -> d <> 0)%N.
Proof. apply decimal_aux_first, decimal_fuel. Qed.

Lemma separated_not_digit (rest : string) :
  separated rest = true ->
  match rest with
  | EmptyString => True
  | String c _ =>
      is_digit c = false
      /\ (Ascii.eqb c "." || Ascii.eqb c "e" || Ascii.eqb c "E") = false
  end.
Proof.
  destruct rest as [| c rest]; cbn; [trivial |].
  intros H. apply negb_true_iff in H.
  destruct (is_digit c); cbn in H; [discriminate |]. now split.
Qed.

Lemma digits_Z_spec (ds rest : string) (a : Z) :
  all_chars is_digit ds = true ->
  separated rest = true ->
  JSON.digits_Z (ds ++ rest) a = (accumulate ds a, rest).
Proof.
  intros Hall Hsep. revert a.
  induction ds as [| c ds IH]; intros a; cbn [append accumulate].
  - apply separated_not_digit in Hsep.
    destruct rest as [| c rest]; cbn; [reflexivity |].
    destruct Hsep as [-> _]. reflexivity.
  - cbn in Hall. apply andb_true_iff in Hall. destruct Hall as [Hc Hds].
    cbn [JSON.digits_Z]. rewrite Hc. now apply IH.
Qed.

Lemma finish_number_separated (negative : bool) (n : Z) (rest : string) :
  separated rest = true ->
  (n <= JSON.max_safe)%Z ->
  JSON.finish_number negative n rest = Ok (VNum (if negative then (- n)%Z else n), rest).
Proof.
  intros Hsep Hn. unfold JSON.finish_number.
  apply separated_not_digit in Hsep.
  replace (JSON.max_safe <? n)%Z with false by (symmetry; apply Z.ltb_ge; exact Hn).
  destruct rest as [| c rest]; [reflexivity |].
  destruct Hsep as [_ ->]. reflexivity.
Qed.

Lemma digit_char_not_minus (d : N) : (d < 10)%N -> Ascii.eqb (digit_char d) "-" = false.
Proof. intros H. by_digits d H; reflexivity. Qed.

Lemma digit_char_not_zero (d : N) :
  (d < 10)%N -> d <> 0%N -> Ascii.eqb (digit_char d) "0" = false.
Proof.
  intros H Hnz. by_digits d H; [contradiction | reflexivity ..].
Qed.

Lemma parse_number_natural (negative : bool) (m : N) (rest : string) :
  (negative = true -> 0 < m)%N ->
  (Z.of_N m <= JSON.max_safe)%Z ->
  separated rest = true ->
  JSON.parse_number ((if negative then String "-" (decimal m) else decimal m) ++ rest)
  = Ok (VNum (if negative then (- Z.of_N m)%Z else Z.of_N m), rest).
Proof.
  intros Hneg Hm Hsep.
  destruct (decimal_spec m) as (ds & Hds & Hall & Hacc).
  destruct (decimal_first m) as (d & t & Hfirst & Hd & Hnz).
  assert (Hrun : JSON.parse_number (decimal m ++ rest)
                 = JSON.finish_number false (Z.of_N m) rest
                 /\ forall neg, JSON.finish_number neg (Z.of_N m) rest
                                = (let (n, r') := JSON.digits_Z (decimal m ++ rest) 0%Z in
                                   JSON.finish_number neg n r')).
  { split.
    - unfold JSON.parse_number. rewrite Hfirst. cbn [append].
      rewrite (digit_char_not_minus d Hd).
      destruct (N.eq_dec m 0) as [-> | Hpos].
      + cbn in Hfirst. injection Hfirst as <- <-. reflexivity.
      + rewrite (digit_char_not_zero d Hd) by (apply Hnz; lia).
        rewrite (digit_char_is_digit d Hd).
        change (String (digit_char d) (t ++ rest)) with (String (digit_char d) t ++ rest)%string.
        rewrite <- Hfirst, Hds, (digits_Z_spec ds rest 0 Hall Hsep), Hacc. reflexivity.
    - intros neg. rewrite Hds, (digits_Z_spec ds rest 0 Hall Hsep), Hacc. reflexivity. }
  destruct Hrun as [Hplain Hdigits].
  destruct negative.
  - specialize (Hneg eq_refl).
    unfold JSON.parse_number. cbn [append Ascii.eqb Bool.eqb].
    rewrite Hfirst. cbn [append].
    rewrite (digit_char_not_zero d Hd) by (apply Hnz; lia).
    rewrite (digit_char_is_digit d Hd).
    change (String (digit_char d) (t ++ rest)) with (String (digit_char d) t ++ rest)%string.
    rewrite <- Hfirst, <- Hdigits.
    now apply finish_number_separated.
  - rewrite Hplain. now apply finish_number_separated.
Qed.

Lemma parse_number_decimal (n : Z) (rest : string) :
  (Z.abs n <=? JSON.max_safe)%Z = true ->
  separated rest = true ->
  JSON.parse_number (JSON.decimal_Z n ++ rest) = Ok (VNum n, rest).
Proof.
  intros Hn Hsep. apply Z.leb_le in Hn. unfold JSON.decimal_Z.
  pose proof (N2Z.inj_abs_N n) as Habs.
  destruct (n <? 0)%Z eqn:Hsign.
  - apply Z.ltb_lt in Hsign.
    rewrite (parse_number_natural true (Z.abs_N n) rest); [| lia | lia | exact Hsep].
    repeat f_equal. lia.
  - apply Z.ltb_ge in Hsign.
    rewrite (parse_number_natural false (Z.abs_N n) rest); [| discriminate | lia | exact Hsep].
    repeat f_equal. lia.
Qed.

(** ** String literals *)

Lemma parse_string_char (c : ascii) (rest : string) :
  Ascii.eqb c dquote = false ->
  Ascii.eqb c backslash = false ->
  (nat_of_ascii c <? 32) = false ->
  JSON.parse_string (String c rest)
  = rbind (JSON.parse_string rest) (fun r => Ok (JSON.prepend (String c EmptyString) r)).
Proof. intros H1 H2 H3. cbn [JSON.parse_string]. now rewrite H1, H2, H3. Qed.

Lemma parse_string_simple (e ch : ascii) (rest : string) :
  JSON.simple_escape e = Some ch ->
  JSON.parse_string (String backslash (String e rest))
  = rbind (JSON.parse_string rest) (fun r => Ok (JSON.prepend (String ch EmptyString) r)).
Proof.
  intros H. cbn [JSON.parse_string].
  change (Ascii.eqb backslash dquote) with false.
  change (Ascii.eqb backslash backslash) with true.
  cbv iota. now rewrite H.
Qed.

Lemma hex_lower_val (d : nat) : d < 16 -> hex_val (JSON.hex_lower d) = Some d.
Proof. intros H. do 16 (destruct d as [| d]; [reflexivity |]). lia. Qed.

Lemma control_code_unit (n : nat) :
  n < 32 ->
  JSON.is_high_surrogate (N.of_nat n) = false
  /\ JSON.is_low_surrogate (N.of_nat n) = false
  /\ utf8_encode (N.of_nat n) = String (ascii_of_nat n) EmptyString.
Proof. intros H. do 32 (destruct n as [| n]; [repeat split |]). lia. Qed.

Lemma parse_string_control (h1 h2 : ascii) (a b : nat) (rest : string) :
  hex_val h1 = Some a ->
  hex_val h2 = Some b ->
  16 * a + b < 32 ->
  JSON.parse_string (String backslash (String "u" (String "0" (String "0"
                       (String h1 (String h2 rest))))))
  = rbind (JSON.parse_string rest)
      (fun r => Ok (JSON.prepend (String (ascii_of_nat (16 * a + b)) EmptyString) r)).
Proof.
  intros Ha Hb Hn. cbn [JSON.parse_string].
  change (Ascii.eqb backslash dquote) with false.
  change (Ascii.eqb backslash backslash) with true.
  change (JSON.simple_escape "u") with (@None ascii).
  change (Ascii.eqb "u" "u") with true.
  cbv iota.
  assert (Hhex : JSON.hex4 "0" "0" h1 h2 = Some (N.of_nat (16 * a + b))).
  { unfold JSON.hex4. change (hex_val "0") with (Some 0). rewrite Ha, Hb. f_equal. lia. }
  rewrite Hhex.
  destruct (control_code_unit _ Hn) as (-> & -> & ->). reflexivity.
Qed.

Lemma ascii_of_code (c : ascii) (n : nat) : nat_of_ascii c = n -> c = ascii_of_nat n.
Proof. intros <-. symmetry. apply ascii_nat_embedding. Qed.

Lemma eqb_code (c : ascii) (n : nat) :
  n < 256 -> (nat_of_ascii c =? n) = false -> Ascii.eqb c (ascii_of_nat n) = false.
Proof.
  intros Hn H. apply Nat.eqb_neq in H.
  destruct (Ascii.eqb_spec c (ascii_of_nat n)) as [-> |]; [| reflexivity].
  rewrite nat_ascii_embedding in H by exact Hn. contradiction.
Qed.

Lemma parse_string_escape (s rest : string) :
  JSON.parse_string (JSON.escape s ++ String dquote rest) = Ok (s, rest).
Proof.
  induction s as [| c s IH].
  - cbn [JSON.escape append JSON.parse_string].
    change (Ascii.eqb dquote dquote) with true. reflexivity.
  - cbn [JSON.escape]. rewrite append_assoc. unfold JSON.escape_char.
    assert (Hstep : forall ch, ch = c ->
              rbind (JSON.parse_string (JSON.escape s ++ String dquote rest))
                (fun r => Ok (JSON.prepend (String ch EmptyString) r))
              = Ok (String c s, rest)).
    { intros ch ->. rewrite IH. reflexivity. }
    destruct (nat_of_ascii c =? 8) eqn:E8.
    { apply Nat.eqb_eq, ascii_of_code in E8. cbn [append].
      rewrite (parse_string_simple "b" (ascii_of_nat 8)) by reflexivity.
      apply Hstep. now symmetry. }
    destruct (nat_of_ascii c =? 9) eqn:E9.
    { apply Nat.eqb_eq, ascii_of_code in E9. cbn [append].
      rewrite (parse_string_simple "t" (ascii_of_nat 9)) by reflexivity.
      apply Hstep. now symmetry. }
    destruct (nat_of_ascii c =? 10) eqn:E10.
    { apply Nat.eqb_eq, ascii_of_code in E10. cbn [append].
      rewrite (parse_string_simple "n" (ascii_of_nat 10)) by reflexivity.
      apply Hstep. now symmetry. }
    destruct (nat_of_ascii c =? 12) eqn:E12.
    { apply Nat.eqb_eq, ascii_of_code in E12. cbn [append].
      rewrite (parse_string_simple "f" (ascii_of_nat 12)) by reflexivity.
      apply Hstep. now symmetry. }
    destruct (nat_of_ascii c =? 13) eqn:E13.
    { apply Nat.eqb_eq, ascii_of_code in E13. cbn [append].
      rewrite (parse_string_simple "r" (ascii_of_nat 13)) by reflexivity.
      apply Hstep. now symmetry. }
    destruct (nat_of_ascii c =? 34) eqn:E34.
    { apply Nat.eqb_eq, ascii_of_code in E34. cbn [append].
      rewrite (parse_string_simple dquote dquote) by reflexivity.
      apply Hstep. now symmetry. }
    destruct (nat_of_ascii c =? 92) eqn:E92.
    { apply Nat.eqb_eq, ascii_of_code in E92. cbn [append].
      rewrite (parse_string_simple backslash backslash) by reflexivity.
      apply Hstep. now symmetry. }
    destruct (nat_of_ascii c <? 32) eqn:E32.
    { apply Nat.ltb_lt in E32. cbn [append].
      assert (Hhi : nat_of_ascii c / 16 < 16) by apply high_nibble.
      assert (Hlo : nat_of_ascii c mod 16 < 16) by apply low_nibble.
      pose proof (Nat.div_mod_eq (nat_of_ascii c) 16) as Hdm.
      rewrite (parse_string_control _ _ _ _ _ (hex_lower_val _ Hhi) (hex_lower_val _ Hlo))
        by lia.
      apply Hstep. rewrite <- Hdm. apply ascii_nat_embedding. }
    cbn [append].
    rewrite parse_string_char;
      [now apply Hstep
      | apply (eqb_code c 34); [lia | exact E34]
      | apply (eqb_code c 92); [lia | exact E92]
      | exact E32].
Qed.

(** ** Texts of values *)

Lemma value_induction (P : value -> Prop) :
  P VUndefined -> P VNull -> (forall b, P (VBool b)) -> (forall n, P (VNum n)) ->
  (forall s, P (VStr s)) ->
  (forall items, Forall P items -> P (VArr items)) ->
  (forall props, Forall (fun kv => P (snd kv)) props -> P (VObj props)) ->
  forall v, P v.
Proof.
  intros Hu Hn Hb Hz Hs Harr Hobj. fix IH 1.
  intros [| | b | n | s | items | props].
  - exact Hu.
  - exact Hn.
  - apply Hb.
  - apply Hz.
  - apply Hs.
  - apply Harr. induction items as [| x xs IHxs]; constructor; [apply IH | exact IHxs].
  - apply Hobj. induction props as [| [k x] xs IHxs]; constructor; [apply IH | exact IHxs].
Qed.

Lemma stringify_plain (v : value) : plain v = true -> JSON.stringify v = Some (text_of v).
Proof.
  unfold text_of. destruct v as [| | [] | | | |]; cbn; try discriminate; reflexivity.
Qed.

Lemma text_of_array (items : list value) :
  text_of (VArr items) = JSON.wrap EmptyString EmptyString "[" "]" (map text_of items).
Proof. reflexivity. Qed.

Lemma members_plain (props : list (string * value)) :
  forallb (fun kv => plain (snd kv)) props = true ->
  flat_map
    (fun kv : string * value =>
       match JSON.serialize EmptyString EmptyString (snd kv) with
       | Some t => [(JSON.quote (fst kv) ++ ":" ++ t)%string]
       | None => []
       end) props
  = map member_text props.
Proof.
  induction props as [| [k x] xs IH]; cbn [forallb flat_map map]; [reflexivity |].
  intros H. apply andb_true_iff in H. destruct H as [Hx Hxs].
  rewrite (IH Hxs). unfold member_text at 1. cbn [fst snd].
  pose proof (stringify_plain x Hx) as Hs. unfold JSON.stringify in Hs. rewrite Hs.
  reflexivity.
Qed.

Lemma text_of_object (props : list (string * value)) :
  forallb (fun kv => plain (snd kv)) props = true ->
  text_of (VObj props) = JSON.wrap EmptyString EmptyString "{" "}" (map member_text props).
Proof.
  intros H. unfold text_of, JSON.stringify. cbn [JSON.serialize append String.eqb].
  f_equal. exact (members_plain props H).
Qed.

Lemma wrap_compact (opening closing : string) (parts : list string) :
  JSON.wrap EmptyString EmptyString opening closing parts
  = (opening ++ JSON.join "," parts ++ closing)%string.
Proof. destruct parts; reflexivity. Qed.

Lemma is_digit_neq (c x : ascii) :
  is_digit c = true -> is_digit x = false -> Ascii.eqb c x = false.
Proof.
  intros Hc Hx. destruct (Ascii.eqb_spec c x) as [-> |]; [congruence | reflexivity].
Qed.

(** Within the safe range the text of a number is all its digits. *)
Lemma number_text_safe_range (n : Z) :
  (Z.abs n <=? JSON.max_safe)%Z = true -> JSON.number_text n = JSON.decimal_Z n.
Proof.
  intros Hn. apply Z.leb_le in Hn. unfold JSON.max_safe in Hn.
  assert (Hpos : forall x, (0 < x <= 9007199254740992)%Z ->
                           JSON.positive_text x = decimal (Z.abs_N x)).
  { intros x [H0 Hx].
    destruct (Z.eq_dec x 9007199254740992) as [-> |]; [vm_compute; reflexivity |].
    assert (Hlt : (x < 2 ^ 53)%Z) by (change (2 ^ 53)%Z with 9007199254740992%Z; lia).
    unfold JSON.positive_text, JSON.nearest_number.
    replace (Z.log2 x <? 53)%Z with true
      by (symmetry; apply Z.ltb_lt, Z.log2_lt_pow2; assumption).
    replace (x <? 2 ^ 53)%Z with true by (symmetry; now apply Z.ltb_lt).
    unfold JSON.decimal_Z.
    replace (x <? 0)%Z with false by (symmetry; apply Z.ltb_ge; lia). reflexivity. }
  unfold JSON.number_text, JSON.decimal_Z.
  destruct (n =? 0)%Z eqn:Hzero.
  - apply Z.eqb_eq in Hzero. subst n. reflexivity.
  - apply Z.eqb_neq in Hzero. destruct (n <? 0)%Z eqn:Hsign.
    + apply Z.ltb_lt in Hsign. rewrite Hpos by lia. f_equal. f_equal.
      apply N2Z.inj. rewrite !N2Z.inj_abs_N. lia.
    + apply Z.ltb_ge in Hsign. apply Hpos. lia.
Qed.

Lemma finite_safe_range (n : Z) :
  (Z.abs n <=? JSON.max_safe)%Z = true -> JSON.finite n = true.
Proof.
  intros Hn. apply Z.leb_le in Hn. unfold JSON.max_safe in Hn.
  unfold JSON.finite, JSON.nearest_number.
  destruct (Z.eq_dec (Z.abs n) 9007199254740992) as [-> |]; [vm_compute; reflexivity |].
  destruct (Z.eq_dec (Z.abs n) 0) as [-> |]; [reflexivity |].
  replace (Z.log2 (Z.abs n) <? 53)%Z with true; [reflexivity |].
  symmetry. apply Z.ltb_lt, Z.log2_lt_pow2; [lia |].
  change (2 ^ 53)%Z with 9007199254740992%Z. lia.
Qed.

Lemma text_of_number (n : Z) :
  plain (VNum n) = true -> text_of (VNum n) = JSON.decimal_Z n.
Proof.
  intros Hp.
  change (text_of (VNum n))
    with (if JSON.finite n then JSON.number_text n else "null").
  rewrite (finite_safe_range n Hp). now apply number_text_safe_range.
Qed.

Lemma decimal_Z_first (n : Z) :
  exists c t, JSON.decimal_Z n = String c t /\ (c = "-"%char \/ is_digit c = true).
Proof.
  unfold JSON.decimal_Z. destruct (n <? 0)%Z.
  - exists "-"%char, (decimal (Z.abs_N n)). split; [reflexivity | now left].
  - destruct (decimal_first (Z.abs_N n)) as (d & t & Heq & Hd & _).
    exists (digit_char d), t. split; [exact Heq | right; now apply digit_char_is_digit].
Qed.

(** The first character of the text of a value: not white space and not a
    closing bracket. *)
Lemma text_first (v : value) :
  plain v = true ->
  exists c t,
    text_of v = String c t /\ JSON.is_ws c = false /\ Ascii.eqb c "]" = false.
Proof.
  intros Hp. destruct v as [| | [] | n | s | items | props]; try discriminate.
  - now exists "n"%char, "ull".
  - now exists "t"%char, "rue".
  - now exists "f"%char, "alse".
  - rewrite (text_of_number n Hp).
    destruct (decimal_Z_first n) as (c & t & Heq & Hc).
    exists c, t. split; [exact Heq |].
    destruct Hc as [-> | Hc]; [now split |].
    split.
    + unfold JSON.is_ws.
      destruct (Ascii.eqb_spec c " ") as [-> |]; [discriminate |].
      destruct (Ascii.eqb_spec c (ascii_of_nat 9)) as [-> |]; [discriminate |].
      destruct (Ascii.eqb_spec c (ascii_of_nat 10)) as [-> |]; [discriminate |].
      destruct (Ascii.eqb_spec c (ascii_of_nat 13)) as [-> |]; [discriminate |].
      assert (Hne : forall k, k < 256 -> c <> ascii_of_nat k -> (nat_of_ascii c =? k) = false).
      { intros k Hk Hck. apply Nat.eqb_neq. intros E. apply Hck. now apply ascii_of_code. }
      rewrite !Hne by (try lia; assumption). reflexivity.
    + now apply is_digit_neq.
  - exists dquote, (JSON.escape s ++ String dquote EmptyString)%string. now split.
  - rewrite text_of_array, wrap_compact. now eexists "["%char, _.
  - cbn [plain] in Hp. apply andb_true_iff in Hp. destruct Hp as [Hp _].
    rewrite (text_of_object props Hp), wrap_compact. now eexists "{"%char, _.
Qed.

Lemma skip_ws_text (v : value) (rest : string) :
  plain v = true -> JSON.skip_ws (text_of v ++ rest) = (text_of v ++ rest)%string.
Proof.
  intros Hp. destruct (text_first v Hp) as (c & t & -> & Hws & _).
  cbn [append JSON.skip_ws]. now rewrite Hws.
Qed.

(** ** The parser on the text of a value *)

Lemma join_cons (sep p : string) (q : string) (rest : list string) :
  JSON.join sep (p :: q :: rest) = (p ++ sep ++ JSON.join sep (q :: rest))%string.
Proof. reflexivity. Qed.

Lemma skip_ws_joined (x : value) (xs : list value) (rest : string) :
  plain x = true ->
  JSON.skip_ws (JSON.join "," (map text_of (x :: xs)) ++ rest)
  = (JSON.join "," (map text_of (x :: xs)) ++ rest)%string.
Proof.
  intros Hp. destruct (text_first x Hp) as (c & t & Heq & Hws & _).
  destruct xs as [| y ys]; cbn [map].
  - cbn [JSON.join]. rewrite Heq. cbn [append JSON.skip_ws]. now rewrite Hws.
  - rewrite join_cons, Heq. cbn [append JSON.skip_ws]. now rewrite Hws.
Qed.

Lemma parse_elements_text (items : list value) :
  items <> [] ->
  Forall reads_back items ->
  forallb plain items = true ->
  forall fuel acc rest,
    elements_size items <= fuel ->
    JSON.parse_elements fuel (JSON.join "," (map text_of items) ++ String "]" rest) acc
    = Ok (VArr (acc ++ items), rest).
Proof.
  intros Hne Hall. induction Hall as [| x xs Hx Hxs IH]; [congruence |].
  intros Hp fuel acc rest Hfuel.
  cbn [forallb] in Hp. apply andb_true_iff in Hp. destruct Hp as [Hpx Hpxs].
  cbn [elements_size fold_right] in Hfuel. fold (elements_size xs) in Hfuel.
  destruct fuel as [| f]; [lia |].
  cbn [JSON.parse_elements].
  destruct xs as [| y ys].
  - cbn [map JSON.join].
    rewrite (Hx f (String "]" rest)) by (try reflexivity; lia).
    reflexivity.
  - cbn [map]. rewrite join_cons, append_assoc.
    change (("," ++ JSON.join "," (text_of y :: map text_of ys)) ++ String "]" rest)%string
      with (String "," (JSON.join "," (map text_of (y :: ys)) ++ String "]" rest)).
    rewrite (Hx f _) by (try reflexivity; lia).
    cbn [rbind fst snd JSON.skip_ws].
    change (JSON.is_ws ",") with false. cbv iota.
    change (Ascii.eqb "," ",") with true. cbv iota.
    cbn [forallb] in Hpxs. pose proof Hpxs as Hpy. apply andb_true_iff in Hpy.
    rewrite (skip_ws_joined y ys _ (proj1 Hpy)).
    rewrite (IH ltac:(discriminate) Hpxs f (acc ++ [x]) rest) by lia.
    now rewrite <- app_assoc.
Qed.

Lemma has_prop_app (k : string) (acc : list (string * value)) (k' : string) (x : value) :
  has_prop k (acc ++ [(k', x)]) = has_prop k acc || String.eqb k' k.
Proof.
  induction acc as [| [k0 x0] acc IH]; cbn [app has_prop].
  - now rewrite orb_false_r.
  - now rewrite IH, orb_assoc.
Qed.

Lemma define_prop_fresh (acc : list (string * value)) (k : string) (x : value) :
  has_prop k acc = false -> array_index k = None ->
  define_prop acc k x = acc ++ [(k, x)].
Proof. intros Hk Hi. unfold define_prop. now rewrite Hk, Hi. Qed.

Lemma member_text_append (k : string) (x : value) (rest : string) :
  (member_text (k, x) ++ rest)%string
  = String dquote (JSON.escape k ++ String dquote (String ":" (text_of x ++ rest))).
Proof.
  unfold member_text, JSON.quote. cbn [fst snd append].
  now rewrite !append_assoc.
Qed.

Lemma parse_members_text (props : list (string * value)) :
  props <> [] ->
  Forall (fun kv => reads_back (snd kv)) props ->
  forallb (fun kv => plain (snd kv)) props = true ->
  fresh_keys (map fst props) = true ->
  forall fuel acc rest,
    (forall k, In k (map fst props) -> has_prop k acc = false) ->
    members_size props <= fuel ->
    JSON.parse_members fuel (JSON.join "," (map member_text props) ++ String "}" rest) acc
    = Ok (VObj (acc ++ props), rest).
Proof.
  intros Hne Hall. induction Hall as [| [k x] xs Hx Hxs IH]; [congruence |].
  intros Hp Hfresh fuel acc rest Hacc Hfuel.
  cbn [forallb snd] in Hp. apply andb_true_iff in Hp. destruct Hp as [Hpx Hpxs].
  cbn [map fst fresh_keys] in Hfresh.
  destruct (array_index k) eqn:Hindex; [discriminate |].
  apply andb_true_iff in Hfresh. destruct Hfresh as [Hk Hfresh].
  apply negb_true_iff in Hk.
  cbn [members_size fold_right snd] in Hfuel. fold (members_size xs) in Hfuel.
  cbn [snd] in Hx.
  destruct fuel as [| f]; [lia |].
  assert (Hdefine : define_prop acc k x = acc ++ [(k, x)]).
  { apply define_prop_fresh; [apply Hacc; now left | exact Hindex]. }
  destruct xs as [| [k' y] ys].
  - cbn [map JSON.join]. rewrite member_text_append.
    cbn [JSON.parse_members].
    change (Ascii.eqb dquote dquote) with true. cbv iota.
    rewrite parse_string_escape. cbn [rbind fst snd JSON.skip_ws].
    change (JSON.is_ws ":") with false. cbv iota.
    change (Ascii.eqb ":" ":") with true. cbv iota.
    rewrite (skip_ws_text x _ Hpx).
    rewrite (Hx f (String "}" rest)) by (try reflexivity; lia).
    cbn [rbind fst snd JSON.skip_ws].
    change (JSON.is_ws "}") with false. cbv iota.
    change (Ascii.eqb "}" ",") with false. change (Ascii.eqb "}" "}") with true. cbv iota.
    now rewrite Hdefine.
  - cbn [map]. rewrite join_cons, append_assoc, member_text_append.
    change (("," ++ JSON.join "," (member_text (k', y) :: map member_text ys))
            ++ String "}" rest)%string
      with (String "," (JSON.join "," (map member_text ((k', y) :: ys)) ++ String "}" rest)).
    cbn [JSON.parse_members].
    change (Ascii.eqb dquote dquote) with true. cbv iota.
    rewrite parse_string_escape. cbn [rbind fst snd JSON.skip_ws].
    change (JSON.is_ws ":") with false. cbv iota.
    change (Ascii.eqb ":" ":") with true. cbv iota.
    rewrite (skip_ws_text x _ Hpx).
    rewrite (Hx f _) by (try reflexivity; lia).
    cbn [rbind fst snd JSON.skip_ws].
    change (JSON.is_ws ",") with false. cbv iota.
    change (Ascii.eqb "," ",") with true. cbv iota.
    rewrite Hdefine.
    assert (Hskip : forall t,
               JSON.skip_ws (JSON.join "," (map member_text ((k', y) :: ys)) ++ t)
               = (JSON.join "," (map member_text ((k', y) :: ys)) ++ t)%string).
    { intros t. destruct ys as [| kv ys]; cbn [map]; [cbn [JSON.join] | rewrite join_cons];
        unfold member_text at 1, JSON.quote; reflexivity. }
    rewrite Hskip.
    rewrite (IH ltac:(discriminate) Hpxs Hfresh f (acc ++ [(k, x)]) rest).
    + now rewrite <- app_assoc.
    + intros k0 Hin. rewrite has_prop_app.
      rewrite (Hacc k0) by (now right). cbn [orb].
      cbn [existsb map fst] in Hk.
      destruct (String.eqb k k0) eqn:E; [| reflexivity].
      apply String.eqb_eq in E. subst k0.
      assert (Hex : existsb (String.eqb k) (map fst ((k', y) :: ys)) = true).
      { apply existsb_exists. exists k. split; [exact Hin | apply String.eqb_refl]. }
      cbn [existsb map fst] in Hex. congruence.
    + lia.
Qed.

Lemma forallb_Forall {A : Type} (p : A -> bool) (P : A -> Prop) (l : list A) :
  Forall (fun x => p x = true -> P x) l -> forallb p l = true -> Forall P l.
Proof.
  induction 1 as [| x xs Hx _ IH]; cbn [forallb]; [constructor |].
  intros H. apply andb_true_iff in H. destruct H as [Hpx Hpxs].
  constructor; [now apply Hx | now apply IH].
Qed.

Lemma number_start (c : ascii) :
  c = "-"%char \/ is_digit c = true ->
  Ascii.eqb c "{" = false /\ Ascii.eqb c "[" = false /\ Ascii.eqb c dquote = false
  /\ Ascii.eqb c "t" = false /\ Ascii.eqb c "f" = false /\ Ascii.eqb c "n" = false.
Proof.
  intros [-> | H]; [repeat split |].
  repeat split; now apply is_digit_neq.
Qed.

(** The parser reads back the text of every JSON-representable value. *)
Lemma parse_text (v : value) : plain v = true -> reads_back v.
Proof.
  induction v as [| | b | n | s | items IH | props IH] using value_induction;
    intros Hp fuel rest Hfuel Hsep; try discriminate;
    cbn [size] in Hfuel; (destruct fuel as [| f]; [lia |]).
  - reflexivity.
  - destruct b; reflexivity.
  - rewrite (text_of_number n Hp).
    destruct (decimal_Z_first n) as (c & t & Heq & Hc).
    destruct (number_start c Hc) as (H1 & H2 & H3 & H4 & H5 & H6).
    rewrite <- (parse_number_decimal n rest Hp Hsep).
    rewrite Heq. cbn [append JSON.parse_value].
    now rewrite H1, H2, H3, H4, H5, H6.
  - change (text_of (VStr s)) with (JSON.quote s). unfold JSON.quote.
    cbn [append JSON.parse_value]. rewrite append_assoc. cbn [append].
    change (Ascii.eqb dquote "{") with false. change (Ascii.eqb dquote "[") with false.
    change (Ascii.eqb dquote dquote) with true. cbv iota.
    now rewrite parse_string_escape.
  - cbn [plain] in Hp.
    pose proof (forallb_Forall plain reads_back items IH Hp) as Hall.
    rewrite text_of_array, wrap_compact.
    cbn [append JSON.parse_value].
    change (Ascii.eqb "[" "{") with false. change (Ascii.eqb "[" "[") with true. cbv iota.
    destruct items as [| x xs].
    + reflexivity.
    + rewrite append_assoc. cbn [append].
      cbn [forallb] in Hp. pose proof Hp as Hpx. apply andb_true_iff in Hpx.
      rewrite (skip_ws_joined x xs _ (proj1 Hpx)).
      pose proof (parse_elements_text (x :: xs) ltac:(discriminate) Hall Hp f [] rest) as Hrun.
      fold (elements_size (x :: xs)) in Hfuel.
      specialize (Hrun ltac:(lia)). cbn [app] in Hrun.
      destruct (text_first x (proj1 Hpx)) as (c & t & Heq & _ & Hclose).
      assert (Hshape : exists t', (JSON.join "," (map text_of (x :: xs)) ++ String "]" rest)%string
                                  = String c t').
      { destruct xs as [| y ys]; cbn [map];
          [cbn [JSON.join] | rewrite join_cons]; rewrite Heq; cbn [append]; now eexists. }
      destruct Hshape as [t' Hshape]. rewrite Hshape in Hrun |- *.
      now rewrite Hclose.
  - cbn [plain] in Hp. apply andb_true_iff in Hp. destruct Hp as [Hp Hfresh].
    pose proof (forallb_Forall (fun kv => plain (snd kv)) (fun kv => reads_back (snd kv))
                  props IH Hp) as Hall.
    rewrite (text_of_object props Hp), wrap_compact.
    cbn [append JSON.parse_value].
    change (Ascii.eqb "{" "{") with true. cbv iota.
    destruct props as [| [k x] xs].
    + reflexivity.
    + rewrite append_assoc. cbn [append].
      pose proof (parse_members_text ((k, x) :: xs) ltac:(discriminate) Hall Hp Hfresh
                    f [] rest) as Hrun.
      fold (members_size ((k, x) :: xs)) in Hfuel.
      specialize (Hrun ltac:(reflexivity) ltac:(lia)). cbn [app] in Hrun.
      assert (Hshape : exists t', (JSON.join "," (map member_text ((k, x) :: xs))
                                   ++ String "}" rest)%string
                                  = String dquote t').
      { destruct xs as [| kv ys]; cbn [map];
          [cbn [JSON.join] | rewrite join_cons];
          unfold member_text at 1, JSON.quote; cbn [append]; now eexists. }
      destruct Hshape as [t' Hshape]. rewrite Hshape in Hrun |- *.
      cbn [JSON.skip_ws]. change (JSON.is_ws dquote) with false. cbv iota.
      change (Ascii.eqb dquote "}") with false. cbv iota.
      exact Hrun.
Qed.

(** The length of the text is fuel enough. *)
Lemma join_length (texts : list string) (sizes : list nat) :
  Forall2 (fun t n => n <= String.length t) texts sizes ->
  fold_right (fun n m => S (n + m)) 0 sizes <= S (String.length (JSON.join "," texts)).
Proof.
  induction 1 as [| t n texts sizes Htn Hrest IH]; cbn [fold_right]; [lia |].
  destruct texts as [| t' texts].
  - inversion Hrest; subst. cbn [fold_right JSON.join]. lia.
  - rewrite join_cons, !length_append. cbn [String.length]. lia.
Qed.

Lemma size_text (v : value) : plain v = true -> size v <= String.length (text_of v).
Proof.
  induction v as [| | b | n | s | items IH | props IH] using value_induction;
    intros Hp; try discriminate.
  - cbn. lia.
  - destruct b; cbn; lia.
  - destruct (text_first (VNum n) Hp) as (c & t & -> & _). cbn. lia.
  - cbn. lia.
  - cbn [plain] in Hp.
    rewrite text_of_array, wrap_compact, !length_append. cbn [size String.length].
    assert (H : Forall2 (fun t n => n <= String.length t) (map text_of items) (map size items)).
    { induction IH as [| x xs Hx _ IHxs]; cbn [map]; [constructor |].
      cbn [forallb] in Hp. apply andb_true_iff in Hp. destruct Hp as [Hpx Hpxs].
      constructor; [now apply Hx | now apply IHxs]. }
    apply join_length in H.
    replace (fold_right (fun x n => S (size x + n)) 0 items)
      with (fold_right (fun n m => S (n + m)) 0 (map size items)).
    + lia.
    + clear. induction items as [| x xs IHxs]; cbn; [reflexivity | now rewrite IHxs].
  - cbn [plain] in Hp. apply andb_true_iff in Hp. destruct Hp as [Hp _].
    rewrite (text_of_object props Hp), wrap_compact, !length_append. cbn [size String.length].
    assert (H : Forall2 (fun t n => n <= String.length t)
                  (map member_text props) (map (fun kv => size (snd kv)) props)).
    { induction IH as [| [k x] xs Hx _ IHxs]; cbn [map]; [constructor |].
      cbn [forallb snd] in Hp. apply andb_true_iff in Hp. destruct Hp as [Hpx Hpxs].
      constructor; [| now apply IHxs].
      unfold member_text. cbn [fst snd]. rewrite !length_append.
      specialize (Hx Hpx). cbn [snd] in Hx. lia. }
    apply join_length in H.
    replace (fold_right (fun kv n => S (size (snd kv) + n)) 0 props)
      with (fold_right (fun n m => S (n + m)) 0 (map (fun kv => size (snd kv)) props)).
    + lia.
    + clear. induction props as [| x xs IHxs]; cbn; [reflexivity | now rewrite IHxs].
Qed.

(** [JSON.parse] inverts [JSON.stringify] on JSON-representable values. *)
Theorem parse_stringify (v : value) :
  plain v = true ->
  exists text, JSON.stringify v = Some text /\ JSON.parse text = Ok v.
Proof.
  intros Hp. exists (text_of v). split; [now apply stringify_plain |].
  unfold JSON.parse.
  rewrite <- (append_nil_r (text_of v)) at 2.
  rewrite (skip_ws_text v EmptyString Hp).
  rewrite (parse_text v Hp (S (String.length (text_of v))) EmptyString);
    [reflexivity | | reflexivity].
  pose proof (size_text v Hp). lia.
Qed.

(** ** The characters of a text *)

Lemma url_safe_code (c : ascii) :
  url_safe c = true <-> nat_of_ascii c < 128 /\ c <> "%"%char.
Proof.
  unfold url_safe, is_ascii, not_percent. rewrite andb_true_iff, negb_true_iff.
  rewrite Nat.ltb_lt. split; intros [H1 H2]; split; try assumption.
  - intros ->. discriminate.
  - now destruct (Ascii.eqb_spec c "%").
Qed.

Lemma hex_lower_safe (d : nat) : d < 16 -> url_safe (JSON.hex_lower d) = true.
Proof. intros H. do 16 (destruct d as [| d]; [reflexivity |]). lia. Qed.

Lemma escape_safe (s : string) :
  all_chars url_safe s = true -> all_chars url_safe (JSON.escape s) = true.
Proof.
  induction s as [| c s IH]; cbn [all_chars JSON.escape]; [reflexivity |].
  intros H. apply andb_true_iff in H. destruct H as [Hc Hs].
  rewrite all_chars_app, (IH Hs), andb_true_r. unfold JSON.escape_char.
  repeat match goal with
         | |- context [if ?b then _ else _] => destruct b; [reflexivity |]
         end.
  destruct (nat_of_ascii c <? 32).
  - cbn [all_chars].
    now rewrite (hex_lower_safe _ (high_nibble c)), (hex_lower_safe _ (low_nibble c)).
  - cbn [all_chars]. now rewrite Hc.
Qed.

Lemma digit_safe (c : ascii) : is_digit c = true -> url_safe c = true.
Proof.
  intros H.
  destruct (Ascii.eqb_spec c "%") as [-> |]; [discriminate |].
  apply url_safe_code. split; [| assumption].
  unfold is_digit in H. apply andb_true_iff in H. destruct H as [_ H].
  apply Nat.leb_le in H. lia.
Qed.

Lemma decimal_Z_safe (n : Z) : all_chars url_safe (JSON.decimal_Z n) = true.
Proof.
  assert (H : forall m, all_chars url_safe (decimal m) = true).
  { intros m. destruct (decimal_spec m) as (ds & -> & Hall & _).
    apply (all_chars_impl is_digit); [apply digit_safe | exact Hall]. }
  unfold JSON.decimal_Z. destruct (n <? 0)%Z; [cbn [all_chars]; rewrite H; reflexivity | apply H].
Qed.

Lemma join_safe (parts : list string) :
  Forall (fun t => all_chars url_safe t = true) parts ->
  all_chars url_safe (JSON.join "," parts) = true.
Proof.
  induction 1 as [| t parts Ht Hparts IH]; [reflexivity |].
  destruct parts as [| t' parts]; [exact Ht |].
  rewrite join_cons, !all_chars_app, Ht, IH. reflexivity.
Qed.

Lemma text_safe (v : value) :
  plain v = true -> strings_of url_safe v = true -> all_chars url_safe (text_of v) = true.
Proof.
  induction v as [| | b | n | s | items IH | props IH] using value_induction;
    intros Hp Hs; try discriminate.
  - reflexivity.
  - destruct b; reflexivity.
  - rewrite (text_of_number n Hp). apply decimal_Z_safe.
  - change (text_of (VStr s)) with (JSON.quote s). unfold JSON.quote.
    cbn [all_chars strings_of] in *. rewrite all_chars_app, (escape_safe s Hs). reflexivity.
  - cbn [plain strings_of] in Hp, Hs.
    rewrite text_of_array, wrap_compact, !all_chars_app.
    rewrite join_safe; [reflexivity |].
    induction IH as [| x xs Hx _ IHxs]; cbn [map]; [constructor |].
    cbn [forallb] in Hp, Hs. apply andb_true_iff in Hp, Hs.
    constructor; [now apply Hx | now apply IHxs].
  - cbn [plain strings_of] in Hp, Hs. apply andb_true_iff in Hp. destruct Hp as [Hp _].
    rewrite (text_of_object props Hp), wrap_compact, !all_chars_app.
    rewrite join_safe; [reflexivity |].
    induction IH as [| [k x] xs Hx _ IHxs]; cbn [map]; [constructor |].
    cbn [forallb fst snd] in Hp, Hs. apply andb_true_iff in Hp, Hs.
    destruct Hp as [Hpx Hpxs]. destruct Hs as [Hsx Hsxs].
    apply andb_true_iff in Hsx. destruct Hsx as [Hk Hsx].
    constructor; [| now apply IHxs].
    unfold member_text, JSON.quote. cbn [fst snd].
    rewrite !all_chars_app. cbn [all_chars].
    rewrite all_chars_app, (escape_safe k Hk).
    cbn [snd] in Hx. rewrite (Hx Hpx Hsx). reflexivity.
Qed.

(** ** The round trip of offers without a percent sign *)

Lemma parse_inline_offer (json : string) :
  json <> EmptyString ->
  all_chars is_ascii json = true ->
  parseCredentialOfferUrl
    (VStr (OFFER_PREFIX ++ "?credential_offer=" ++ encodeURIComponent json))
  = rbind (decodeURIComponent json) JSON.parse.
Proof.
  intros Hne Hascii. unfold parseCredentialOfferUrl. cbn [query_of_value rbind].
  pose proof (inline_parameter_decoded json Hascii) as Hget.
  unfold offer_params in Hget. rewrite Hget.
  cbn [present]. destruct json as [| c json]; [congruence | reflexivity].
Qed.

(** X1: the round trip holds for every JSON-representable offer whose
    strings are ASCII without a percent sign: encoded into the
    [credential_offer] parameter and parsed by [parseCredentialOfferUrl], it
    comes back as it was; there the second decoding changes nothing. *)
Theorem round_trip_without_percent (offer : value) :
  plain offer = true ->
  strings_of url_safe offer = true ->
  round_trip offer = Ok offer.
Proof.
  intros Hp Hs.
  destruct (parse_stringify offer Hp) as (text & Htext & Hparse).
  pose proof (stringify_plain offer Hp) as Htext'.
  assert (text = text_of offer) by congruence. subst text.
  pose proof (text_safe offer Hp Hs) as Hsafe.
  unfold round_trip, encode_offer_url. rewrite Htext.
  rewrite parse_inline_offer.
  - rewrite decodeURIComponent_percent_free; [exact Hparse |].
    apply (all_chars_impl url_safe); [| exact Hsafe].
    intros c Hc. apply andb_true_iff in Hc. tauto.
  - destruct (text_first offer Hp) as (c & t & -> & _). discriminate.
  - apply (all_chars_impl url_safe); [| exact Hsafe].
    intros c Hc. apply andb_true_iff in Hc. tauto.
Qed.

(** A text with a percent sign does not survive [decodeURIComponent]: the
    result, when there is one, is strictly shorter. *)
Lemma decode_uri_length (k : nat) :
  forall s, String.length s <= k ->
  forall remaining lower upper r,
    decode_uri s remaining lower upper = Ok r ->
    String.length r <= String.length s
    /\ (all_chars not_percent s = false -> String.length r < String.length s).
Proof.
  induction k as [| k IH]; intros s Hlen remaining lower upper r H.
  - destruct s; [| cbn in Hlen; lia]. cbn in H.
    destruct (remaining =? 0); [| discriminate]. injection H as <-.
    split; [reflexivity | discriminate].
  - destruct s as [| c rest]; cbn [decode_uri] in H.
    + destruct (remaining =? 0); [| discriminate]. injection H as <-.
      split; [reflexivity | discriminate].
    + cbn [String.length all_chars] in *. unfold not_percent at 1.
      destruct (Ascii.eqb c "%") eqn:Hc; cbn [negb andb].
      * destruct rest as [| h1 [| h2 rest']]; try discriminate.
        cbn [String.length] in *.
        destruct (hex_val h1) as [a |]; [| discriminate].
        destruct (hex_val h2) as [b |]; [| discriminate].
        assert (Hrec : forall n lo hi ch,
                   rbind (decode_uri rest' n lo hi) (fun r0 => Ok (String ch r0)) = Ok r ->
                   String.length r <= S (S (S (String.length rest')))
                   /\ (false = false -> String.length r < S (S (S (String.length rest'))))).
        { intros n lo hi ch Hr.
          destruct (decode_uri rest' n lo hi) as [r0 | |] eqn:E; try discriminate.
          cbn [rbind] in Hr. injection Hr as <-.
          destruct (IH rest' ltac:(lia) _ _ _ _ E) as [Hle _].
          cbn [String.length]. split; [lia | intros _; lia]. }
        destruct (remaining =? 0).
        -- destruct (16 * a + b <? 128); [now apply Hrec in H |].
           destruct (lead_state (16 * a + b)) as [[[n lo] hi] |]; [| discriminate].
           now apply Hrec in H.
        -- destruct ((lower <=? 16 * a + b) && (16 * a + b <=? upper)); [| discriminate].
           now apply Hrec in H.
      * destruct (remaining =? 0); [| discriminate].
        destruct (decode_uri rest 0 128 191) as [r0 | |] eqn:E; try discriminate.
        cbn [rbind] in H. injection H as <-.
        destruct (IH rest ltac:(lia) _ _ _ _ E) as [Hle Hlt].
        cbn [String.length]. split; [lia |].
        intros Hp. specialize (Hlt Hp). lia.
Qed.

Lemma second_decoding_alters (text : string) :
  all_chars not_percent text = false -> decodeURIComponent text <> Ok text.
Proof.
  intros Hp H.
  destruct (decode_uri_length (String.length text) text (le_n _) _ _ _ _ H) as [_ Hlt].
  specialize (Hlt Hp). lia.
Qed.

(** * Further properties of the script and of the issuer *)

(** ** The offer parser *)

Lemma round_trip_without_percent_witness :
  round_trip offer_pre_authorized = Ok offer_pre_authorized.
Proof. apply round_trip_without_percent; reflexivity. Defined.

Lemma query_of_plain (offerUrl : string) :
  all_chars (not_char "?") offerUrl = true -> query_of offerUrl = EmptyString.
Proof. intros H. unfold query_of. now rewrite (split_on_none _ _ H). Qed.

(** X2: [parseCredentialOfferUrl] throws its own error, "credential_offer
    not found", exactly when the query of the URL has no [credential_offer]
    parameter with a non-empty value; a URL without a question mark has no
    query, and so always ends there. *)
Theorem offer_parameter_required (offerUrl : string) :
  (parseCredentialOfferUrl (VStr offerUrl) = Throw OFFER_NOT_FOUND
   <-> carries_value offerUrl "credential_offer" = false)
  /\ (all_chars (not_char "?") offerUrl = true ->
      parseCredentialOfferUrl (VStr offerUrl) = Throw OFFER_NOT_FOUND).
Proof.
  assert (Hmissing : carries_value offerUrl "credential_offer" = false ->
                     parseCredentialOfferUrl (VStr offerUrl) = Throw OFFER_NOT_FOUND).
  { unfold carries_value, offer_params, parseCredentialOfferUrl.
    cbn [query_of_value rbind]. intros Hp. now rewrite Hp. }
  split; [split; [| exact Hmissing] |].
  - intros H. destruct (carries_value offerUrl "credential_offer") eqn:Hc; [| reflexivity].
    destruct (inline_failure_not_resolution_error _ _ Hc H); discriminate.
  - intros Hplain. apply Hmissing. unfold carries_value, offer_params.
    now rewrite (query_of_plain _ Hplain).
Qed.

(** ** Retrieval with retry *)

(** X3: [fetchCredentialOfferWithRetry] with any number of attempts and
    any delay.  With no attempt allowed it returns [undefined] and requests
    nothing.  Otherwise it requests the URI until the first answer, at most
    [attempts] times, waits [delayMs] after each rejection but the last
    allowed one, and ends with the outcome of its last request. *)
Theorem retry_at_most_attempts (offerUri : string) (n : nat) (delayMs : Z)
    (env : environment) (tr : list event) :
  fetchCredentialOfferWithRetry offerUri 0 delayMs env tr = (Ok VUndefined, tr)
  /\ exists failures last,
       fetchCredentialOfferWithRetry offerUri (S n) delayMs env tr
       = (outcome last,
          tr ++ retry_events delayMs offerUri failures ++ [Http (GET offerUri) last])
       /\ List.length failures <= n
       /\ (forall response, last = Rejected response -> List.length failures = n).
Proof.
  split; [reflexivity |].
  unfold fetchCredentialOfferWithRetry. now apply fetch_loop_run.
Qed.

(** ** The offer parser of the issuer *)

Lemma inline_offer_never_missing (raw : string) (message : string) :
  rbind (decodeURIComponent raw) JSON.parse <> Throw (Error message).
Proof.
  intros H. destruct (decodeURIComponent raw) as [decoded | e |] eqn:Hd; cbn [rbind] in H.
  - pose proof (parse_throws decoded _ H). discriminate.
  - injection H as ->. pose proof (decodeURIComponent_throws raw _ Hd). discriminate.
  - discriminate.
Qed.

Lemma first_attempt_resolved (offerUri : string) (data : value)
    (env : environment) (tr : list event) :
  server env tr (GET offerUri) = Resolved data ->
  fetchCredentialOfferWithRetry offerUri DEFAULT_ATTEMPTS DEFAULT_DELAY_MS env tr
  = (Ok data, tr ++ [Http (GET offerUri) (Resolved data)]).
Proof.
  intros Hs. unfold fetchCredentialOfferWithRetry, DEFAULT_ATTEMPTS.
  rewrite fetch_loop_step. unfold try_catch, axios_get. rewrite request_run, Hs. reflexivity.
Qed.

Lemma fetch_offer_uri_run (params : list (string * string))
    (env : environment) (tr : list event) :
  exists r evs,
    fetch_offer_uri params env tr = (r, tr ++ evs)
    /\ (evs = []
        \/ exists offerUri reply, evs = [Http (GET offerUri) reply] /\ r = outcome reply)
    /\ (forall offer, r = Ok offer ->
          exists offerUri,
            params_get params "credential_offer_uri" = Some offerUri
            /\ String.eqb offerUri EmptyString = false
            /\ fetchCredentialOfferWithRetry offerUri DEFAULT_ATTEMPTS DEFAULT_DELAY_MS env tr
               = (Ok offer, tr ++ evs))
    /\ (r = Throw NO_OFFER_IN_URL
        <-> present (params_get params "credential_offer_uri") = false).
Proof.
  unfold fetch_offer_uri.
  destruct (params_get params "credential_offer_uri") as [offerUri |] eqn:Hu; cbn [present].
  - destruct (String.eqb offerUri EmptyString) eqn:He; cbn [negb].
    + exists (Throw NO_OFFER_IN_URL), []. rewrite app_nil_r.
      repeat split; try discriminate; auto.
    + exists (outcome (server env tr (GET offerUri))),
        [Http (GET offerUri) (server env tr (GET offerUri))].
      unfold axios_get. rewrite request_run. repeat split.
      * right. now exists offerUri, (server env tr (GET offerUri)).
      * intros offer Hr. exists offerUri.
        destruct (server env tr (GET offerUri)) as [data |] eqn:Hs; [| discriminate].
        injection Hr as <-. repeat split; [assumption |]. now apply first_attempt_resolved.
      * destruct (server env tr (GET offerUri)); discriminate.
      * discriminate.
  - exists (Throw NO_OFFER_IN_URL), []. rewrite app_nil_r.
    repeat split; try discriminate; auto.
Qed.

(** X4: [PassportMDocIssuer.parseCredentialOffer] makes at most one
    request, and then returns or throws what that request gave.  Whenever
    it returns an offer, [resolveOfferIfUri] of the end-to-end script
    returns the same offer on the same URL with the same requests.  It
    throws "No credential offer found in URL" exactly when the query has
    neither parameter with a non-empty value. *)
Theorem mdoc_offer_single_retrieval (offerUrl : string)
    (env : environment) (tr : list event) :
  exists r evs,
    parseCredentialOffer (VStr offerUrl) env tr = (r, tr ++ evs)
    /\ (evs = []
        \/ exists offerUri reply, evs = [Http (GET offerUri) reply] /\ r = outcome reply)
    /\ (forall offer, r = Ok offer ->
          resolveOfferIfUri (VStr offerUrl) env tr = (Ok offer, tr ++ evs))
    /\ (r = Throw NO_OFFER_IN_URL <-> no_offer_param offerUrl).
Proof.
  unfold parseCredentialOffer, resolveOfferIfUri, no_offer_param, carries_value,
    offer_params, parseCredentialOfferUrl.
  cbn [query_of_value rbind]. run.
  set (params := URLSearchParams (query_of offerUrl)).
  destruct (fetch_offer_uri_run params env tr) as (r & evs & Hrun & Hevs & Hsame & Hmissing).
  assert (Hretry : forall offer, r = Ok offer ->
            match params_get params "credential_offer_uri" with
            | Some offerUri =>
                if String.eqb offerUri EmptyString
                then fun (_ : environment) (tr0 : list event) => (Throw NO_OFFER, tr0)
                else fetchCredentialOfferWithRetry offerUri DEFAULT_ATTEMPTS DEFAULT_DELAY_MS
            | None => fun (_ : environment) (tr0 : list event) => (Throw NO_OFFER, tr0)
            end env tr = (Ok offer, tr ++ evs)).
  { intros offer Hr. destruct (Hsame offer Hr) as (offerUri & -> & -> & Hfetch).
    exact Hfetch. }
  destruct (params_get params "credential_offer") as [raw |] eqn:Hraw; cbn [present].
  - destruct (String.eqb raw EmptyString) eqn:He; cbn [negb].
    + exists r, evs. split; [exact Hrun |]. split; [exact Hevs |]. split; [exact Hretry |].
      rewrite Hmissing. split; [intros Hp; now split | now intros [_ Hp]].
    + exists (rbind (decodeURIComponent raw) JSON.parse), []. rewrite app_nil_r.
      cbn [negb]. split; [reflexivity |]. split; [now left |]. split.
      * intros offer Hr. now rewrite <- Hr.
      * split; [intros Hp; now apply inline_offer_never_missing in Hp |].
        intros [Hp _]; discriminate.
  - exists r, evs. split; [exact Hrun |]. split; [exact Hevs |]. split; [exact Hretry |].
    rewrite Hmissing. split; [intros Hp; now split | now intros [_ Hp]].
Qed.

(** ** Configuration selection and the credential type *)

Lemma pick_loop_member (entries : list (string * value)) (e : string * value) :
  pick_loop entries = Ok (Some e) -> In e entries.
Proof.
  induction entries as [| [id conf] rest IH]; cbn [pick_loop]; [discriminate |].
  destruct (get_prop conf "format") as [f | |]; cbn [rbind]; try discriminate.
  destruct (eq_lit f "jwt_vc_json" || eq_lit f "jwt_vc").
  - intros H. injection H as <-. now left.
  - intros H. right. now apply IH.
Qed.

Lemma pick_loop_type_error (entries : list (string * value)) (e : exn) :
  pick_loop entries = Throw e -> exists message, e = TypeError message.
Proof.
  induction entries as [| [id conf] rest IH]; cbn [pick_loop]; [discriminate |].
  destruct (get_prop conf "format") as [f | e' |] eqn:Hf; cbn [rbind]; try discriminate.
  - destruct (eq_lit f "jwt_vc_json" || eq_lit f "jwt_vc"); [discriminate | exact IH].
  - intros H. injection H as <-. destruct conf; try discriminate Hf;
      cbn in Hf; try (destruct (lookup "format" props); discriminate);
      injection Hf as <-; eauto.
Qed.

Lemma first_entry_member (entries : list (string * value)) (e : string * value) :
  first_entry entries = Ok e -> In e entries.
Proof. destruct entries; cbn; [discriminate |]. intros H. injection H as <-. now left. Qed.

(** X5: configuration selection never invents a configuration: what it
    returns is one of the entries it was given; and it throws "No credential
    configurations discovered" exactly when there is no entry. *)
Theorem selection_among_entries (entries : list (string * value)) :
  (pick_config entries = Throw NO_CONFIGURATIONS <-> entries = [])
  /\ (forall e, pick_config entries = Ok e -> In e entries).
Proof.
  destruct entries as [| first rest]; [split; [split; reflexivity | discriminate] |].
  unfold pick_config. cbn [List.length Nat.eqb].
  destruct (pick_loop (first :: rest)) as [[[pickedId picked] |] | e |] eqn:Hloop;
    cbn [rbind first_entry].
  - split; [split; [| discriminate] |].
    + destruct (negb (truthy (VStr pickedId))); discriminate.
    + intros e. destruct (negb (truthy (VStr pickedId))); intros H; injection H as <-.
      * now left.
      * now apply pick_loop_member.
  - split; [split; discriminate |]. intros e H. injection H as <-. now left.
  - split; [split; [| discriminate] | discriminate].
    intros H. injection H as ->. destruct (pick_loop_type_error _ _ Hloop). discriminate.
  - split; [split; discriminate | discriminate].
Qed.

Lemma get_first_truthy (t : value) : truthy t = true -> exists first, get_first t = Ok first.
Proof.
  destruct t; try discriminate; intros _; cbn [get_first]; eauto.
  unfold get_prop. destruct (lookup "0" props); eauto.
Qed.

(** X6: for a configuration that is an object, an array or any other value
    but [undefined] and [null], the credential type is never falsy: it is
    the first of the configuration's [types] when that is truthy, and
    ['VerifiableId'] when [types] is missing or falsy or its first element
    is. *)
Theorem credential_type_never_falsy (picked : value) :
  nullish picked = false ->
  exists t,
    credential_type picked = Ok t
    /\ truthy t = true
    /\ (truthy (field picked "types") = false -> t = VStr "VerifiableId")
    /\ (forall first,
          truthy (field picked "types") = true ->
          get_first (field picked "types") = Ok first ->
          t = js_or first (VStr "VerifiableId")).
Proof.
  intros Hpicked. unfold credential_type.
  rewrite (get_prop_field picked "types" Hpicked). cbn [rbind].
  destruct (truthy (field picked "types")) eqn:Htypes.
  - cbn [rbind].
    destruct (get_first_truthy _ Htypes) as [first Hfirst]. rewrite Hfirst. cbn [rbind].
    exists (js_or first (VStr "VerifiableId")). repeat split.
    + unfold js_or. now destruct (truthy first) eqn:Hf.
    + discriminate.
    + intros first' _ H. now injection H as <-.
  - cbn [rbind]. exists (VStr "VerifiableId"). unfold js_or. rewrite Htypes.
    repeat split. discriminate.
Qed.

Lemma credential_type_never_falsy_witness :
  exists t,
    credential_type (VObj [("format", VStr "jwt_vc_json"); ("types", VArr [])]) = Ok t
    /\ truthy t = true
    /\ (truthy (field (VObj [("format", VStr "jwt_vc_json"); ("types", VArr [])]) "types")
        = false -> t = VStr "VerifiableId")
    /\ (forall first,
          truthy (field (VObj [("format", VStr "jwt_vc_json"); ("types", VArr [])]) "types")
          = true ->
          get_first (field (VObj [("format", VStr "jwt_vc_json"); ("types", VArr [])]) "types")
          = Ok first ->
          t = js_or first (VStr "VerifiableId")).
Proof.
  apply (credential_type_never_falsy (VObj [("format", VStr "jwt_vc_json"); ("types", VArr [])])).
  reflexivity.
Defined.

(** ** Discovery without configurations *)

(** X7: when the issuer metadata lists no configuration (the member is
    missing or falsy, or it has no entries), the run ends with exit code 1
    after the metadata request, its only request: no key is generated and
    nothing is posted. *)
Theorem no_configuration_single_request
    (env : environment) (tr : list event) (issuerMeta : value) :
  server env (tr ++ discovery_logs) (GET METADATA_URL) = Resolved issuerMeta ->
  config_entries issuerMeta = Ok [] ->
  main env tr
  = (Ok 1%Z,
     tr ++ discovery_events (Resolved issuerMeta)
        ++ [Console Log [str "Successfully discovered issuer configurations"];
            ERROR_BANNER; Console Err [AErr NO_CONFIGURATIONS]]).
Proof.
  intros Hserver Hentries. rewrite main_run.
  unfold main_try, main_prepare, discoverIssuerConfigs, console_log, axios_get.
  run. rewrite <- !app_assoc. cbn [app].
  unfold discovery_logs, METADATA_URL in Hserver. rewrite Hserver, Hentries.
  cbn. unfold discovery_events, discovery_logs. rewrite <- !app_assoc. reflexivity.
Qed.

Lemma no_configuration_single_request_witness :
  main empty_issuer_environment []
  = (Ok 1%Z,
     [] ++ discovery_events (Resolved empty_metadata)
        ++ [Console Log [str "Successfully discovered issuer configurations"];
            ERROR_BANNER; Console Err [AErr NO_CONFIGURATIONS]]).
Proof.
  apply (no_configuration_single_request empty_issuer_environment [] empty_metadata);
    reflexivity.
Defined.

(** ** The order of requests *)

Lemma targets_app (evs evs' : list event) : targets (evs ++ evs') = targets evs ++ targets evs'.
Proof.
  induction evs as [| ev evs IH]; [reflexivity |].
  destruct ev; cbn [app targets]; now rewrite ?IH.
Qed.

Lemma prefix_of_refl (l : list string) : prefix_of l l.
Proof. exists []. now rewrite app_nil_r. Qed.

Lemma prefix_of_nil (l : list string) : prefix_of [] l.
Proof. now exists l. Qed.

Lemma prefix_of_app (l l1 l2 : list string) : prefix_of l1 l2 -> prefix_of (l ++ l1) (l ++ l2).
Proof. intros [rest ->]. exists rest. now rewrite app_assoc. Qed.

Lemma prefix_of_extend (l l1 l2 : list string) : prefix_of l l1 -> prefix_of l (l1 ++ l2).
Proof. intros [rest ->]. exists (rest ++ l2). now rewrite app_assoc. Qed.

Lemma sends_weaken {A : Type} (m : M A) (L L' : list string -> Prop) :
  (forall l, L l -> L' l) -> sends m L -> sends m L'.
Proof.
  intros Himp Hm env tr. destruct (Hm env tr) as (r & evs & l & Hrun & Hl & Hp & Hok).
  exists r, evs, l. auto.
Qed.

Lemma sends_bind {A B : Type} (m : M A) (k : A -> M B) (L1 L2 : list string -> Prop) :
  sends m L1 ->
  (forall a, sends (k a) L2) ->
  (exists l, L2 l) ->
  sends (bind m k) (fun l => exists l1 l2, L1 l1 /\ L2 l2 /\ l = l1 ++ l2).
Proof.
  intros Hm Hk [l0 Hl0] env tr. unfold bind.
  destruct (Hm env tr) as (r & evs & l1 & Hrun & Hl1 & Hp & Hok). rewrite Hrun.
  destruct r as [a | e |].
  - destruct (Hk a env (tr ++ evs)) as (r' & evs' & l2 & Hrun' & Hl2 & Hp' & Hok').
    exists r', (evs ++ evs'), (l1 ++ l2). rewrite Hrun', app_assoc, targets_app.
    rewrite (Hok a eq_refl). repeat split.
    + now exists l1, l2.
    + now apply prefix_of_app.
    + intros b Hb. now rewrite (Hok' b Hb).
  - exists (Throw e), evs, (l1 ++ l0). repeat split.
    + now exists l1, l0.
    + now apply prefix_of_extend.
    + discriminate.
  - exists Unsupported, evs, (l1 ++ l0). repeat split.
    + now exists l1, l0.
    + now apply prefix_of_extend.
    + discriminate.
Qed.

Lemma sends_after {A B : Type} (m : M A) (k : A -> M B) (L : list string -> Prop) :
  silent m -> (forall a, sends (k a) L) -> (exists l, L l) -> sends (bind m k) L.
Proof.
  intros Hm Hk Hl.
  refine (sends_weaken _ _ L _ (sends_bind m k (eq []) L Hm Hk Hl)).
  intros l (l1 & l2 & <- & Hl2 & ->). exact Hl2.
Qed.

Lemma sends_before {A B : Type} (m : M A) (k : A -> M B) (L : list string -> Prop) :
  sends m L -> (forall a, silent (k a)) -> sends (bind m k) L.
Proof.
  intros Hm Hk.
  refine (sends_weaken _ _ L _ (sends_bind m k L (eq []) Hm Hk (ex_intro _ [] eq_refl))).
  intros l (l1 & l2 & Hl1 & <- & ->). now rewrite app_nil_r.
Qed.

Lemma sends_then {A B : Type} (m : M A) (k : A -> M B) (l1 l2 : list string) :
  sends m (eq l1) -> (forall a, sends (k a) (eq l2)) -> sends (bind m k) (eq (l1 ++ l2)).
Proof.
  intros Hm Hk.
  refine (sends_weaken _ _ _ _ (sends_bind m k _ _ Hm Hk (ex_intro _ l2 eq_refl))).
  intros l (l1' & l2' & <- & <- & ->). reflexivity.
Qed.

Lemma silent_bind {A B : Type} (m : M A) (k : A -> M B) :
  silent m -> (forall a, silent (k a)) -> silent (bind m k).
Proof. intros Hm Hk. exact (sends_then m k [] [] Hm Hk). Qed.

Lemma silent_run {A : Type} (m : M A) :
  (forall env tr, exists r evs, m env tr = (r, tr ++ evs) /\ targets evs = []) -> silent m.
Proof.
  intros H env tr. destruct (H env tr) as (r & evs & Hrun & Ht).
  exists r, evs, []. rewrite Ht. repeat split; [assumption | apply prefix_of_nil].
Qed.

Lemma silent_ret {A : Type} (a : A) : silent (ret a).
Proof. apply silent_run. intros env tr. exists (Ok a), []. now rewrite app_nil_r. Qed.

Lemma silent_lift {A : Type} (r : result A) : silent (lift r).
Proof. apply silent_run. intros env tr. exists r, []. now rewrite app_nil_r. Qed.

Lemma silent_throw {A : Type} (e : exn) : silent (@throw A e).
Proof. apply silent_lift. Qed.

Lemma silent_emit (ev : event) : targets [ev] = [] -> silent (emit ev).
Proof. intros H. apply silent_run. intros env tr. now exists (Ok tt), [ev]. Qed.

Lemma silent_generateKeyPair (alg : string) : silent (generateKeyPair alg).
Proof. apply silent_run. intros env tr. rewrite generateKeyPair_run. eauto. Qed.

Lemma silent_exportJWK (key : nat) : silent (exportJWK key).
Proof. apply silent_run. intros env tr. rewrite exportJWK_run. eauto. Qed.

Lemma silent_random_uuid : silent random_uuid.
Proof. apply silent_run. intros env tr. unfold random_uuid. eauto. Qed.

Lemma silent_date_now : silent date_now.
Proof. apply silent_run. intros env tr. unfold date_now. eauto. Qed.

Lemma silent_to_iso (ms : Z) : silent (to_iso ms).
Proof.
  apply silent_run. intros env tr. exists (Ok (iso_string env ms)), []. now rewrite app_nil_r.
Qed.

Lemma silent_sign_jwt (claims header : value) (key : nat) : silent (sign_jwt claims header key).
Proof.
  apply silent_run. intros env tr.
  destruct claims;
    try (eexists _, []; rewrite app_nil_r; split; reflexivity).
  rewrite sign_jwt_run, <- app_assoc. eauto.
Qed.

Lemma sends_request (req : http_request) : sends (request req) (eq [target req]).
Proof.
  intros env tr. rewrite request_run.
  exists (outcome (server env tr req)), [Http req (server env tr req)], [target req].
  repeat split. apply prefix_of_refl.
Qed.

Ltac silent_step :=
  first
    [ apply silent_ret
    | apply silent_sign_jwt
    | apply silent_bind; [| intros ?]
    | apply silent_emit; reflexivity
    | apply silent_generateKeyPair
    | apply silent_exportJWK
    | apply silent_random_uuid
    | apply silent_date_now
    | apply silent_to_iso
    | apply silent_throw
    | apply silent_lift ].

Ltac silent_script :=
  unfold console_log, console_warn, console_error, sleep;
  repeat silent_step.

Lemma silent_if {A : Type} (b : bool) (m1 m2 : M A) :
  silent m1 -> silent m2 -> silent (if b then m1 else m2).
Proof. now destruct b. Qed.

Lemma sends_throw {A : Type} (e : exn) (L : list string -> Prop) :
  (exists l, L l) -> sends (@throw A e) L.
Proof.
  intros [l Hl] env tr. exists (Throw e), [], l. rewrite app_nil_r.
  repeat split; [assumption | apply prefix_of_nil | discriminate].
Qed.

Lemma sends_cons {A B : Type} (m : M A) (k : A -> M B) (t : string)
    (L : list string -> Prop) :
  sends m (eq [t]) -> (forall a, sends (k a) L) -> (exists l, L l) ->
  sends (bind m k) (fun l => exists l', L l' /\ l = t :: l').
Proof.
  intros Hm Hk Hl.
  refine (sends_weaken _ _ _ _ (sends_bind m k _ _ Hm Hk Hl)).
  intros l (l1 & l2 & <- & Hl2 & ->). now exists l2.
Qed.

Ltac sends_tail :=
  repeat
    match goal with
    | |- sends (bind _ _) _ =>
        apply sends_after; [solve [silent_script] | intros ? | eexists; reflexivity]
    end.

Lemma sends_discoverIssuerConfigs :
  sends discoverIssuerConfigs (eq [("GET " ++ METADATA_URL)%string]).
Proof. unfold discoverIssuerConfigs, axios_get. sends_tail. apply sends_request. Qed.

Lemma silent_generateEd25519Jwk : silent generateEd25519Jwk.
Proof. unfold generateEd25519Jwk. silent_script. Qed.

Lemma sends_startIssuance (jwk : list (string * value)) (id : string) (credentialType : value) :
  sends (startIssuance jwk id credentialType) (eq [("POST " ++ ISSUE_URL)%string]).
Proof. unfold startIssuance, axios_post. sends_tail. apply sends_request. Qed.

Lemma sends_exchangePreAuthorizedCode (code : value) :
  sends (exchangePreAuthorizedCode code) (eq [("POST " ++ TOKEN_URL)%string]).
Proof. unfold exchangePreAuthorizedCode, axios_post. sends_tail. apply sends_request. Qed.

Lemma silent_createProofOfPossession (holderKey : keypair) (audience : string) (nonce : value) :
  silent (createProofOfPossession holderKey audience nonce).
Proof. unfold createProofOfPossession. silent_script. Qed.

Lemma sends_requestCredential (accessToken : value) (id : string) (tokenResponse : value)
    (holderKey : keypair) :
  sends (requestCredential accessToken id tokenResponse holderKey)
    (eq [("POST " ++ CREDENTIAL_URL)%string]).
Proof.
  unfold requestCredential, axios_post.
  apply sends_after; [silent_script | intros _ | eauto].
  apply sends_after; [silent_script | intros c_nonce | eauto].
  apply sends_after; [| intros payload | eauto].
  - apply silent_if; [| silent_script].
    apply silent_bind; [silent_script | intros _].
    apply silent_bind; [silent_script | intros _].
    apply silent_bind; [apply silent_createProofOfPossession | intros proof].
    silent_script.
  - sends_tail. apply sends_request.
Qed.

Lemma sends_startVerification (credentialType : value) :
  sends (startVerification credentialType) (eq [("POST " ++ VERIFY_URL)%string]).
Proof. unfold startVerification, axios_post. sends_tail. apply sends_request. Qed.

Lemma targets_retry_events (delayMs : Z) (offerUri : string)
    (failures : list (option (Z * value))) :
  targets (retry_events delayMs offerUri failures)
  = repeat ("GET " ++ offerUri)%string (List.length failures).
Proof.
  induction failures as [| response failures IH]; [reflexivity |].
  cbn [retry_events flat_map app targets target List.length repeat].
  fold (retry_events delayMs offerUri failures). now rewrite IH.
Qed.

Lemma repeat_snoc (t : string) (n : nat) : repeat t n ++ [t] = repeat t (S n).
Proof. induction n as [| n IH]; [reflexivity |]. cbn [repeat app]. now rewrite IH. Qed.

Lemma retrievals_nil : retrievals [].
Proof. exists EmptyString, 0. split; [unfold DEFAULT_ATTEMPTS; lia | reflexivity]. Qed.

Lemma sends_resolveOfferIfUri (offerUrl : value) : sends (resolveOfferIfUri offerUrl) retrievals.
Proof.
  unfold resolveOfferIfUri.
  apply sends_after; [silent_script | intros query | exists []; apply retrievals_nil].
  assert (Hquiet : forall A (m : M A), silent m -> sends m retrievals).
  { intros A m. apply sends_weaken. intros l <-. apply retrievals_nil. }
  destruct (present _); [apply Hquiet, silent_lift |].
  destruct (params_get _ "credential_offer_uri") as [offerUri |];
    [| apply Hquiet, silent_throw].
  destruct (String.eqb offerUri EmptyString); [apply Hquiet, silent_throw |].
  intros env tr. unfold fetchCredentialOfferWithRetry, DEFAULT_ATTEMPTS.
  destruct (fetch_loop_run offerUri 5 DEFAULT_DELAY_MS 4 0 env tr eq_refl)
    as (failures & last & Hrun & Hlen & _).
  exists (outcome last),
    (retry_events DEFAULT_DELAY_MS offerUri failures ++ [Http (GET offerUri) last]),
    (repeat ("GET " ++ offerUri)%string (S (List.length failures))).
  rewrite targets_app, targets_retry_events. cbn [targets target]. rewrite repeat_snoc.
  repeat split.
  - exact Hrun.
  - exists offerUri, (S (List.length failures)). split; [unfold DEFAULT_ATTEMPTS; lia | reflexivity].
  - apply prefix_of_refl.
Qed.

Lemma sends_main_prepare :
  sends main_prepare
    (fun l => exists l', (exists l'', retrievals l'' /\ l' = ("POST " ++ ISSUE_URL)%string :: l'')
                         /\ l = ("GET " ++ METADATA_URL)%string :: l').
Proof.
  assert (Hsome : exists l, retrievals l) by (exists []; apply retrievals_nil).
  assert (Hsome' : exists l', exists l'', retrievals l''
                                          /\ l' = ("POST " ++ ISSUE_URL)%string :: l'').
  { destruct Hsome as [l Hl]. eauto. }
  unfold main_prepare.
  apply sends_after; [silent_script | intros _ | destruct Hsome' as [l Hl]; eauto].
  apply sends_after; [silent_script | intros _ | destruct Hsome' as [l Hl]; eauto].
  apply sends_cons; [apply sends_discoverIssuerConfigs | intros issuerMeta | exact Hsome'].
  apply sends_after; [silent_script | intros _ | exact Hsome'].
  apply sends_after; [silent_script | intros entries | exact Hsome'].
  apply sends_after; [silent_script | intros pick | exact Hsome'].
  apply sends_after; [silent_script | intros credentialType | exact Hsome'].
  apply sends_after; [silent_script | intros _ | exact Hsome'].
  apply sends_after; [silent_script | intros _ | exact Hsome'].
  apply sends_after; [apply silent_generateEd25519Jwk | intros issuer | exact Hsome'].
  apply sends_after; [silent_script | intros _ | exact Hsome'].
  apply sends_after; [silent_script | intros holderKey | exact Hsome'].
  apply sends_after; [silent_script | intros _ | exact Hsome'].
  apply sends_cons; [apply sends_startIssuance | intros issuanceUrl | exact Hsome].
  apply sends_after; [silent_script | intros _ | exact Hsome].
  apply sends_after; [silent_script | intros _ | exact Hsome].
  apply sends_before; [apply sends_resolveOfferIfUri | intros offer].
  silent_script.
Qed.

Lemma sends_main_redeem (pickedId : string) (holderKey : keypair) (offer : value) :
  sends (main_redeem pickedId holderKey offer)
    (eq [("POST " ++ TOKEN_URL)%string; ("POST " ++ CREDENTIAL_URL)%string]).
Proof.
  unfold main_redeem.
  apply sends_after; [silent_script | intros code | eauto].
  destruct (negb (truthy code)); [apply sends_throw; eauto |].
  sends_tail.
  apply (sends_then _ _ [("POST " ++ TOKEN_URL)%string] [("POST " ++ CREDENTIAL_URL)%string]);
    [apply sends_exchangePreAuthorizedCode | intros tokenResp].
  sends_tail. apply sends_requestCredential.
Qed.

Lemma sends_main_finish (credentialType credentialResp : value) :
  sends (main_finish credentialType credentialResp) (eq [("POST " ++ VERIFY_URL)%string]).
Proof.
  unfold main_finish.
  apply sends_after; [silent_script | intros keys | eauto].
  apply sends_after; [silent_script | intros _ | eauto].
  apply sends_after; [silent_script | intros credentialJwt | eauto].
  apply sends_after; [apply silent_if; silent_script | intros _ | eauto].
  apply sends_after; [silent_script | intros _ | eauto].
  apply sends_before; [apply sends_startVerification | intros verifySession].
  silent_script.
Qed.

Lemma sends_main_try : sends main_try protocol.
Proof.
  unfold main_try.
  refine (sends_weaken _ _ _ _
            (sends_bind _ _ _
               (eq [("POST " ++ TOKEN_URL)%string; ("POST " ++ CREDENTIAL_URL)%string;
                    ("POST " ++ VERIFY_URL)%string])
               sends_main_prepare _ (ex_intro _ _ eq_refl))).
  - intros l (l1 & l2 & (l' & (l'' & (offerUri & count & Hcount & ->) & ->) & ->) & <- & ->).
    now exists offerUri, count.
  - intros [[[pickedId credentialType] holderKey] offer].
    apply (sends_then _ _ [("POST " ++ TOKEN_URL)%string; ("POST " ++ CREDENTIAL_URL)%string]
             [("POST " ++ VERIFY_URL)%string]);
      [apply sends_main_redeem | intros credentialResp; apply sends_main_finish].
Qed.

Lemma targets_error_report (e : exn) : targets [ERROR_BANNER; error_report e] = [].
Proof. unfold error_report. destruct (response_of e) as [[status data] |]; reflexivity. Qed.

(** X8: the requests of a run, whatever the issuer and the verifier
    answer, are in this order: the metadata, the issuance, up to five
    retrievals of one offer URI, the token, the credential, the verification
    session.  A run that ends early has made a prefix of this sequence; a
    run that ends with exit code 0 has made all of it. *)
Theorem requests_in_order (env : environment) (tr : list event) :
  exists r evs l,
    main env tr = (r, tr ++ evs)
    /\ protocol l
    /\ prefix_of (targets evs) l
    /\ (r = Ok 0%Z -> targets evs = l).
Proof.
  rewrite main_run.
  destruct (sends_main_try env tr) as (r & evs & l & Hrun & Hl & Hp & Hok). rewrite Hrun.
  destruct r as [[] | e |].
  - exists (Ok 0%Z), evs, l. repeat split; try assumption. intros _. now apply (Hok tt).
  - rewrite main_catch_run.
    exists (Ok 1%Z), (evs ++ [ERROR_BANNER; error_report e]), l.
    rewrite app_assoc, targets_app, targets_error_report, app_nil_r.
    repeat split; try assumption. discriminate.
  - exists Unsupported, evs, l. repeat split; try assumption. discriminate.
Qed.

(** ** One configuration and one type throughout *)

Lemma bind_assoc_run {A B C : Type} (m : M A) (k : A -> M B) (k' : B -> M C)
    (env : environment) (tr : list event) :
  bind (bind m k) k' env tr = bind m (fun a => bind (k a) k') env tr.
Proof. unfold bind. destruct (m env tr) as [[a | e |] tr']; reflexivity. Qed.

Lemma bind_emit_run {B : Type} (ev : event) (k : unit -> M B)
    (env : environment) (tr : list event) :
  bind (emit ev) k env tr = k tt env (tr ++ [ev]).
Proof. reflexivity. Qed.

Lemma bind_request_run {B : Type} (req : http_request) (k : value -> M B)
    (env : environment) (tr : list event) :
  bind (request req) k env tr
  = match server env tr req with
    | Resolved data => k data env (tr ++ [Http req (Resolved data)])
    | Rejected response =>
        (Throw (AxiosError response), tr ++ [Http req (Rejected response)])
    end.
Proof. unfold bind. rewrite request_run. now destruct (server env tr req). Qed.

Lemma hoare_obeys {A : Type} (P : event -> Prop) (m : M A) :
  obeys P m -> hoare P m (fun _ => True).
Proof.
  intros H env tr. destruct (obeys_run P m H env tr) as (r & evs & Hrun & Hall).
  exists r, evs. auto.
Qed.

Lemma hoare_bind {A B : Type} (P : event -> Prop) (m : M A) (k : A -> M B)
    (Q1 : A -> Prop) (Q : B -> Prop) :
  hoare P m Q1 -> (forall a, Q1 a -> hoare P (k a) Q) -> hoare P (bind m k) Q.
Proof.
  intros Hm Hk env tr. unfold bind.
  destruct (Hm env tr) as (r & evs & Hrun & Hall & Hq). rewrite Hrun.
  destruct r as [a | e |].
  - destruct (Hk a (Hq a eq_refl) env (tr ++ evs)) as (r' & evs' & Hrun' & Hall' & Hq').
    exists r', (evs ++ evs'). rewrite Hrun', app_assoc. repeat split; [| assumption].
    apply Forall_app. now split.
  - exists (Throw e), evs. repeat split; [assumption | discriminate].
  - exists Unsupported, evs. repeat split; [assumption | discriminate].
Qed.

Lemma hoare_then {A B : Type} (P : event -> Prop) (m : M A) (k : A -> M B) (Q : B -> Prop) :
  obeys P m -> (forall a, hoare P (k a) Q) -> hoare P (bind m k) Q.
Proof.
  intros Hm Hk. apply (hoare_bind P m k (fun _ => True)); [now apply hoare_obeys | auto].
Qed.

Lemma hoare_ret {A : Type} (P : event -> Prop) (a : A) (Q : A -> Prop) :
  Q a -> hoare P (ret a) Q.
Proof.
  intros H env tr. exists (Ok a), []. rewrite app_nil_r. repeat split; [constructor |].
  intros a' Ha. now injection Ha as <-.
Qed.

Lemma hoare_lift {A : Type} (P : event -> Prop) (r : result A) :
  hoare P (lift r) (fun a => r = Ok a).
Proof.
  intros env tr. exists r, []. rewrite app_nil_r. repeat split; [constructor | auto].
Qed.

Lemma hoare_weaken {A : Type} (P P' : event -> Prop) (m : M A) (Q Q' : A -> Prop) :
  (forall ev, P ev -> P' ev) -> (forall a, Q a -> Q' a) -> hoare P m Q -> hoare P' m Q'.
Proof.
  intros Hp Hq Hm env tr. destruct (Hm env tr) as (r & evs & Hrun & Hall & Hpost).
  exists r, evs. repeat split; [assumption | | auto].
  now apply (Forall_impl _ Hp).
Qed.

Lemma passive_names (pickedId : string) (credentialType : value) :
  passive (names pickedId credentialType).
Proof. intros ev H. destruct ev; try exact I. discriminate H. Qed.

Ltac names_request :=
  unfold names;
  repeat match goal with |- _ /\ _ => split end;
  intros Hurl; try (vm_compute in Hurl; discriminate Hurl);
  repeat split; try reflexivity; try assumption.

Ltac obeys_passive H :=
  unfold console_log, console_warn, console_error, axios_get, axios_post, sleep;
  repeat obeys_step;
  try (apply H; reflexivity).

Lemma obeys_resolveOfferIfUri (P : event -> Prop) (offerUrl : value) :
  passive P ->
  (forall offerUri reply, P (Http (GET offerUri) reply)) ->
  obeys P (resolveOfferIfUri offerUrl).
Proof.
  intros Hp Hget. unfold resolveOfferIfUri. apply obeys_bind; [obeys_script |]. intros query.
  destruct (present _); [obeys_script |].
  destruct (params_get _ "credential_offer_uri") as [offerUri |]; [| obeys_script].
  destruct (String.eqb offerUri EmptyString); [obeys_script |].
  unfold fetchCredentialOfferWithRetry.
  apply (obeys_fetch_loop P offerUri); [apply Hget | now apply Hp].
Qed.

Lemma names_startIssuance (jwk : list (string * value)) (id : string) (credentialType : value) :
  obeys (names id credentialType) (startIssuance jwk id credentialType).
Proof.
  unfold startIssuance. obeys_passive (passive_names id credentialType).
  names_request.
Qed.

Lemma names_requestCredential (accessToken : value) (id : string) (credentialType : value)
    (tokenResponse : value) (holderKey : keypair) :
  hoare (names id credentialType)
    (requestCredential accessToken id tokenResponse holderKey) (fun _ => True).
Proof.
  pose proof (passive_names id credentialType) as Hp.
  unfold requestCredential.
  apply hoare_then; [obeys_passive Hp | intros _].
  apply hoare_then; [obeys_passive Hp | intros c_nonce].
  apply (hoare_bind _ _ _
           (fun payload => field (VObj payload) "credential_configuration_id" = VStr id)).
  - destruct (truthy c_nonce); [| now apply hoare_ret].
    apply hoare_then; [obeys_passive Hp | intros _].
    apply hoare_then; [obeys_passive Hp | intros _].
    apply hoare_then; [unfold createProofOfPossession; obeys_passive Hp | intros proof].
    apply hoare_then; [obeys_passive Hp | intros _].
    now apply hoare_ret.
  - intros payload Hpayload. apply hoare_obeys. obeys_passive Hp.
    names_request.
Qed.

Lemma names_main_redeem (id : string) (credentialType : value) (holderKey : keypair)
    (offer : value) :
  hoare (names id credentialType) (main_redeem id holderKey offer) (fun _ => True).
Proof.
  pose proof (passive_names id credentialType) as Hp.
  unfold main_redeem. apply hoare_then; [obeys_passive Hp | intros code].
  destruct (negb (truthy code)); [apply hoare_obeys; obeys_passive Hp |].
  apply hoare_then; [obeys_passive Hp | intros _].
  apply hoare_then; [obeys_passive Hp | intros _].
  apply hoare_then; [unfold exchangePreAuthorizedCode; obeys_passive Hp; exact I
                    | intros tokenResp].
  apply hoare_then; [obeys_passive Hp | intros accessToken].
  apply hoare_then; [obeys_passive Hp | intros c_nonce].
  apply hoare_then; [obeys_passive Hp | intros _].
  apply hoare_then; [obeys_passive Hp | intros _].
  apply names_requestCredential.
Qed.

Lemma names_main_finish (id : string) (credentialType credentialResp : value) :
  obeys (names id credentialType) (main_finish credentialType credentialResp).
Proof.
  pose proof (passive_names id credentialType) as Hp.
  unfold main_finish.
  apply obeys_bind; [obeys_passive Hp | intros keys].
  apply obeys_bind; [obeys_passive Hp | intros _].
  apply obeys_bind; [obeys_passive Hp | intros credentialJwt].
  apply obeys_bind; [destruct (negb (truthy credentialJwt)); obeys_passive Hp | intros _].
  unfold startVerification. obeys_passive Hp.
  names_request.
Qed.

Lemma names_after_preparation (issuerMeta : value)
    (prepared : string * value * keypair * value) :
  (forall entries pick credentialType,
     config_entries issuerMeta = Ok entries ->
     pick_config entries = Ok pick ->
     credential_type (snd pick) = Ok credentialType ->
     fst (fst (fst prepared)) = fst pick /\ snd (fst (fst prepared)) = credentialType) ->
  hoare (names_from issuerMeta)
    (let '(pickedId, credentialType, holderKey, offer) := prepared in
     bind (main_redeem pickedId holderKey offer) (main_finish credentialType))
    (fun _ => True).
Proof.
  destruct prepared as [[[pickedId credentialType] holderKey] offer]. cbn [fst snd].
  intros Hprepared.
  apply (hoare_weaken (names pickedId credentialType) _ _ (fun _ => True)); [| auto |].
  - intros ev Hev entries pick credentialType' H1 H2 H3.
    now destruct (Hprepared _ _ _ H1 H2 H3) as [<- <-].
  - apply (hoare_bind _ _ _ _ _ (names_main_redeem _ _ _ _)). intros credentialResp _.
    apply hoare_obeys, names_main_finish with (id := pickedId).
Qed.

Lemma main_try_discovery (env : environment) (tr : list event) :
  exists reply r evs,
    main_try env tr = (r, ((tr ++ discovery_logs) ++ [Http (GET METADATA_URL) reply]) ++ evs)
    /\ (forall issuerMeta, reply = Resolved issuerMeta -> Forall (names_from issuerMeta) evs)
    /\ (forall response,
          reply = Rejected response -> evs = [] /\ r = Throw (AxiosError response)).
Proof.
  unfold main_try, main_prepare, discoverIssuerConfigs, console_log, axios_get.
  rewrite bind_assoc_run, bind_emit_run.
  rewrite bind_assoc_run, bind_emit_run.
  rewrite !bind_assoc_run, bind_emit_run, bind_request_run.
  rewrite <- !app_assoc. cbn [app].
  change (tr ++ _) with (tr ++ discovery_logs).
  change (GET _) with (GET METADATA_URL).
  destruct (server env (tr ++ discovery_logs) (GET METADATA_URL)) as [issuerMeta | response].
  2: { exists (Rejected response), (Throw (AxiosError response)), [].
       rewrite app_nil_r. split; [reflexivity |]. split; [discriminate |].
       intros response' Hr. now injection Hr as <-. }
  match goal with
  | |- context [@bind ?A ?B ?m ?k env (_ ++ [Http _ _])] =>
      assert (Hrest : hoare (names_from issuerMeta) (@bind A B m k) (fun _ => True))
  end.
  { apply (hoare_bind _ _ _
             (fun prepared =>
                forall entries pick credentialType,
                  config_entries issuerMeta = Ok entries ->
                  pick_config entries = Ok pick ->
                  credential_type (snd pick) = Ok credentialType ->
                  fst (fst (fst prepared)) = fst pick
                  /\ snd (fst (fst prepared)) = credentialType));
      [| apply names_after_preparation].
    assert (Hp : passive (names_from issuerMeta)).
    { intros ev Hev entries pick credentialType _ _ _. now apply passive_names. }
    apply hoare_then; [obeys_passive Hp | intros _].
    apply (hoare_bind _ _ _ _ _ (hoare_lift _ _)). intros entries Hentries.
    apply (hoare_bind _ _ _ _ _ (hoare_lift _ _)). intros pick Hpick. cbv zeta.
    apply (hoare_bind _ _ _ _ _ (hoare_lift _ _)). intros credentialType Htype.
    apply (hoare_weaken (names (fst pick) credentialType) _ _
             (fun prepared => fst (fst (fst prepared)) = fst pick
                              /\ snd (fst (fst prepared)) = credentialType)).
    - intros ev Hev entries' pick' credentialType' H1 H2 H3.
      rewrite Hentries in H1. injection H1 as <-.
      rewrite Hpick in H2. injection H2 as <-.
      rewrite Htype in H3. injection H3 as <-. exact Hev.
    - intros prepared Hprepared entries' pick' credentialType' H1 H2 H3.
      rewrite Hentries in H1. injection H1 as <-.
      rewrite Hpick in H2. injection H2 as <-.
      rewrite Htype in H3. injection H3 as <-. exact Hprepared.
    - pose proof (passive_names (fst pick) credentialType) as Hn.
      apply hoare_then; [obeys_passive Hn | intros _].
      apply hoare_then; [obeys_passive Hn | intros _].
      apply hoare_then; [unfold generateEd25519Jwk; obeys_passive Hn | intros issuer].
      apply hoare_then; [obeys_passive Hn | intros _].
      apply hoare_then; [obeys_passive Hn | intros holderKey].
      apply hoare_then; [obeys_passive Hn | intros _].
      apply hoare_then; [apply names_startIssuance | intros issuanceUrl].
      apply hoare_then; [obeys_passive Hn | intros _].
      apply hoare_then; [obeys_passive Hn | intros _].
      apply hoare_then; [apply obeys_resolveOfferIfUri; [exact Hn | intros; exact I]
                        | intros offer].
      apply hoare_then; [obeys_passive Hn | intros _].
      now apply hoare_ret. }
  destruct (Hrest env ((tr ++ discovery_logs) ++ [Http (GET METADATA_URL) (Resolved issuerMeta)]))
    as (r & evs & Hrun & Hall & _).
  exists (Resolved issuerMeta), r, evs. rewrite Hrun. split; [reflexivity |]. split.
  - intros issuerMeta' Hr. now injection Hr as <-.
  - discriminate.
Qed.

Lemma names_error_report (id : string) (credentialType : value) (e : exn) :
  Forall (names id credentialType) [ERROR_BANNER; error_report e].
Proof.
  unfold error_report. destruct (response_of e) as [[status data] |];
    repeat constructor.
Qed.

(** X9: one configuration and one credential type throughout a run.  A
    run starts with the metadata request; when that is answered with
    metadata from which selection draws a configuration identifier and a
    credential type, every later request of the run that names a
    configuration or a type names these: the issuance request in
    [credentialConfigurationId] and [credentialData.type], the credential
    request in [credential_configuration_id], the verification request in
    [request_credentials].  When the metadata request is rejected, the run
    reports the error and requests nothing more. *)
Theorem configuration_named_consistently (env : environment) (tr : list event) :
  exists reply r rest,
    main env tr = (r, tr ++ discovery_events reply ++ rest)
    /\ (forall issuerMeta entries pick credentialType,
          reply = Resolved issuerMeta ->
          config_entries issuerMeta = Ok entries ->
          pick_config entries = Ok pick ->
          credential_type (snd pick) = Ok credentialType ->
          Forall (names (fst pick) credentialType) rest)
    /\ (forall response,
          reply = Rejected response ->
          rest = [ERROR_BANNER; error_report (AxiosError response)]).
Proof.
  rewrite main_run.
  destruct (main_try_discovery env tr) as (reply & r & evs & Hrun & Hnames & Hrejected).
  rewrite Hrun. unfold discovery_events.
  assert (Hall : forall issuerMeta entries pick credentialType,
            reply = Resolved issuerMeta ->
            config_entries issuerMeta = Ok entries ->
            pick_config entries = Ok pick ->
            credential_type (snd pick) = Ok credentialType ->
            Forall (names (fst pick) credentialType) evs).
  { intros issuerMeta entries pick credentialType Hreply H1 H2 H3.
    refine (Forall_impl _ _ (Hnames issuerMeta Hreply)). intros ev Hev.
    now apply (Hev entries pick credentialType). }
  destruct r as [[] | e |].
  - exists reply, (Ok 0%Z), evs. rewrite <- !app_assoc. repeat split; [assumption |].
    intros response Hreply. now destruct (Hrejected response Hreply).
  - rewrite main_catch_run.
    exists reply, (Ok 1%Z), (evs ++ [ERROR_BANNER; error_report e]).
    rewrite <- !app_assoc. repeat split.
    + intros issuerMeta entries pick credentialType Hreply H1 H2 H3.
      apply Forall_app. split; [now apply (Hall issuerMeta entries) |].
      apply names_error_report.
    + intros response Hreply. destruct (Hrejected response Hreply) as [-> He].
      now injection He as ->.
  - exists reply, Unsupported, evs. rewrite <- !app_assoc. repeat split; [assumption |].
    intros response Hreply. now destruct (Hrejected response Hreply).
Qed.

(** ** The credential response *)

Lemma extract_credential_object (credentialResp credential : value) :
  extract_credential credentialResp = Ok credential -> nullish credentialResp = false.
Proof.
  unfold extract_credential. destruct credentialResp; try reflexivity; discriminate.
Qed.

(** X10: a credential that is not a string ends the run before the
    verification session.  When the credential response holds, under
    [credential], [jwt] or [vc], a truthy value that is not a string (an
    object, as a JSON-LD credential is), the run logs the keys of the
    response and then fails with a [TypeError] and exit code 1: no
    verification request is made. *)
Theorem credential_not_a_string
    (env : environment) (tr : list event)
    (pickedId : string) (credentialType : value) (holderKey : keypair) (offer : value)
    (tr1 : list event) (credentialResp : value) (tr2 : list event) (credential : value) :
  main_prepare env tr = (Ok (pickedId, credentialType, holderKey, offer), tr1) ->
  main_redeem pickedId holderKey offer env tr1 = (Ok credentialResp, tr2) ->
  extract_credential credentialResp = Ok credential ->
  truthy credential = true ->
  (forall s, credential <> VStr s) ->
  exists message,
    main env tr
    = (Ok 1%Z,
       tr2 ++ [Console Log [str "Credential response keys:"; AVal (keys_of credentialResp)];
               ERROR_BANNER; Console Err [AErr (TypeError message)]]).
Proof.
  intros Hprep Hredeem Hextract Htruthy Hstring.
  rewrite main_run, (main_steps _ _ _ _ _ _ _ _ _ Hprep Hredeem).
  pose proof (extract_credential_object _ _ Hextract) as Hn.
  unfold main_finish, console_log, object_keys. rewrite Hn, Hextract. run.
  rewrite Htruthy. cbn [negb]. fold (keys_of credentialResp).
  destruct credential; try discriminate Htruthy; cbn [substring_method];
    try (eexists; rewrite main_catch_run, <- app_assoc; reflexivity).
  now destruct (Hstring s).
Qed.

Lemma credential_not_a_string_witness :
  exists message,
    main object_credential_environment []
    = (Ok 1%Z,
       object_credential_redeemed
       ++ [Console Log [str "Credential response keys:";
                        AVal (keys_of object_credential_reply)];
           ERROR_BANNER; Console Err [AErr (TypeError message)]]).
Proof.
  apply (credential_not_a_string object_credential_environment []
           "university-degree-jwt" (VStr "VerifiableId") holder offer_pre_authorized
           object_credential_prepared object_credential_reply object_credential_redeemed
           (VObj [("type", VArr [VStr "VerifiableCredential"; VStr "VerifiableId"])])).
  - vm_compute. reflexivity.
  - vm_compute. reflexivity.
  - reflexivity.
  - reflexivity.
  - discriminate.
Defined.

(** ** The token response *)



(** The token request answered with [null]: the run ends with code 1 on
    the [TypeError], and the credential is never requested. *)
Example null_token_response_run :
  fst (main null_token_environment []) = Ok 1%Z
  /\ ~ In ("POST " ++ CREDENTIAL_URL)%string (targets (snd (main null_token_environment [])))
  /\ In (Console Err [AErr (TypeError "Cannot read properties of undefined or null")])
        (snd (main null_token_environment [])).
Proof.
  split; [vm_compute; reflexivity |]. split.
  - intros H. vm_compute in H.
    repeat (destruct H as [H | H]; [discriminate H |]). exact H.
  - vm_compute. tauto.
Qed.

(** ** The proof of possession *)

(** X12: what [requestCredential] does with the holder's keys.  The only
    key it exports is the holder's public key.  Every JWT it signs is
    signed with the holder's private key, over claims whose audience is the
    issuer's base URL with the standard version, under a header that names
    [EdDSA] and the proof type and carries the exported public key.  The
    [iat] of the signed claims is the reading, in whole seconds, that
    [.setIssuedAt()] takes of the clock just before the signing: the
    reading [Date.now()] gave when the claims were written is replaced. *)
Theorem proof_signed_by_holder
    (accessToken : value) (id : string) (tokenResponse : value) (holderKey : keypair)
    (env : environment) (tr : list event) :
  exists r evs,
    requestCredential accessToken id tokenResponse holderKey env tr = (r, tr ++ evs)
    /\ (forall key reply, In (JwkExported key reply) evs -> key = publicKey holderKey)
    /\ (forall claims header key reply,
          In (JwtSigned claims header key reply) evs ->
          key = privateKey holderKey
          /\ field claims "aud" = VStr "http://localhost:7002/draft13"
          /\ (exists before written exported issued after,
                evs = before
                      ++ Clock written :: JwkExported (publicKey holderKey) exported
                         :: Clock issued :: JwtSigned claims header key reply :: after
                /\ field claims "iat" = VNum (issued / 1000))
          /\ (exists jwk,
                In (JwkExported (publicKey holderKey) (Some jwk)) evs
                /\ header = VObj [("alg", VStr "EdDSA");
                                  ("typ", VStr "openid4vci-proof+jwt");
                                  ("jwk", VObj jwk)])).
Proof.
  unfold requestCredential, createProofOfPossession, console_log, axios_post.
  run. destruct (get_prop tokenResponse "c_nonce") as [c | e |] eqn:Hget.
  - destruct (truthy c) eqn:Ht.
    + destruct (jwk_of env _ (publicKey holderKey)) as [jwk |] eqn:Hjwk.
      * destruct (signer env _ _ _ (privateKey holderKey)) as [jwt |] eqn:Hsig.
        -- do 2 eexists. split.
           { rewrite <- !app_assoc. cbn [app]. reflexivity. }
           split.
           ++ intros key reply H. in_events H. now injection H as <- _.
           ++ intros claims header key reply H. in_events H.
              injection H as <- <- <- <-. repeat split.
              ** eexists [_; _; _; _]. do 4 eexists. split; reflexivity.
              ** exists jwk. split; [member | reflexivity].
        -- do 2 eexists. split.
           { rewrite <- !app_assoc. cbn [app]. reflexivity. }
           split.
           ++ intros key reply H. in_events H. now injection H as <- _.
           ++ intros claims header key reply H. in_events H.
              injection H as <- <- <- <-. repeat split.
              ** eexists [_; _; _; _]. do 4 eexists. split; reflexivity.
              ** exists jwk. split; [member | reflexivity].
      * do 2 eexists. split.
        { rewrite <- !app_assoc. cbn [app]. reflexivity. }
        split.
        -- intros key reply H. in_events H. now injection H as <- _.
        -- intros claims header key reply H. in_events H.
    + do 2 eexists. split.
      { rewrite <- !app_assoc. cbn [app]. reflexivity. }
      split.
      * intros key reply H. in_events H.
      * intros claims header key reply H. in_events H.
  - exists (Throw e), [Console Log [str "  -> Requesting credential..."]].
    split; [reflexivity |]. split.
    + intros key reply H. in_events H.
    + intros claims header key reply H. in_events H.
  - exists Unsupported, [Console Log [str "  -> Requesting credential..."]].
    split; [reflexivity |]. split.
    + intros key reply H. in_events H.
    + intros claims header key reply H. in_events H.
Qed.

(** ** Defining a property *)

Lemma has_prop_lookup (k : string) (props : list (string * value)) :
  has_prop k props = false -> lookup k props = None.
Proof.
  induction props as [| [k' v'] rest IH]; [reflexivity |]. cbn [has_prop lookup].
  destruct (String.eqb k' k); [discriminate |]. exact IH.
Qed.

Lemma lookup_replace_same (k : string) (v : value) (props : list (string * value)) :
  has_prop k props = true -> lookup k (replace_prop k v props) = Some v.
Proof.
  induction props as [| [k' v'] rest IH]; [discriminate |]. cbn [has_prop replace_prop].
  destruct (String.eqb k' k) eqn:He; cbn [orb lookup].
  - now rewrite String.eqb_refl.
  - rewrite He. exact IH.
Qed.

Lemma lookup_replace_other (k name : string) (v : value) (props : list (string * value)) :
  name <> k -> lookup name (replace_prop k v props) = lookup name props.
Proof.
  intros Hne. induction props as [| [k' v'] rest IH]; [reflexivity |]. cbn [replace_prop].
  destruct (String.eqb k' k) eqn:He; cbn [lookup].
  - apply String.eqb_eq in He. subst k'.
    destruct (String.eqb k name) eqn:Hk; [| reflexivity].
    apply String.eqb_eq in Hk. congruence.
  - now rewrite IH.
Qed.

Lemma lookup_insert_same (i : N) (k : string) (v : value) (props : list (string * value)) :
  has_prop k props = false -> lookup k (insert_index i k v props) = Some v.
Proof.
  induction props as [| [k' v'] rest IH]; cbn [has_prop insert_index].
  - intros _. cbn [lookup]. now rewrite String.eqb_refl.
  - destruct (String.eqb k' k) eqn:He; [discriminate |]. cbn [orb]. intros Hrest.
    destruct (array_index k') as [j |]; [destruct (j <? i)%N |]; cbn [lookup];
      rewrite ?He, ?String.eqb_refl; auto.
Qed.

Lemma lookup_insert_other (i : N) (k name : string) (v : value)
    (props : list (string * value)) :
  name <> k -> lookup name (insert_index i k v props) = lookup name props.
Proof.
  intros Hne.
  assert (Hk : String.eqb k name = false) by (apply String.eqb_neq; congruence).
  induction props as [| [k' v'] rest IH]; cbn [insert_index].
  - cbn [lookup]. now rewrite Hk.
  - destruct (array_index k') as [j |]; [destruct (j <? i)%N |]; cbn [lookup];
      rewrite ?Hk, ?IH; reflexivity.
Qed.

Lemma lookup_app_same (k : string) (v : value) (props : list (string * value)) :
  has_prop k props = false -> lookup k (props ++ [(k, v)]) = Some v.
Proof.
  induction props as [| [k' v'] rest IH]; cbn [has_prop app lookup].
  - intros _. now rewrite String.eqb_refl.
  - destruct (String.eqb k' k); [discriminate | exact IH].
Qed.

Lemma lookup_app_other (k name : string) (v : value) (props : list (string * value)) :
  name <> k -> lookup name (props ++ [(k, v)]) = lookup name props.
Proof.
  intros Hne.
  assert (Hk : String.eqb k name = false) by (apply String.eqb_neq; congruence).
  induction props as [| [k' v'] rest IH]; cbn [app lookup].
  - now rewrite Hk.
  - now rewrite IH.
Qed.

(** Reading back what [define_prop] wrote, and what it left alone. *)
Lemma lookup_define_same (props : list (string * value)) (k : string) (v : value) :
  lookup k (define_prop props k v) = Some v.
Proof.
  unfold define_prop. destruct (has_prop k props) eqn:Hh.
  - now apply lookup_replace_same.
  - destruct (array_index k); [now apply lookup_insert_same | now apply lookup_app_same].
Qed.

Lemma lookup_define_other (props : list (string * value)) (k name : string) (v : value) :
  name <> k -> lookup name (define_prop props k v) = lookup name props.
Proof.
  intros Hne. unfold define_prop. destruct (has_prop k props).
  - now apply lookup_replace_other.
  - destruct (array_index k); [now apply lookup_insert_other | now apply lookup_app_other].
Qed.

(** ** Key identifiers *)

(** X13: [generateEd25519Jwk] returns the exported private JWK of the pair
    it generated with [kid] set to a fresh UUID: a [kid] the export already
    had is overwritten, every other member is kept. *)
Theorem issuer_key_identifier (env : environment) (tr : list event) :
  exists r evs,
    generateEd25519Jwk env tr = (r, tr ++ evs)
    /\ forall jwk key,
         r = Ok (jwk, key) ->
         exists kp exported kid,
           evs = [KeyPairGenerated "Ed25519" (Some kp);
                  JwkExported (privateKey kp) (Some exported);
                  Uuid kid]
           /\ key = privateKey kp
           /\ lookup "kid" jwk = Some (VStr kid)
           /\ forall name, name <> "kid" -> lookup name jwk = lookup name exported.
Proof.
  unfold generateEd25519Jwk. run.
  destruct (keygen env tr "Ed25519") as [kp |].
  - destruct (jwk_of env _ (privateKey kp)) as [exported |].
    + do 2 eexists. split; [rewrite <- !app_assoc; cbn [app]; reflexivity |].
      intros jwk key H. injection H as <- <-.
      do 3 eexists. split; [reflexivity |]. split; [reflexivity |]. split.
      * apply lookup_define_same.
      * intros name Hne. now apply lookup_define_other.
    + do 2 eexists. split; [rewrite <- !app_assoc; cbn [app]; reflexivity | discriminate].
  - do 2 eexists. split; [reflexivity | discriminate].
Qed.

(** X14: [generateCoseKey] returns the exported private JWK of the ES256
    pair it generated with [kid] set to a fresh UUID and [alg] set to
    ['ES256'], whatever the export said of either; every other member is
    kept. *)
Theorem cose_key_members (env : environment) (tr : list event) :
  exists r evs,
    generateCoseKey env tr = (r, tr ++ evs)
    /\ forall jwk private public,
         r = Ok (jwk, private, public) ->
         exists kp exported kid,
           evs = [KeyPairGenerated "ES256" (Some kp);
                  JwkExported (privateKey kp) (Some exported);
                  Uuid kid]
           /\ private = privateKey kp
           /\ public = publicKey kp
           /\ lookup "kid" jwk = Some (VStr kid)
           /\ lookup "alg" jwk = Some (VStr "ES256")
           /\ forall name,
                name <> "kid" -> name <> "alg" -> lookup name jwk = lookup name exported.
Proof.
  unfold generateCoseKey. run.
  destruct (keygen env tr "ES256") as [kp |].
  - destruct (jwk_of env _ (privateKey kp)) as [exported |].
    + do 2 eexists. split; [rewrite <- !app_assoc; cbn [app]; reflexivity |].
      intros jwk private public H. injection H as <- <- <-.
      do 3 eexists. split; [reflexivity |]. split; [reflexivity |]. split; [reflexivity |].
      split; [| split].
      * rewrite lookup_define_other by discriminate. apply lookup_define_same.
      * apply lookup_define_same.
      * intros name Hkid Halg. now rewrite !lookup_define_other.
    + do 2 eexists. split; [rewrite <- !app_assoc; cbn [app]; reflexivity | discriminate].
  - do 2 eexists. split; [reflexivity | discriminate].
Qed.

(** ** The mDoc issuer *)

Lemma lookup_fold_define (name : string) (entries : list (string * value)) :
  NoDup (map fst entries) ->
  forall acc,
    lookup name (fold_left (fun acc kv => define_prop acc (fst kv) (snd kv)) entries acc)
    = match lookup name entries with
      | Some v => Some v
      | None => lookup name acc
      end.
Proof.
  induction entries as [| [k v] rest IH]; intros Hnd acc; [reflexivity |].
  cbn [map fst] in Hnd. apply NoDup_cons_iff in Hnd. destruct Hnd as [Hk Hrest].
  cbn [fold_left fst snd lookup]. rewrite (IH Hrest).
  destruct (String.eqb k name) eqn:He.
  - apply String.eqb_eq in He. subst name.
    replace (lookup k rest) with (@None value).
    + apply lookup_define_same.
    + symmetry. clear IH Hrest. induction rest as [| [k' v'] rest IH]; [reflexivity |].
      cbn [lookup]. destruct (String.eqb k' k) eqn:He.
      * apply String.eqb_eq in He. subst k'. exfalso. apply Hk. now left.
      * apply IH. intros Hin. apply Hk. now right.
  - destruct (lookup name rest); [reflexivity |].
    apply lookup_define_other. intros ->. now rewrite String.eqb_refl in He.
Qed.

(** A spread onto nothing copies the source: reading a name in the copy
    gives what the source has under it. *)
Lemma lookup_spread (name : string) (source : value) :
  NoDup (map fst (object_entries source)) ->
  lookup name (spread [] source) = lookup name (object_entries source).
Proof.
  intros Hnd. unfold spread. rewrite (lookup_fold_define name _ Hnd).
  now destruct (lookup name (object_entries source)).
Qed.

Lemma namespace_of_field (passportData : value) (namespace : string) :
  nullish passportData = false ->
  nullish (field passportData "data") = false ->
  namespace_of passportData namespace = Ok (field (field passportData "data") namespace).
Proof.
  intros Hp Hd. unfold namespace_of.
  rewrite (get_prop_field _ "data" Hp). cbn [rbind]. now apply get_prop_field.
Qed.

Lemma namespace_of_unreadable (passportData : value) (namespace : string) :
  nullish passportData = true \/ nullish (field passportData "data") = true ->
  exists message, namespace_of passportData namespace = Throw (TypeError message).
Proof.
  unfold namespace_of. intros [Hp | Hd].
  - destruct passportData; try discriminate; cbn; eauto.
  - destruct (nullish passportData) eqn:Hp.
    + destruct passportData; try discriminate; cbn; eauto.
    + rewrite (get_prop_field _ "data" Hp). cbn [rbind].
      destruct (field passportData "data"); try discriminate; cbn; eauto.
Qed.

Lemma mdoc_namespaces_readable (passportData webId : value) :
  nullish passportData = false ->
  nullish (field passportData "data") = false ->
  mdoc_namespaces passportData webId
  = Ok (VObj [(ISO_NAMESPACE, field (field passportData "data") ISO_NAMESPACE);
              (WEBAUTH_NAMESPACE,
               VObj (define_prop
                       (spread [] (field (field passportData "data") WEBAUTH_NAMESPACE))
                       "web_id" webId))]).
Proof.
  intros Hp Hd. unfold mdoc_namespaces.
  now rewrite !(namespace_of_field _ _ Hp Hd).
Qed.

(** A run of [issueMDoc] on readable passport data: the four lines, the
    request, and at most the report of its failure. *)
Lemma issueMDoc_run
    (issuerBaseUrl : value) (statusText : list event -> string)
    (passportData webId issuerKey x5Chain : value)
    (env : environment) (tr : list event) :
  nullish passportData = false ->
  nullish (field passportData "data") = false ->
  exists r reply evs,
    issueMDoc issuerBaseUrl statusText passportData webId issuerKey x5Chain env tr
    = (r, tr ++ issuance_logs issuerBaseUrl
                  (mdoc_issuance_request issuerKey
                     (VObj [(ISO_NAMESPACE, field (field passportData "data") ISO_NAMESPACE);
                            (WEBAUTH_NAMESPACE,
                             VObj (define_prop
                                     (spread [] (field (field passportData "data")
                                                   WEBAUTH_NAMESPACE))
                                     "web_id" webId))])
                     x5Chain)
          ++ Http (POST (MDOC_ISSUE_URL issuerBaseUrl)
                     (JsonBody
                        (mdoc_issuance_request issuerKey
                           (VObj [(ISO_NAMESPACE,
                                   field (field passportData "data") ISO_NAMESPACE);
                                  (WEBAUTH_NAMESPACE,
                                   VObj (define_prop
                                           (spread [] (field (field passportData "data")
                                                         WEBAUTH_NAMESPACE))
                                           "web_id" webId))])
                           x5Chain))
                     MDOC_HEADERS) reply
             :: evs)
    /\ targets evs = [].
Proof.
  intros Hp Hd.
  set (webauth := field (field passportData "data") WEBAUTH_NAMESPACE) in *.
  set (mdocData := VObj [(ISO_NAMESPACE, field (field passportData "data") ISO_NAMESPACE);
                         (WEBAUTH_NAMESPACE,
                          VObj (define_prop (spread [] webauth) "web_id" webId))]).
  set (request := mdoc_issuance_request issuerKey mdocData x5Chain).
  unfold issueMDoc, console_log, axios_post.
    rewrite bind_emit_run. unfold bind at 1. unfold lift at 1.
    rewrite (mdoc_namespaces_readable _ _ Hp Hd).
    fold webauth. fold mdocData. fold request. cbv zeta.
    rewrite !bind_emit_run. unfold try_catch. rewrite request_run.
    fold (MDOC_ISSUE_URL issuerBaseUrl).
    match goal with |- context [server env ?t ?q] => destruct (server env t q) as [data | response] end;
      cbn [outcome].
    - exists (Ok data), (Resolved data), [].
      split; [| reflexivity]. unfold issuance_logs. now rewrite <- !app_assoc.
    - unfold issuance_failed. cbn [response_of]. destruct response as [[status data] |].
      + unfold console_error. rewrite bind_emit_run.
        match goal with
        | |- exists r reply evs, ?m env ?t = _ /\ _ =>
            destruct (m env t) as [r t'] eqn:Hm
        end.
        assert (Ht : t' = ((((((tr ++ [Console Log [str "📝 Preparing mDoc issuance request..."]])
                  ++ [Console Log [str "🚀 Sending mDoc issuance request to walt.id..."]])
                 ++ [Console Log [str "🔍 DEBUG: Request URL:";
                                  str (MDOC_ISSUE_URL issuerBaseUrl)]])
                ++ [Console Log [str "🔍 DEBUG: Request payload:"; pretty request]])
               ++ [Http (POST (MDOC_ISSUE_URL issuerBaseUrl) (JsonBody request) MDOC_HEADERS)
                     (Rejected (Some (status, data)))])
              ++ [Console Err [str "❌ Issuance failed:"; AVal (VNum status); AVal data]])).
        { revert Hm. unfold bind, lift, throw, lift, read_status_text, ret.
          destruct (get_prop data "message") as [message | e |];
            [destruct (truthy message) |..]; intros H; now injection H as _ <-. }
        subst t'.
        exists r, (Rejected (Some (status, data))),
          [Console Err [str "❌ Issuance failed:"; AVal (VNum status); AVal data]].
        split; [| reflexivity]. unfold issuance_logs. now rewrite <- !app_assoc.
      + exists (Throw (AxiosError None)), (Rejected None), [].
        split; [| reflexivity]. unfold issuance_logs, throw, lift. now rewrite <- !app_assoc.
Qed.

(** X15: the issuance request of [issueMDoc], for passport data whose
    [data] can be read.  There is one request, a POST to the issuer's
    [/openid4vc/mdoc/issue] with the session lifetime header.  Its body
    names the mDL configuration and carries the issuer key as given, the
    certificate chain as given or an empty array when that is falsy, the
    ISO namespace of the passport data as it is, and a copy of the
    web-authentication namespace in which [web_id] is the caller's web ID
    and every other member is the passport's. *)
Theorem mdoc_request_content
    (issuerBaseUrl : value) (statusText : list event -> string)
    (passportData webId issuerKey x5Chain : value)
    (env : environment) (tr : list event) :
  nullish passportData = false ->
  nullish (field passportData "data") = false ->
  NoDup (map fst (object_entries (field (field passportData "data") WEBAUTH_NAMESPACE))) ->
  exists r request reply evs,
    issueMDoc issuerBaseUrl statusText passportData webId issuerKey x5Chain env tr
    = (r, tr ++ issuance_logs issuerBaseUrl request
          ++ Http (POST (MDOC_ISSUE_URL issuerBaseUrl) (JsonBody request) MDOC_HEADERS) reply
             :: evs)
    /\ targets evs = []
    /\ field request "credentialConfigurationId" = VStr MDL_DOCTYPE
    /\ field (field request "issuerKey") "jwk" = issuerKey
    /\ field request "x5Chain" = (if truthy x5Chain then x5Chain else VArr [])
    /\ field (field request "mdocData") ISO_NAMESPACE
       = field (field passportData "data") ISO_NAMESPACE
    /\ mdoc_member request WEBAUTH_NAMESPACE "web_id" = webId
    /\ (forall name,
          name <> "web_id" ->
          mdoc_member request WEBAUTH_NAMESPACE name
          = own (field (field passportData "data") WEBAUTH_NAMESPACE) name).
Proof.
  intros Hp Hd Hnd.
  set (webauth := field (field passportData "data") WEBAUTH_NAMESPACE) in *.
  set (mdocData := VObj [(ISO_NAMESPACE, field (field passportData "data") ISO_NAMESPACE);
                         (WEBAUTH_NAMESPACE,
                          VObj (define_prop (spread [] webauth) "web_id" webId))]).
  set (request := mdoc_issuance_request issuerKey mdocData x5Chain).
  destruct (issueMDoc_run issuerBaseUrl statusText passportData webId issuerKey x5Chain
              env tr Hp Hd) as (r & reply & evs & Hrun & Hquiet).
  fold webauth in Hrun. fold mdocData in Hrun. fold request in Hrun.
  exists r, request, reply, evs. split; [exact Hrun |]. split; [exact Hquiet |].
  split; [reflexivity |]. split; [reflexivity |].
  split; [unfold request, mdoc_issuance_request, js_or; cbn; reflexivity |].
  split; [reflexivity |].
  unfold mdoc_member, own. cbn [request mdoc_issuance_request field lookup String.eqb
                                  Ascii.eqb Bool.eqb mdocData].
  split.
  - cbn. now rewrite lookup_define_same.
  - intros name Hne. cbn. rewrite (lookup_define_other _ _ _ _ Hne).
    now rewrite (lookup_spread _ _ Hnd).
Qed.

Lemma mdoc_request_content_witness :
  exists r request reply evs,
    issueMDoc (VStr ISSUER_BASE) (fun _ => "Bad Request") manual_entry
      (VStr "alice@example.com") (VObj [("kty", VStr "EC")]) VUndefined
      no_code_environment []
    = (r, [] ++ issuance_logs (VStr ISSUER_BASE) request
          ++ Http (POST (MDOC_ISSUE_URL (VStr ISSUER_BASE)) (JsonBody request) MDOC_HEADERS)
               reply :: evs)
    /\ targets evs = []
    /\ field request "credentialConfigurationId" = VStr MDL_DOCTYPE
    /\ field (field request "issuerKey") "jwk" = VObj [("kty", VStr "EC")]
    /\ field request "x5Chain" = (if truthy VUndefined then VUndefined else VArr [])
    /\ field (field request "mdocData") ISO_NAMESPACE
       = field (field manual_entry "data") ISO_NAMESPACE
    /\ mdoc_member request WEBAUTH_NAMESPACE "web_id" = VStr "alice@example.com"
    /\ (forall name,
          name <> "web_id" ->
          mdoc_member request WEBAUTH_NAMESPACE name
          = own (field (field manual_entry "data") WEBAUTH_NAMESPACE) name).
Proof.
  apply (mdoc_request_content (VStr ISSUER_BASE) (fun _ => "Bad Request") manual_entry
           (VStr "alice@example.com") (VObj [("kty", VStr "EC")]) VUndefined
           no_code_environment []).
  - reflexivity.
  - reflexivity.
  - constructor.
Defined.





(** ** From the passport to the credential *)

Lemma spread_falsy (target : list (string * value)) (source : value) :
  truthy source = false -> spread target source = target.
Proof.
  destruct source as [| | b | n | s | items | props]; try discriminate; try reflexivity.
  destruct s; [reflexivity | discriminate].
Qed.

Lemma portrait_members_run (passport : value) :
  nullish passport = false ->
  portrait_members passport
  = Ok (if truthy (field passport "photo")
        then VObj [("portrait", field passport "photo")]
        else field passport "photo").
Proof.
  intros Hn. unfold portrait_members. rewrite (get_prop_field _ "photo" Hn). cbn [rbind].
  now destruct (truthy (field passport "photo")).
Qed.

(** What [formatForMDoc] returns, and that it only reads the clock. *)
Lemma formatForMDoc_run (passport : value) (env : environment) (tr : list event) :
  nullish passport = false ->
  exists t1 t2 members,
    formatForMDoc passport env tr
    = (Ok (VObj
             [("doctype", VStr MDL_DOCTYPE);
              ("data",
               VObj [(ISO_NAMESPACE, VObj members);
                     (WEBAUTH_NAMESPACE,
                      VObj [("web_id", VStr EmptyString);
                            ("passport_verification_level", VStr "mock_verified");
                            ("verification_timestamp", VStr (iso_string env t1));
                            ("verification_method", VStr "mock_passport_read")])]);
              ("metadata",
               VObj [("source", VStr "mock_passport_reader");
                     ("mrz", field passport "mrz");
                     ("extraction_timestamp", VStr (iso_string env t2));
                     ("mode", VStr "simulation")])]),
       tr ++ [Clock t1; Clock t2])
    /\ members
       = [("family_name", field passport "lastName");
          ("given_name", field passport "firstName");
          ("birth_date", field passport "dateOfBirth");
          ("sex", VNum (if eq_lit (field passport "sex") "M" then 1 else 0));
          ("nationality", field passport "nationality");
          ("document_number", field passport "documentNumber");
          ("issuing_country", field passport "issuingCountry");
          ("expiry_date", field passport "expiryDate")]
         ++ (if truthy (field passport "photo")
             then [("portrait", field passport "photo")]
             else []).
Proof.
  intros Hn. unfold formatForMDoc.
  rewrite !(get_prop_field passport _ Hn), (portrait_members_run _ Hn).
  run. do 3 eexists. split; [rewrite <- !app_assoc; cbn [app]; reflexivity |].
  destruct (truthy (field passport "photo")) eqn:Hphoto.
  - reflexivity.
  - now rewrite (spread_falsy _ _ Hphoto).
Qed.

(** X17: from the passport that was read to the subject of the credential
    data.  Names, dates, nationality, document number and issuing country
    arrive unchanged.  The sex arrives as ['M'] when the passport says
    ['M'] and as ['F'] for everything else.  The credential always says
    [nfcVerified: true] and the verification level of the mock reader; its
    biometric level is ['photo_verified'] exactly when the passport has a
    truthy photo; its subject is the web ID when that is truthy.  Nothing
    is requested on the way. *)
Theorem passport_credential_subject (passport webId : value)
    (env : environment) (tr : list event) :
  nullish passport = false ->
  exists credential evs,
    read_and_build passport webId env tr = (Ok credential, tr ++ evs)
    /\ targets evs = []
    /\ subject_member credential "familyName" = field passport "lastName"
    /\ subject_member credential "givenName" = field passport "firstName"
    /\ subject_member credential "birthDate" = field passport "dateOfBirth"
    /\ subject_member credential "nationality" = field passport "nationality"
    /\ subject_member credential "passportNumber" = field passport "documentNumber"
    /\ subject_member credential "issuingCountry" = field passport "issuingCountry"
    /\ subject_member credential "expiryDate" = field passport "expiryDate"
    /\ subject_member credential "gender"
       = VStr (if eq_lit (field passport "sex") "M" then "M" else "F")
    /\ subject_member credential "nfcVerified" = VBool true
    /\ subject_member credential "verificationLevel" = VStr "mock_verified"
    /\ subject_member credential "biometricLevel"
       = VStr (if truthy (field passport "photo") then "photo_verified" else "document_only")
    /\ subject_member credential "webId" = webId
    /\ (truthy webId = true -> subject_member credential "id" = webId).
Proof.
  intros Hn. unfold read_and_build. unfold bind at 1.
  destruct (formatForMDoc_run passport env tr Hn) as (t1 & t2 & members & -> & ->).
  unfold buildPassportMDocData, subject_id, namespace_field, namespace_of, subject_member.
  destruct (truthy (field passport "photo")) eqn:Hphoto;
    destruct (truthy webId) eqn:Hweb;
    destruct (eq_lit (field passport "sex") "M");
    run; cbn;
    do 2 eexists;
    (split; [rewrite <- ?app_assoc; cbn [app]; reflexivity |]);
    cbn; rewrite ?Hphoto; repeat split; discriminate.
Qed.

Lemma passport_credential_subject_witness :
  exists credential evs,
    read_and_build mock_passport (VStr "alice@example.com") no_code_environment []
    = (Ok credential, [] ++ evs)
    /\ targets evs = []
    /\ subject_member credential "familyName" = field mock_passport "lastName"
    /\ subject_member credential "givenName" = field mock_passport "firstName"
    /\ subject_member credential "birthDate" = field mock_passport "dateOfBirth"
    /\ subject_member credential "nationality" = field mock_passport "nationality"
    /\ subject_member credential "passportNumber" = field mock_passport "documentNumber"
    /\ subject_member credential "issuingCountry" = field mock_passport "issuingCountry"
    /\ subject_member credential "expiryDate" = field mock_passport "expiryDate"
    /\ subject_member credential "gender"
       = VStr (if eq_lit (field mock_passport "sex") "M" then "M" else "F")
    /\ subject_member credential "nfcVerified" = VBool true
    /\ subject_member credential "verificationLevel" = VStr "mock_verified"
    /\ subject_member credential "biometricLevel"
       = VStr (if truthy (field mock_passport "photo")
               then "photo_verified" else "document_only")
    /\ subject_member credential "webId" = VStr "alice@example.com"
    /\ (truthy (VStr "alice@example.com") = true ->
        subject_member credential "id" = VStr "alice@example.com").
Proof.
  apply (passport_credential_subject mock_passport (VStr "alice@example.com")
           no_code_environment []).
  reflexivity.
Defined.

(** X18: what the issuer is asked for a passport that was read.  Reading
    takes two clock readings; then comes the issuance request.  Its
    web-authentication namespace is the reader's with the empty [web_id]
    replaced, in its place, by the caller's web ID, and stamped with the
    first reading.  Its ISO namespace has the eight passport fields, the sex
    as number 1 for ['M'] and 0 for everything else, and a [portrait]
    exactly when the passport has a truthy photo. *)
Theorem reader_passport_request
    (issuerBaseUrl : value) (statusText : list event -> string)
    (passport webId issuerKey x5Chain : value)
    (env : environment) (tr : list event) :
  nullish passport = false ->
  exists r t1 t2 request reply evs,
    read_and_issue issuerBaseUrl statusText passport webId issuerKey x5Chain env tr
    = (r, tr ++ [Clock t1; Clock t2]
          ++ issuance_logs issuerBaseUrl request
          ++ Http (POST (MDOC_ISSUE_URL issuerBaseUrl) (JsonBody request) MDOC_HEADERS) reply
             :: evs)
    /\ targets evs = []
    /\ field (field request "mdocData") WEBAUTH_NAMESPACE
       = VObj [("web_id", webId);
               ("passport_verification_level", VStr "mock_verified");
               ("verification_timestamp", VStr (iso_string env t1));
               ("verification_method", VStr "mock_passport_read")]
    /\ field (field request "mdocData") ISO_NAMESPACE
       = VObj ([("family_name", field passport "lastName");
                ("given_name", field passport "firstName");
                ("birth_date", field passport "dateOfBirth");
                ("sex", VNum (if eq_lit (field passport "sex") "M" then 1 else 0));
                ("nationality", field passport "nationality");
                ("document_number", field passport "documentNumber");
                ("issuing_country", field passport "issuingCountry");
                ("expiry_date", field passport "expiryDate")]
               ++ (if truthy (field passport "photo")
                   then [("portrait", field passport "photo")]
                   else [])).
Proof.
  intros Hn. unfold read_and_issue. unfold bind at 1.
  destruct (formatForMDoc_run passport env tr Hn) as (t1 & t2 & members & -> & ->).
  match goal with
  | |- context [issueMDoc _ _ ?formatted _ _ _ _ ?t] =>
      destruct (issueMDoc_run issuerBaseUrl statusText formatted webId issuerKey x5Chain
                  env t eq_refl eq_refl) as (r & reply & evs & Hrun & Hquiet)
  end.
  do 6 eexists. split; [rewrite Hrun, <- !app_assoc; reflexivity |].
  split; [exact Hquiet |]. split; reflexivity.
Qed.

Lemma reader_passport_request_witness :
  exists r t1 t2 request reply evs,
    read_and_issue (VStr ISSUER_BASE) (fun _ => "Bad Request") mock_passport
      (VStr "alice@example.com") (VObj [("kty", VStr "EC")]) (VArr [VStr "MIIB"])
      no_code_environment []
    = (r, [] ++ [Clock t1; Clock t2]
          ++ issuance_logs (VStr ISSUER_BASE) request
          ++ Http (POST (MDOC_ISSUE_URL (VStr ISSUER_BASE)) (JsonBody request) MDOC_HEADERS)
               reply :: evs)
    /\ targets evs = []
    /\ field (field request "mdocData") WEBAUTH_NAMESPACE
       = VObj [("web_id", VStr "alice@example.com");
               ("passport_verification_level", VStr "mock_verified");
               ("verification_timestamp", VStr (iso_string no_code_environment t1));
               ("verification_method", VStr "mock_passport_read")]
    /\ field (field request "mdocData") ISO_NAMESPACE
       = VObj ([("family_name", field mock_passport "lastName");
                ("given_name", field mock_passport "firstName");
                ("birth_date", field mock_passport "dateOfBirth");
                ("sex", VNum (if eq_lit (field mock_passport "sex") "M" then 1 else 0));
                ("nationality", field mock_passport "nationality");
                ("document_number", field mock_passport "documentNumber");
                ("issuing_country", field mock_passport "issuingCountry");
                ("expiry_date", field mock_passport "expiryDate")]
               ++ (if truthy (field mock_passport "photo")
                   then [("portrait", field mock_passport "photo")]
                   else [])).
Proof.
  apply (reader_passport_request (VStr ISSUER_BASE) (fun _ => "Bad Request") mock_passport
           (VStr "alice@example.com") (VObj [("kty", VStr "EC")]) (VArr [VStr "MIIB"])
           no_code_environment []).
  reflexivity.
Defined.

Lemma namespace_field_members (passportData : value) (namespace name : string) :
  nullish passportData = false ->
  nullish (field passportData "data") = false ->
  namespace_field passportData namespace name
  = get_prop (field (field passportData "data") namespace) name.
Proof.
  intros Hp Hd. unfold namespace_field. now rewrite (namespace_of_field _ _ Hp Hd).
Qed.

Lemma get_prop_nullish (v : value) (name : string) :
  nullish v = true -> exists message, get_prop v name = Throw (TypeError message).
Proof. destruct v; try discriminate; cbn; eauto. Qed.

(** X19: the web-authentication namespace is optional for issuing and
    required for building.  On passport data whose [data] has no
    ['com.yourcompany.webauth'] member (the shape the reader server gives a
    manual entry), [issueMDoc] sends its request with a namespace that holds
    the web ID alone, while [buildPassportMDocData] throws a [TypeError]
    before it returns anything. *)
Theorem webauth_namespace_optional_for_issuance
    (issuerBaseUrl : value) (statusText : list event -> string)
    (passportData webId issuerKey x5Chain : value)
    (env : environment) (tr : list event) :
  nullish passportData = false ->
  nullish (field passportData "data") = false ->
  nullish (field (field passportData "data") WEBAUTH_NAMESPACE) = true ->
  (exists message evs,
     buildPassportMDocData passportData webId env tr = (Throw (TypeError message), tr ++ evs)
     /\ targets evs = [])
  /\ (exists r request reply evs,
        issueMDoc issuerBaseUrl statusText passportData webId issuerKey x5Chain env tr
        = (r, tr ++ issuance_logs issuerBaseUrl request
              ++ Http (POST (MDOC_ISSUE_URL issuerBaseUrl) (JsonBody request) MDOC_HEADERS)
                   reply :: evs)
        /\ field (field request "mdocData") WEBAUTH_NAMESPACE = VObj [("web_id", webId)]).
Proof.
  intros Hp Hd Hw. split.
  - unfold buildPassportMDocData, subject_id.
    rewrite !(namespace_field_members _ _ _ Hp Hd).
    destruct (get_prop_nullish _ "passport_verification_level" Hw) as [message Hlevel].
    rewrite Hlevel.
    destruct (nullish (field (field passportData "data") ISO_NAMESPACE)) eqn:Hiso.
    + destruct (get_prop_nullish _ "family_name" Hiso) as [message' Hfamily].
      rewrite Hfamily. exists message'.
      destruct (truthy webId); run.
      * exists []. rewrite app_nil_r. split; reflexivity.
      * eexists. split; reflexivity.
    + rewrite !(get_prop_field _ _ Hiso). exists message.
      destruct (truthy webId); run.
      * exists []. rewrite app_nil_r. split; reflexivity.
      * eexists. split; reflexivity.
  - destruct (issueMDoc_run issuerBaseUrl statusText passportData webId issuerKey x5Chain
                env tr Hp Hd) as (r & reply & evs & Hrun & _).
    do 4 eexists. split; [exact Hrun |].
    destruct (field (field passportData "data") WEBAUTH_NAMESPACE); try discriminate Hw;
      reflexivity.
Qed.

Lemma webauth_namespace_optional_for_issuance_witness :
  (exists message evs,
     buildPassportMDocData manual_entry (VStr "alice@example.com") no_code_environment []
     = (Throw (TypeError message), [] ++ evs)
     /\ targets evs = [])
  /\ (exists r request reply evs,
        issueMDoc (VStr ISSUER_BASE) (fun _ => "Bad Request") manual_entry
          (VStr "alice@example.com") (VObj [("kty", VStr "EC")]) (VArr [VStr "MIIB"])
          no_code_environment []
        = (r, [] ++ issuance_logs (VStr ISSUER_BASE) request
              ++ Http (POST (MDOC_ISSUE_URL (VStr ISSUER_BASE)) (JsonBody request) MDOC_HEADERS)
                   reply :: evs)
        /\ field (field request "mdocData") WEBAUTH_NAMESPACE
           = VObj [("web_id", VStr "alice@example.com")]).
Proof.
  apply (webauth_namespace_optional_for_issuance (VStr ISSUER_BASE) (fun _ => "Bad Request")
           manual_entry (VStr "alice@example.com") (VObj [("kty", VStr "EC")])
           (VArr [VStr "MIIB"]) no_code_environment []); reflexivity.
Defined.

(** ** The form body of the token request *)















(** ** The full issuance *)

Lemma prefix_of_nil_inv (l : list string) : prefix_of l [] -> l = [].
Proof. intros [rest H]. symmetry in H. now apply app_eq_nil in H. Qed.

Lemma silent_events {A : Type} (m : M A) :
  silent m -> forall env tr, exists r evs, m env tr = (r, tr ++ evs) /\ targets evs = [].
Proof.
  intros H env tr. destruct (H env tr) as (r & evs & l & Hrun & <- & Hp & _).
  exists r, evs. split; [assumption | now apply prefix_of_nil_inv].
Qed.

Lemma fails_throw {A : Type} (e : exn) : fails (@throw A e).
Proof. intros env tr a. discriminate. Qed.

Lemma fails_bind {A B : Type} (m : M A) (k : A -> M B) :
  (forall a, fails (k a)) -> fails (bind m k).
Proof.
  intros Hk env tr b. unfold bind. destruct (m env tr) as [[a | e |] tr']; cbn [fst];
    [apply Hk | discriminate | discriminate].
Qed.

Lemma sends_try_catch {A : Type} (m : M A) (handler : exn -> M A)
    (L : list string -> Prop) :
  sends m L ->
  (forall e, silent (handler e)) ->
  (forall e, fails (handler e)) ->
  sends (try_catch m handler) L.
Proof.
  intros Hm Hsilent Hfails env tr. unfold try_catch.
  destruct (Hm env tr) as (r & evs & l & Hrun & Hl & Hp & Hok). rewrite Hrun.
  destruct r as [a | e |].
  - exists (Ok a), evs, l. auto.
  - destruct (silent_events _ (Hsilent e) env (tr ++ evs)) as (r' & evs' & Hrun' & Hquiet).
    exists r', (evs ++ evs'), l. rewrite Hrun', app_assoc, targets_app, Hquiet, app_nil_r.
    repeat split; try assumption.
    intros a Ha. pose proof (Hfails e env (tr ++ evs) a) as Hne.
    rewrite Hrun' in Hne. cbn [fst] in Hne. contradiction.
  - exists Unsupported, evs, l. auto.
Qed.

Lemma silent_read_status_text (statusText : list event -> string) :
  silent (read_status_text statusText).
Proof.
  apply silent_run. intros env tr. exists (Ok (statusText tr)), []. now rewrite app_nil_r.
Qed.

Lemma silent_issuance_failed (statusText : list event -> string) (e : exn) :
  silent (issuance_failed statusText e).
Proof.
  unfold issuance_failed. destruct (response_of e) as [[status data] |]; [| apply silent_throw].
  apply silent_bind; [silent_script | intros _].
  apply silent_bind; [silent_script | intros message].
  apply silent_bind; [| intros reason; apply silent_throw].
  apply silent_if; [apply silent_ret | apply silent_read_status_text].
Qed.

Lemma fails_issuance_failed (statusText : list event -> string) (e : exn) :
  fails (issuance_failed statusText e).
Proof.
  unfold issuance_failed. destruct (response_of e) as [[status data] |]; [| apply fails_throw].
  repeat (apply fails_bind; intros ?). apply fails_throw.
Qed.

Lemma sends_issueMDoc (issuerBaseUrl : value) (statusText : list event -> string)
    (passportData webId issuerKey x5Chain : value) :
  sends (issueMDoc issuerBaseUrl statusText passportData webId issuerKey x5Chain)
    (eq [("POST " ++ MDOC_ISSUE_URL issuerBaseUrl)%string]).
Proof.
  unfold issueMDoc, axios_post.
  apply sends_after; [silent_script | intros _ | eauto].
  apply sends_after; [silent_script | intros mdocData | eauto]. cbv zeta.
  sends_tail.
  apply sends_try_catch;
    [apply sends_request | apply silent_issuance_failed | apply fails_issuance_failed].
Qed.

Lemma sends_parseCredentialOffer (offerUrl : value) :
  sends (parseCredentialOffer offerUrl)
    (fun l => exists offerUri count, count <= 1 /\ l = repeat ("GET " ++ offerUri)%string count).
Proof.
  assert (Hnone : exists offerUri count,
            count <= 1 /\ @nil string = repeat ("GET " ++ offerUri)%string count)
    by (exists EmptyString, 0; split; [lia | reflexivity]).
  assert (Hquiet : forall A (m : M A),
            silent m ->
            sends m (fun l => exists offerUri count,
                                count <= 1 /\ l = repeat ("GET " ++ offerUri)%string count)).
  { intros A m. apply sends_weaken. now intros l <-. }
  assert (Huri : forall params,
            sends (fetch_offer_uri params)
              (fun l => exists offerUri count,
                          count <= 1 /\ l = repeat ("GET " ++ offerUri)%string count)).
  { intros params. unfold fetch_offer_uri.
    destruct (params_get params "credential_offer_uri") as [offerUri |];
      [| apply Hquiet, silent_throw].
    destruct (negb (String.eqb offerUri EmptyString)); [| apply Hquiet, silent_throw].
    refine (sends_weaken _ _ _ _ (sends_request (GET offerUri))).
    intros l <-. exists offerUri, 1. split; [lia | reflexivity]. }
  unfold parseCredentialOffer.
  apply sends_after; [silent_script | intros query | eauto].
  destruct (params_get _ "credential_offer") as [raw |]; [| apply Huri].
  destruct (negb (String.eqb raw EmptyString)); [apply Hquiet, silent_lift | apply Huri].
Qed.

Lemma silent_loadPKISetup (readFile : list event -> string -> option string) :
  silent (loadPKISetup readFile).
Proof.
  assert (Hfail : silent pki_not_found) by (unfold pki_not_found; silent_script).
  apply silent_run. intros env tr. unfold loadPKISetup.
  destruct (readFile tr PKI_FILE) as [pkiData |];
    [| exact (silent_events _ Hfail env tr)].
  destruct (JSON.parse pkiData) as [parsed | e |].
  - exists (Ok parsed), []. now rewrite app_nil_r.
  - exact (silent_events _ Hfail env tr).
  - exists Unsupported, []. now rewrite app_nil_r.
Qed.

Lemma silent_generateCoseKey : silent generateCoseKey.
Proof. unfold generateCoseKey. silent_script. Qed.

Lemma silent_issuance_keys (readFile : list event -> string -> option string)
    (usePKI : bool) :
  silent (issuance_keys readFile usePKI).
Proof.
  unfold issuance_keys. destruct usePKI.
  - apply silent_bind; [silent_script | intros _].
    apply silent_bind; [apply silent_loadPKISetup | intros pkiSetup]. silent_script.
  - apply silent_bind; [silent_script | intros _].
    apply silent_bind; [apply silent_generateCoseKey | intros keyData]. silent_script.
Qed.

Lemma sends_issuance_steps (issuerBaseUrl : value) (statusText : list event -> string)
    (readFile : list event -> string -> option string)
    (passportData webId : value) (usePKI : bool) :
  sends (issuance_steps issuerBaseUrl statusText readFile passportData webId usePKI)
    (issuance_protocol issuerBaseUrl).
Proof.
  assert (Hsome : exists l, issuance_protocol issuerBaseUrl l).
  { exists [("POST " ++ MDOC_ISSUE_URL issuerBaseUrl)%string], EmptyString, 0.
    split; [lia | reflexivity]. }
  unfold issuance_steps.
  apply sends_after; [silent_script | intros _ | exact Hsome].
  apply sends_after; [apply silent_issuance_keys | intros keys | exact Hsome].
  refine (sends_weaken _ _ _ _
            (sends_cons _ _ _
               (fun l => exists offerUri count,
                           count <= 1 /\ l = repeat ("GET " ++ offerUri)%string count)
               (sends_issueMDoc _ _ _ _ _ _) _ _)).
  - intros l (l' & (offerUri & count & Hcount & ->) & ->). now exists offerUri, count.
  - intros offerUrl.
    apply sends_after; [silent_script | intros _ | ].
    2: { exists [], EmptyString, 0. split; [lia | reflexivity]. }
    apply sends_before; [apply sends_parseCredentialOffer | intros offer].
    apply silent_bind; [silent_script | intros _].
    apply silent_bind; [silent_script | intros issuer].
    apply silent_bind; [silent_script | intros _].
    apply silent_bind; [silent_script | intros types].
    apply silent_bind; [silent_script | intros _].
    apply silent_bind; [silent_script | intros grant].
    apply silent_bind; [apply silent_if; silent_script | intros _].
    silent_script.
  - exists [], EmptyString, 0. split; [lia | reflexivity].
Qed.

(** X21: the requests of a full issuance, in either mode and whatever the
    issuer answers: nothing is requested before the issuer key is at hand;
    then comes the issuance request, then at most one retrieval of the
    offer.  A failed issuance has made a prefix of this sequence; a
    successful one all of it. *)
Theorem issuance_requests_in_order
    (issuerBaseUrl : value) (statusText : list event -> string)
    (readFile : list event -> string -> option string) (engineMessage : exn -> string)
    (passportData webId : value) (usePKI : bool)
    (env : environment) (tr : list event) :
  exists r evs l,
    processFullIssuance issuerBaseUrl statusText readFile engineMessage
      passportData webId usePKI env tr
    = (r, tr ++ evs)
    /\ issuance_protocol issuerBaseUrl l
    /\ prefix_of (targets evs) l
    /\ (forall result, r = Ok result -> targets evs = l).
Proof.
  revert env tr.
  change (sends (processFullIssuance issuerBaseUrl statusText readFile engineMessage
                   passportData webId usePKI) (issuance_protocol issuerBaseUrl)).
  unfold processFullIssuance. apply sends_try_catch.
  - apply sends_issuance_steps.
  - intros e. silent_script.
  - intros e. apply fails_bind. intros _. apply fails_throw.
Qed.

Lemma bind_throw_run {A B : Type} (m : M A) (k : A -> M B) (e : exn)
    (env : environment) (tr tr' : list event) :
  m env tr = (Throw e, tr') -> bind m k env tr = (Throw e, tr').
Proof. intros H. unfold bind. now rewrite H. Qed.

Lemma loadPKISetup_unusable (readFile : list event -> string -> option string)
    (env : environment) (tr : list event) :
  pki_unusable readFile tr ->
  loadPKISetup readFile env tr
  = (Throw PKI_NOT_FOUND,
     tr ++ [Console Err [str "❌ Could not load PKI setup. Run: node setup-mdoc-pki.js"]]).
Proof.
  unfold pki_unusable, loadPKISetup. destruct (readFile tr PKI_FILE) as [pkiData |].
  - now intros [e ->].
  - reflexivity.
Qed.

(** X22: PKI mode needs its setup.  When the setup file cannot be read or
    its text is not JSON, a full issuance in PKI mode ends with "PKI setup
    not found. Please run setup-mdoc-pki.js first.", reported twice on the
    error console, by the loader and by the issuance itself: no key is
    generated and nothing is requested. *)
Theorem pki_setup_required
    (issuerBaseUrl : value) (statusText : list event -> string)
    (readFile : list event -> string -> option string) (engineMessage : exn -> string)
    (passportData webId : value) (env : environment) (tr : list event) :
  pki_unusable readFile (tr ++ pki_logs) ->
  processFullIssuance issuerBaseUrl statusText readFile engineMessage
    passportData webId true env tr
  = (Throw PKI_NOT_FOUND,
     tr ++ pki_logs
        ++ [Console Err [str "❌ Could not load PKI setup. Run: node setup-mdoc-pki.js"];
            Console Err [str "❌ Credential offer generation failed:";
                         str "PKI setup not found. Please run setup-mdoc-pki.js first."]]).
Proof.
  intros Hpki. unfold processFullIssuance, try_catch, issuance_steps, issuance_keys,
    console_log.
  rewrite bind_emit_run, !bind_assoc_run, bind_emit_run.
  rewrite <- app_assoc. cbn [app]. fold pki_logs. rewrite !bind_assoc_run.
  rewrite (bind_throw_run _ _ _ _ _ _ (loadPKISetup_unusable readFile env _ Hpki)).
  cbn. now rewrite <- !app_assoc.
Qed.

Lemma pki_setup_required_witness :
  processFullIssuance (VStr ISSUER_BASE) (fun _ => "Bad Request") (fun _ _ => None)
    (fun _ => "failed") manual_entry (VStr "alice@example.com") true no_code_environment []
  = (Throw PKI_NOT_FOUND,
     [] ++ pki_logs
        ++ [Console Err [str "❌ Could not load PKI setup. Run: node setup-mdoc-pki.js"];
            Console Err [str "❌ Credential offer generation failed:";
                         str "PKI setup not found. Please run setup-mdoc-pki.js first."]]).
Proof.
  apply (pki_setup_required (VStr ISSUER_BASE) (fun _ => "Bad Request") (fun _ _ => None)
           (fun _ => "failed") manual_entry (VStr "alice@example.com") no_code_environment []).
  exact I.
Defined.

(** ** The command line of the issuer *)

Lemma web_id_not_pki (arg webId : string) :
  JSON.strip_prefix "--web-id=" arg = Some webId -> String.eqb arg "--use-pki" = false.
Proof.
  destruct arg as [| c1 [| c2 [| c3 rest]]]; try discriminate; cbn [JSON.strip_prefix].
  - destruct (Ascii.eqb "-" c1); discriminate.
  - destruct (Ascii.eqb "-" c1); [destruct (Ascii.eqb "-" c2) |]; discriminate.
  - destruct (Ascii.eqb_spec "-" c1) as [<- |]; [| discriminate].
    destruct (Ascii.eqb_spec "-" c2) as [<- |]; [| discriminate].
    destruct (Ascii.eqb_spec "w" c3) as [<- |]; [| discriminate].
    reflexivity.
Qed.

Lemma read_arguments_plain (args : list string) :
  forallb plain_argument args = true ->
  forall options env tr,
    read_arguments args options env tr
    = (Ok (inr {| cli_passportData := cli_passportData options;
                  cli_webId := last_web_id args (cli_webId options);
                  cli_usePKI := cli_usePKI options || asks_pki args |}),
       tr).
Proof.
  induction args as [| arg rest IH]; intros Hplain options env tr.
  - cbn. rewrite orb_false_r. now destruct options.
  - cbn [forallb] in Hplain. apply andb_true_iff in Hplain. destruct Hplain as [Harg Hrest].
    unfold plain_argument in Harg. cbn [read_arguments last_web_id asks_pki existsb].
    destruct (JSON.strip_prefix "--passport-data=" arg); [discriminate |].
    destruct (JSON.strip_prefix "--web-id=" arg) as [webId |] eqn:Hweb.
    + rewrite (IH Hrest). cbn [cli_passportData cli_webId cli_usePKI].
      now rewrite (web_id_not_pki _ _ Hweb).
    + destruct (String.eqb arg "--use-pki").
      * rewrite (IH Hrest). cbn [cli_passportData cli_webId cli_usePKI orb].
        now rewrite orb_true_r.
      * apply negb_true_iff in Harg. rewrite Harg. now rewrite (IH Hrest).
Qed.

Lemma read_arguments_help (before after : list string) :
  forallb plain_argument before = true ->
  forall options env tr,
    read_arguments (before ++ "--help" :: after) options env tr
    = (Ok (inl 0%Z), tr ++ [Console Log [str HELP_TEXT]]).
Proof.
  induction before as [| arg rest IH]; intros Hplain options env tr.
  - reflexivity.
  - cbn [forallb] in Hplain. apply andb_true_iff in Hplain. destruct Hplain as [Harg Hrest].
    unfold plain_argument in Harg. cbn [app read_arguments].
    destruct (JSON.strip_prefix "--passport-data=" arg); [discriminate |].
    destruct (JSON.strip_prefix "--web-id=" arg) as [webId |]; [now apply IH |].
    destruct (String.eqb arg "--use-pki"); [now apply IH |].
    apply negb_true_iff in Harg. rewrite Harg. now apply IH.
Qed.

(** X23: what the issuer's command line means, when no argument asks for
    help or brings passport data.  The web ID is the value of the last
    [--web-id=] argument; PKI mode is on exactly when [--use-pki] is among
    the arguments; every other argument is passed over.  If there is no web
    ID, or the last one given is empty, the process ends with exit code 1
    after one line on the error console. *)
Theorem arguments_read (args : list string) (env : environment) (tr : list event) :
  forallb plain_argument args = true ->
  main_arguments args env tr
  = if truthy (last_web_id args VNull)
    then (Ok (inr {| cli_passportData := VNull;
                     cli_webId := last_web_id args VNull;
                     cli_usePKI := asks_pki args |}),
          tr ++ starting_logs {| cli_passportData := VNull;
                                 cli_webId := last_web_id args VNull;
                                 cli_usePKI := asks_pki args |})
    else (Ok (inl 1%Z), tr ++ [Console Err [str WEB_ID_REQUIRED]]).
Proof.
  intros Hplain. unfold main_arguments. unfold bind at 1.
  rewrite (read_arguments_plain args Hplain). cbn [CLI_DEFAULTS cli_passportData cli_webId
                                                     cli_usePKI orb].
  destruct (truthy (last_web_id args VNull)); cbn [negb].
  - unfold console_log. rewrite !bind_emit_run. unfold starting_logs, ret.
    cbn [cli_webId cli_usePKI]. now rewrite <- !app_assoc.
  - reflexivity.
Qed.

Lemma arguments_read_witness :
  main_arguments ["--web-id=alice@example.com"; "--verbose"; "--use-pki"; "--web-id="]
    no_code_environment []
  = (Ok (inl 1%Z), [] ++ [Console Err [str WEB_ID_REQUIRED]]).
Proof.
  apply (arguments_read ["--web-id=alice@example.com"; "--verbose"; "--use-pki"; "--web-id="]
           no_code_environment []).
  reflexivity.
Defined.

(** X24: [--help] ends the process.  At the first [--help], when no
    argument before it brings passport data, the help text is printed and
    the process ends with exit code 0: the arguments after it are not read,
    and a missing web ID is not reported. *)
Theorem help_ends_the_process (before after : list string)
    (env : environment) (tr : list event) :
  forallb plain_argument before = true ->
  main_arguments (before ++ "--help" :: after) env tr
  = (Ok (inl 0%Z), tr ++ [Console Log [str HELP_TEXT]]).
Proof.
  intros Hplain. unfold main_arguments. unfold bind at 1.
  now rewrite (read_arguments_help before after Hplain).
Qed.

Lemma help_ends_the_process_witness :
  main_arguments (["--use-pki"] ++ "--help" :: ["--passport-data={"; "--web-id=alice"])
    no_code_environment []
  = (Ok (inl 0%Z), [] ++ [Console Log [str HELP_TEXT]]).
Proof.
  apply (help_ends_the_process ["--use-pki"] ["--passport-data={"; "--web-id=alice"]
           no_code_environment []).
  reflexivity.
Defined.

(** ** What a full issuance returns *)

Lemma traced_ret {A : Type} (a : A) (Q : list event -> A -> Prop) :
  Q [] a -> traced (ret a) Q.
Proof.
  intros HQ env tr. exists (Ok a), []. rewrite app_nil_r. split; [reflexivity |].
  now intros a' [= <-].
Qed.

Lemma traced_bind {A B : Type} (m : M A) (k : A -> M B)
    (Q1 : list event -> A -> Prop) (Q : list event -> B -> Prop) :
  traced m Q1 ->
  (forall a evs1, Q1 evs1 a -> traced (k a) (fun evs2 b => Q (evs1 ++ evs2) b)) ->
  traced (bind m k) Q.
Proof.
  intros Hm Hk env tr. unfold bind.
  destruct (Hm env tr) as (r & evs1 & Hrun & H1). rewrite Hrun.
  destruct r as [a | e |].
  - destruct (Hk a evs1 (H1 a eq_refl) env (tr ++ evs1)) as (r' & evs2 & Hrun' & H2).
    exists r', (evs1 ++ evs2). rewrite Hrun', app_assoc. split; [reflexivity | exact H2].
  - exists (Throw e), evs1. split; [reflexivity | discriminate].
  - exists Unsupported, evs1. split; [reflexivity | discriminate].
Qed.

Lemma traced_emit_then {B : Type} (ev : event) (k : unit -> M B)
    (Q : list event -> B -> Prop) :
  traced (k tt) (fun evs b => Q (ev :: evs) b) -> traced (bind (emit ev) k) Q.
Proof.
  intros Hk. apply traced_bind with (Q1 := fun evs _ => evs = [ev]).
  - intros env tr. exists (Ok tt), [ev]. split; [reflexivity | reflexivity].
  - intros [] evs1 ->. exact Hk.
Qed.

Lemma traced_lift_then {A B : Type} (r : result A) (k : A -> M B)
    (Q : list event -> B -> Prop) :
  (forall a, r = Ok a -> traced (k a) Q) -> traced (bind (lift r) k) Q.
Proof.
  intros Hk. apply traced_bind with (Q1 := fun evs a => evs = [] /\ r = Ok a).
  - intros env tr. exists r, []. rewrite app_nil_r. split; [reflexivity |]. now intros a ->.
  - intros a evs1 [-> Hr]. now apply Hk.
Qed.

Lemma traced_date_then {B : Type} (k : Z -> M B) (Q : list event -> B -> Prop) :
  (forall t, traced (k t) (fun evs b => Q (Clock t :: evs) b)) -> traced (bind date_now k) Q.
Proof.
  intros Hk. apply traced_bind with (Q1 := fun evs t => evs = [Clock t]).
  - intros env tr. exists (Ok (now env tr)), [Clock (now env tr)]. split; [reflexivity |].
    now intros t [= <-].
  - intros t evs1 ->. apply Hk.
Qed.

Lemma traced_iso_then {B : Type} (t : Z) (k : string -> M B) (Q : list event -> B -> Prop) :
  (forall s, traced (k s) Q) -> traced (bind (to_iso t) k) Q.
Proof.
  intros Hk. apply traced_bind with (Q1 := fun evs _ => evs = []).
  - intros env tr. exists (Ok (iso_string env t)), []. rewrite app_nil_r.
    split; [reflexivity | reflexivity].
  - intros s evs1 ->. apply Hk.
Qed.

Lemma calm_generateCoseKey : traced generateCoseKey (fun evs _ => Forall calm evs).
Proof.
  intros env tr. unfold generateCoseKey, bind, generateKeyPair, exportJWK, random_uuid, ret.
  cbv zeta.
  destruct (keygen env tr "ES256") as [kp |].
  - destruct (jwk_of env _ (privateKey kp)) as [jwk |] eqn:Hjwk.
    + eexists _, [_; _; _]. rewrite <- !app_assoc. cbn [app]. split; [reflexivity |].
      intros _ _. repeat constructor.
    + eexists _, [_; _]. rewrite <- !app_assoc. cbn [app]. split; [reflexivity |].
      discriminate.
  - eexists _, [_]. split; [reflexivity | discriminate].
Qed.

Lemma loadPKISetup_loaded (readFile : list event -> string -> option string) :
  traced (loadPKISetup readFile) (fun evs _ => evs = []).
Proof.
  intros env tr. unfold loadPKISetup, pki_not_found, bind, console_error, emit, throw, lift.
  destruct (readFile tr PKI_FILE) as [pkiData |].
  - destruct (JSON.parse pkiData) as [parsed | e |].
    + exists (Ok parsed), []. rewrite app_nil_r. split; [reflexivity | reflexivity].
    + eexists _, [_]. split; [reflexivity | discriminate].
    + exists Unsupported, []. rewrite app_nil_r. split; [reflexivity | discriminate].
  - eexists _, [_]. split; [reflexivity | discriminate].
Qed.

Lemma calm_issuance_keys (readFile : list event -> string -> option string) (usePKI : bool) :
  traced (issuance_keys readFile usePKI) (fun evs _ => Forall calm evs).
Proof.
  unfold issuance_keys. destruct usePKI.
  - apply traced_emit_then.
    apply traced_bind with (1 := loadPKISetup_loaded readFile). intros pkiSetup evs1 ->.
    apply traced_lift_then. intros keys _.
    apply traced_emit_then. apply traced_ret. repeat constructor.
  - apply traced_emit_then.
    apply traced_bind with (1 := calm_generateCoseKey). intros keyData evs1 H1.
    apply traced_emit_then. apply traced_ret.
    constructor; [exact I |]. apply Forall_app. split; [exact H1 | repeat constructor].
Qed.

Lemma issueMDoc_answered (issuerBaseUrl : value) (statusText : list event -> string)
    (passportData webId issuerKey x5Chain : value) :
  traced (issueMDoc issuerBaseUrl statusText passportData webId issuerKey x5Chain)
    (fun evs offerUrl =>
       exists request,
         evs = issuance_logs issuerBaseUrl request
               ++ [Http (POST (MDOC_ISSUE_URL issuerBaseUrl) (JsonBody request) MDOC_HEADERS)
                     (Resolved offerUrl)]).
Proof.
  unfold issueMDoc.
  apply traced_emit_then. apply traced_lift_then. intros mdocData _. cbv zeta.
  do 3 apply traced_emit_then.
  intros env tr. unfold try_catch, axios_post, request. cbv zeta.
  destruct (server env tr _) as [data | response] eqn:Hreply.
  - eexists _, [_]. split; [reflexivity |]. intros a [= <-].
    exists (mdoc_issuance_request issuerKey mdocData x5Chain). reflexivity.
  - destruct (silent_events _ (silent_issuance_failed statusText (AxiosError response))
                env (tr ++ [Http (POST (to_string issuerBaseUrl ++ "/openid4vc/mdoc/issue")
                                    (JsonBody (mdoc_issuance_request issuerKey mdocData x5Chain))
                                    MDOC_HEADERS) (Rejected response)]))
      as (r & evs & Hrun & _).
    exists r, (Http (POST (to_string issuerBaseUrl ++ "/openid4vc/mdoc/issue")
                       (JsonBody (mdoc_issuance_request issuerKey mdocData x5Chain))
                       MDOC_HEADERS) (Rejected response) :: evs).
    rewrite Hrun, <- app_assoc. split; [reflexivity |].
    intros a ->.
    pose proof (fails_issuance_failed statusText (AxiosError response) env
                  (tr ++ [Http (POST (to_string issuerBaseUrl ++ "/openid4vc/mdoc/issue")
                                  (JsonBody (mdoc_issuance_request issuerKey mdocData x5Chain))
                                  MDOC_HEADERS) (Rejected response)]) a) as Hne.
    rewrite Hrun in Hne. now contradiction Hne.
Qed.

Lemma parseCredentialOffer_parsed (offerUrl : value) :
  traced (parseCredentialOffer offerUrl)
    (fun evs _ => Forall calm evs /\ exists s, offerUrl = VStr s).
Proof.
  unfold parseCredentialOffer. apply traced_lift_then. intros query Hquery. cbv zeta.
  assert (Hs : exists s, offerUrl = VStr s).
  { destruct offerUrl; try discriminate Hquery. eauto. }
  assert (Huri : forall params,
            traced (fetch_offer_uri params)
              (fun evs _ => Forall calm evs /\ exists s, offerUrl = VStr s)).
  { intros params env tr.
    destruct (fetch_offer_uri_run params env tr) as (r & evs & Hrun & Hevs & _).
    exists r, evs. split; [exact Hrun |]. intros _ _. split; [| exact Hs].
    destruct Hevs as [-> | (offerUri & reply & -> & _)]; repeat constructor. }
  destruct (params_get _ "credential_offer") as [raw |]; [| apply Huri].
  destruct (negb (String.eqb raw EmptyString)); [| apply Huri].
  intros env tr. eexists _, []. rewrite app_nil_r. split; [reflexivity |].
  intros _ _. split; [constructor | exact Hs].
Qed.

Lemma namespace_field_ok (passportData : value) (namespace name : string) (x : value) :
  namespace_field passportData namespace name = Ok x ->
  x = field (field (field passportData "data") namespace) name.
Proof.
  unfold namespace_field, namespace_of.
  destruct (get_prop passportData "data") as [data | |] eqn:Hdata; try discriminate.
  cbn [rbind].
  destruct (get_prop data namespace) as [members | |] eqn:Hmembers; try discriminate.
  cbn [rbind]. intros Hx.
  apply get_prop_ok_field in Hdata as [-> _].
  apply get_prop_ok_field in Hmembers as [-> _].
  now apply get_prop_ok_field in Hx as [-> _].
Qed.

Lemma issuance_steps_result (issuerBaseUrl : value) (statusText : list event -> string)
    (readFile : list event -> string -> option string)
    (passportData webId : value) (usePKI : bool) :
  traced (issuance_steps issuerBaseUrl statusText readFile passportData webId usePKI)
    (fun evs result =>
       Forall calm evs
       /\ exists request offerUrl,
            In (Http (POST (MDOC_ISSUE_URL issuerBaseUrl) (JsonBody request) MDOC_HEADERS)
                  (Resolved (VStr offerUrl))) evs
            /\ field (field result "credentialOffer") "url" = VStr offerUrl
            /\ field (field result "credentialOffer") "qrCodeData" = VStr offerUrl
            /\ nullish (field (field result "credentialOffer") "offer") = false
            /\ field (field result "metadata") "issuer"
               = field (field (field result "credentialOffer") "offer") "credential_issuer"
            /\ field (field result "metadata") "webId" = webId
            /\ field (field result "metadata") "passportNumber"
               = field (field (field passportData "data") ISO_NAMESPACE) "document_number").
Proof.
  unfold issuance_steps.
  apply traced_emit_then.
  apply traced_bind with (1 := calm_issuance_keys readFile usePKI). intros keys evs1 H1.
  apply traced_bind
    with (1 := issueMDoc_answered issuerBaseUrl statusText passportData webId
                 (fst keys) (snd keys)).
  intros offerUrl evs2 (request & ->).
  apply traced_emit_then.
  apply traced_bind with (1 := parseCredentialOffer_parsed offerUrl).
  intros offer evs3 (H3 & s & ->).
  apply traced_emit_then.
  apply traced_lift_then. intros issuer Hissuer.
  apply traced_emit_then.
  apply traced_lift_then. intros types _.
  apply traced_emit_then.
  apply traced_lift_then. intros grant _.
  apply traced_bind with (Q1 := fun evs (_ : unit) => Forall calm evs).
  { destruct (truthy grant).
    - apply traced_emit_then. apply traced_lift_then. intros pin _.
      intros env tr. eexists _, [_]. split; [reflexivity |]. intros _ _. repeat constructor.
    - apply traced_ret. constructor. }
  intros [] evs4 H4.
  apply traced_date_then. intros t. apply traced_iso_then. intros issuanceDate.
  apply traced_lift_then. intros passportNumber Hnumber.
  apply traced_lift_then. intros issuer' Hissuer'.
  apply traced_ret.
  destruct (get_prop_ok_field _ _ _ Hissuer') as [-> Hoffer].
  apply namespace_field_ok in Hnumber as ->.
  split.
  - repeat first [ apply Forall_nil
                 | assumption
                 | apply Forall_app; split
                 | apply Forall_cons; [exact I |] ].
  - exists request, s. split.
    + right. apply in_or_app. right. apply in_or_app. left.
      apply in_or_app. right. left. reflexivity.
    + cbn. repeat split; try reflexivity; assumption.
Qed.

(** X25: what a full issuance leaves its caller.  When it returns, the
    issuer answered the issuance request with a string; that string is the
    [url] and the [qrCodeData] of the result; the offer in the result is not
    [null] or [undefined] and its [credential_issuer] is the [issuer] of the
    metadata; the web ID and the passport's document number are passed on;
    and nothing was written to the error console.  When it throws, the last
    thing it did was to report the message of the very error it throws. *)
Theorem full_issuance_outcome
    (issuerBaseUrl : value) (statusText : list event -> string)
    (readFile : list event -> string -> option string) (engineMessage : exn -> string)
    (passportData webId : value) (usePKI : bool)
    (env : environment) (tr : list event) :
  exists r evs,
    processFullIssuance issuerBaseUrl statusText readFile engineMessage
      passportData webId usePKI env tr
    = (r, tr ++ evs)
    /\ (forall result,
          r = Ok result ->
          Forall calm evs
          /\ exists request offerUrl,
               In (Http (POST (MDOC_ISSUE_URL issuerBaseUrl) (JsonBody request) MDOC_HEADERS)
                     (Resolved (VStr offerUrl))) evs
               /\ field (field result "credentialOffer") "url" = VStr offerUrl
               /\ field (field result "credentialOffer") "qrCodeData" = VStr offerUrl
               /\ nullish (field (field result "credentialOffer") "offer") = false
               /\ field (field result "metadata") "issuer"
                  = field (field (field result "credentialOffer") "offer") "credential_issuer"
               /\ field (field result "metadata") "webId" = webId
               /\ field (field result "metadata") "passportNumber"
                  = field (field (field passportData "data") ISO_NAMESPACE) "document_number")
    /\ (forall e,
          r = Throw e ->
          exists before, evs = before ++ [issuance_failure_report engineMessage e]).
Proof.
  unfold processFullIssuance, try_catch.
  destruct (issuance_steps_result issuerBaseUrl statusText readFile passportData webId usePKI
              env tr) as (r & evs & Hrun & Hok).
  rewrite Hrun. destruct r as [result | e |].
  - exists (Ok result), evs. split; [reflexivity |]. split; [| discriminate].
    intros result' [= <-]. now apply Hok.
  - exists (Throw e), (evs ++ [issuance_failure_report engineMessage e]).
    rewrite app_assoc. split; [reflexivity |]. split; [discriminate |].
    intros e' [= <-]. now exists evs.
  - exists Unsupported, evs. split; [reflexivity |]. split; discriminate.
Qed.
